(** * fix-waybar-vpn: the JSONC normaliser and the idempotent patcher

    A shallow embedding of [scripts/fix-waybar-vpn.py].

    - Python [str] values that hold file contents are lists of Unicode
      code points ([text := list N]); paths and console messages are
      [string]s.
    - [strip_jsonc_comments] is the index-driven [while] loop of the
      script: [content[i]] is a partial lookup that can fail with
      [IndexError], slices [content[i:i+2]] clamp as Python's do.
    - [re.search] / [re.sub] are modelled for the three fixed patterns of
      the script.
    - [json.loads] is a library function that returns a value or raises:
      the patcher is parameterised by it, and [json_loads] below is a
      reference model of the decoder, over the limits of the interpreter,
      used to run the patcher on concrete documents.
    - The file system is a finite map from paths to files, together with
      the trace of effects performed so far.  A file is read in text mode:
      what is read is the stored text with its line ends translated.

    Part I holds the definitions, Part II the properties. *)

From stdpp Require Import gmap strings list fin_maps.
From Stdlib Require Import NArith ZArith.

Set Warnings "-register-all".

(** * Part I: the program

    ** Text *)

Abbreviation char := N (only parsing).
Abbreviation text := (list N) (only parsing).

Definition QUOTE : char := 34%N.       (* double quote *)
Definition BACKSLASH : char := 92%N.   (* backslash *)
Definition SLASH : char := 47%N.       (* slash *)
Definition STAR : char := 42%N.        (* asterisk *)
Definition NEWLINE : char := 10%N.     (* line feed *)
Definition CR : char := 13%N.          (* carriage return *)
Definition COMMA : char := 44%N.       (* comma *)
Definition COLON : char := 58%N.       (* colon *)
Definition LBRACKET : char := 91%N.    (* opening square bracket *)
Definition RBRACKET : char := 93%N.    (* closing square bracket *)
Definition LBRACE : char := 123%N.     (* opening brace *)
Definition RBRACE : char := 125%N.     (* closing brace *)

(** A literal of the script: the code points of an ASCII Rocq string, in
    which a backquote (code 96) stands for a double quote.  No literal of
    the script holds a backquote. *)
Definition str_char (a : Ascii.ascii) : char :=
  if (Ascii.N_of_ascii a =? 96)%N then QUOTE else Ascii.N_of_ascii a.

Definition str (s : string) : text :=
  map str_char (String.list_ascii_of_string s).

(** [str.isspace] for one code point, which is also what [\s] matches in a
    [str] pattern: the characters of bidirectional type WS, B or S and of
    category Zs. *)
Definition isspace (c : char) : bool :=
  ((9 <=? c) && (c <=? 13) || (28 <=? c) && (c <=? 32)
   || (c =? 133) || (c =? 160) || (c =? 5760)
   || (8192 <=? c) && (c <=? 8202)
   || (c =? 8232) || (c =? 8233) || (c =? 8239) || (c =? 8287)
   || (c =? 12288))%N.

(** [content[i:i+2]] *)
Definition slice2 (content : text) (k : nat) : text := take 2 (drop k content).

(** ** Results of the loops

    [IndexError] is what Python raises for [content[i]] out of range;
    [OutOfFuel] only exists in the model: the loops are iterated a bounded
    number of times. *)
Inductive run (A : Type) : Type :=
| Done (a : A)
| IndexError
| OutOfFuel.
Arguments Done {A} a.
Arguments IndexError {A}.
Arguments OutOfFuel {A}.

Definition run_bind {A B} (r : run A) (k : A -> run B) : run B :=
  match r with
  | Done a => k a
  | IndexError => IndexError
  | OutOfFuel => OutOfFuel
  end.

Definition run_map {A B} (f : A -> B) (r : run A) : run B :=
  run_bind r (fun a => Done (f a)).

(** ** strip_jsonc_comments (lines 38-93) *)

(** The local variables of the loop. *)
Record scanner : Type := Scanner {
  i : nat;
  in_string : bool;
  escape_next : bool;
  result : text
}.

Definition scanner_init : scanner := Scanner 0 false false [].

(** [while i < len(content) and content[i] != NEWLINE: i += 1] *)
Fixpoint skip_line (fuel : nat) (content : text) (k : nat) : run nat :=
  if k <? length content then
    match content !! k with
    | None => IndexError
    | Some c =>
        if (c =? NEWLINE)%N then Done k
        else match fuel with
             | 0 => OutOfFuel
             | S fuel' => skip_line fuel' content (S k)
             end
    end
  else Done k.

(** [while i < len(content) - 1 and content[i:i+2] != STAR SLASH: i += 1] *)
Fixpoint skip_block (fuel : nat) (content : text) (k : nat) : run nat :=
  if (Z.of_nat k <? Z.of_nat (length content) - 1)%Z
     && negb (bool_decide (slice2 content k = [STAR; SLASH])) then
    match fuel with
    | 0 => OutOfFuel
    | S fuel' => skip_block fuel' content (S k)
    end
  else Done k.

(** One iteration of the outer loop, entered with [i < len(content)]. *)
Definition loop_body (content : text) (st : scanner) : run scanner :=
  match content !! i st with
  | None => IndexError
  | Some c =>
      if escape_next st then
        Done (Scanner (S (i st)) (in_string st) false (result st ++ [c]))
      else if (c =? BACKSLASH)%N && in_string st then
        Done (Scanner (S (i st)) (in_string st) true (result st ++ [c]))
      else if (c =? QUOTE)%N && negb (escape_next st) then
        Done (Scanner (S (i st)) (negb (in_string st)) (escape_next st)
                      (result st ++ [c]))
      else if in_string st then
        Done (Scanner (S (i st)) (in_string st) (escape_next st)
                      (result st ++ [c]))
      else if bool_decide (slice2 content (i st) = [SLASH; SLASH]) then
        run_bind (skip_line (length content) content (i st)) (fun k =>
        Done (Scanner k (in_string st) (escape_next st) (result st)))
      else if bool_decide (slice2 content (i st) = [SLASH; STAR]) then
        run_bind (skip_block (length content) content (i st + 2)) (fun k =>
        Done (Scanner (k + 2) (in_string st) (escape_next st) (result st)))
      else
        Done (Scanner (S (i st)) (in_string st) (escape_next st)
                      (result st ++ [c]))
  end.

(** [while i < len(content): ...] *)
Fixpoint while_loop (fuel : nat) (content : text) (st : scanner) : run scanner :=
  if i st <? length content then
    match fuel with
    | 0 => OutOfFuel
    | S fuel' => run_bind (loop_body content st) (while_loop fuel' content)
    end
  else Done st.

Definition strip_jsonc_comments (content : text) : run text :=
  run_map result (while_loop (length content) content scanner_init).

(** The loop heads of a run: the states in which the condition of the
    outer [while] is evaluated. *)
Inductive loop_head (content : text) : scanner -> Prop :=
| head_init : loop_head content scanner_init
| head_next st st' :
    loop_head content st ->
    i st < length content ->
    loop_body content st = Done st' ->
    loop_head content st'.

(** The state at the [n]-th loop head after [st], when there is one. *)
Fixpoint nth_head (n : nat) (content : list N) (st : scanner) : option scanner :=
  match n with
  | 0 => Some st
  | S n' =>
      if i st <? length content then
        match loop_body content st with
        | Done st' => nth_head n' content st'
        | _ => None
        end
      else None
  end.

(** The body of a string as the scan reads it: characters other than a
    quote and a backslash, and backslash pairs. *)
Inductive string_body : list N -> Prop :=
| body_nil : string_body []
| body_char c body :
    c <> QUOTE -> c <> BACKSLASH -> string_body body -> string_body (c :: body)
| body_escape e body :
    string_body body -> string_body (BACKSLASH :: e :: body).

(** ** remove_trailing_commas (lines 96-99) *)

Definition is_closer (c : char) : bool := ((c =? RBRACE) || (c =? RBRACKET))%N.

Fixpoint take_spaces (s : text) : text :=
  match s with
  | c :: tl => if isspace c then c :: take_spaces tl else []
  | [] => []
  end.

Fixpoint drop_spaces (s : text) : text :=
  match s with
  | c :: tl => if isspace c then drop_spaces tl else s
  | [] => []
  end.

(** A match of [,(\s*[}\]])] at the head of [s]: group 1 and what follows
    the match.  The greedy [\s*] never has to give a character back, since
    the class that follows it holds no white space. *)
Definition match_trailing_comma (s : text) : option (text * text) :=
  match s with
  | c :: tl =>
      if (c =? COMMA)%N then
        match drop_spaces tl with
        | b :: rest =>
            if is_closer b then Some (take_spaces tl ++ [b], rest) else None
        | [] => None
        end
      else None
  | [] => None
  end.

(** [re.sub(pattern, r'\1', content)]: leftmost matches, not overlapping;
    where no match starts the character is copied. *)
Fixpoint sub_trailing_commas (fuel : nat) (s : text) : text :=
  match fuel with
  | 0 => s
  | S fuel' =>
      match s with
      | [] => []
      | c :: tl =>
          match match_trailing_comma s with
          | Some (group1, rest) => group1 ++ sub_trailing_commas fuel' rest
          | None => c :: sub_trailing_commas fuel' tl
          end
      end
  end.

Definition remove_trailing_commas (content : text) : text :=
  sub_trailing_commas (length content) content.

(** [normalize] of the specification: both passes. *)
Definition normalize (content : text) : run text :=
  run_map remove_trailing_commas (strip_jsonc_comments content).

(** ** The scan as a one-character-lookahead automaton

    Used to reason about [strip_jsonc_comments]; [strip_scan] below shows
    that the index-driven loop computes exactly this. *)
Inductive mode : Type :=
| Code (ins esc : bool)   (* copying, with the two flags *)
| Line                    (* inside a line comment *)
| BlockOpen               (* on the asterisk that opens a block comment *)
| Block                   (* inside a block comment *)
| BlockClose.             (* on the slash that closes a block comment *)

Fixpoint scan (m : mode) (s : text) : text :=
  match s with
  | [] => []
  | c :: tl =>
      match m with
      | Code ins esc =>
          if esc then c :: scan (Code ins false) tl
          else if (c =? BACKSLASH)%N && ins then c :: scan (Code ins true) tl
          else if (c =? QUOTE)%N then c :: scan (Code (negb ins) false) tl
          else if ins then c :: scan (Code true false) tl
          else if bool_decide (take 2 s = [SLASH; SLASH]) then scan Line tl
          else if bool_decide (take 2 s = [SLASH; STAR]) then scan BlockOpen tl
          else c :: scan (Code false false) tl
      | Line =>
          if (c =? NEWLINE)%N then c :: scan (Code false false) tl
          else scan Line tl
      | BlockOpen => scan Block tl
      | Block =>
          if bool_decide (take 2 s = [STAR; SLASH]) then scan BlockClose tl
          else scan Block tl
      | BlockClose => scan (Code false false) tl
      end
  end.

(** Which commas [remove_trailing_commas] deletes. *)
Definition trailing (tl : text) : bool :=
  match drop_spaces tl with
  | b :: _ => is_closer b
  | [] => false
  end.

Fixpoint drop_commas (s : text) : text :=
  match s with
  | [] => []
  | c :: tl =>
      if (c =? COMMA)%N && trailing tl then drop_commas tl
      else c :: drop_commas tl
  end.

(** ** Text helpers of the patcher *)

(** [s.startswith(lit)], returning what follows the prefix. *)
Fixpoint strip_prefix (lit s : text) : option text :=
  match lit with
  | [] => Some s
  | a :: lit' =>
      match s with
      | b :: s' => if (a =? b)%N then strip_prefix lit' s' else None
      | [] => None
      end
  end.

(** [needle in s] for two strings. *)
Fixpoint contains (needle s : text) : bool :=
  match strip_prefix needle s with
  | Some _ => true
  | None =>
      match s with
      | [] => false
      | _ :: tl => contains needle tl
      end
  end.

(** [s.rfind(c)]; [None] stands for -1. *)
Fixpoint rfind (c : char) (s : text) : option nat :=
  match s with
  | [] => None
  | x :: tl =>
      match rfind c tl with
      | Some k => Some (S k)
      | None => if (x =? c)%N then Some 0 else None
      end
  end.

(** [s.rstrip()] *)
Definition rstrip (s : text) : text := reverse (drop_spaces (reverse s)).

(** [s.endswith(c)] for one character. *)
Definition endswith (s : text) (c : char) : bool :=
  match last s with
  | Some x => (x =? c)%N
  | None => false
  end.

(** [content[:k] + ins + content[k:]] *)
Definition insert_at (content : text) (k : nat) (ins : text) : text :=
  take k content ++ ins ++ drop k content.

(** [re.search(m, s)] for a pattern given by its matcher at one position
    ([m] returns the length of the match that starts there): the leftmost
    start wins.  Returns [(match.start(), match.end())]. *)
Fixpoint re_search_from (m : text -> option nat) (s : text) (k : nat)
  : option (nat * nat) :=
  match m s with
  | Some n => Some (k, k + n)
  | None =>
      match s with
      | [] => None
      | _ :: tl => re_search_from m tl (S k)
      end
  end.

Definition re_search (m : text -> option nat) (s : text) : option (nat * nat) :=
  re_search_from m s 0.

(** The two anchors as they stand in the patterns, quotes included, and
    the two keys looked up in the decoded document. *)
Definition TRAY_LITERAL : text := str "`group/tray-expander`".
Definition MODULES_LITERAL : text := str "`modules-right`".
Definition MODULES_RIGHT : text := str "modules-right".
Definition CUSTOM_VPN : text := str "custom/vpn".

(** tray_pattern: the quoted literal, [\s*], a comma. *)
Definition tray_pattern (s : text) : option nat :=
  match strip_prefix TRAY_LITERAL s with
  | Some r =>
      match drop_spaces r with
      | c :: _ =>
          if (c =? COMMA)%N
          then Some (length TRAY_LITERAL + length (take_spaces r) + 1)
          else None
      | [] => None
      end
  | None => None
  end.

(** modules_pattern: the quoted key, [\s*], a colon, [\s*], an opening
    bracket, and in group 2 the white space after it. *)
Definition modules_pattern (s : text) : option nat :=
  match strip_prefix MODULES_LITERAL s with
  | Some r =>
      match drop_spaces r with
      | c :: r2 =>
          if (c =? COLON)%N then
            match drop_spaces r2 with
            | b :: r3 =>
                if (b =? LBRACKET)%N
                then Some (length MODULES_LITERAL + length (take_spaces r) + 1
                           + length (take_spaces r2) + 1
                           + length (take_spaces r3))
                else None
            | [] => None
            end
          else None
      | [] => None
      end
  | None => None
  end.

Definition TRAY_INSERT : text := str "
    `custom/vpn`,".

Definition MODULES_INSERT : text := str "`custom/vpn`,
    ".

Definition vpn_module : text := str "
  `custom/vpn`: {
    `format`: `{}`,
    `return-type`: `json`,
    `exec`: `~/.config/waybar/scripts/vpn-toggle.sh`,
    `on-click`: `~/.config/waybar/scripts/vpn-toggle.sh toggle`,
    `interval`: 5
  }".

(** Lines 144-164: the entry in the modules-right array.  [None] is the
    branch that prints the error and leaves through [sys.exit(1)]. *)
Definition add_module_entry (content : text) : option text :=
  match re_search tray_pattern content with
  | Some (_, insert_pos) => Some (insert_at content insert_pos TRAY_INSERT)
  | None =>
      match re_search modules_pattern content with
      | Some (_, insert_pos) =>
          Some (insert_at content insert_pos MODULES_INSERT)
      | None => None
      end
  end.

(** Lines 167-192: the definition object before the last closing brace. *)
Definition needs_comma (content : text) (last_brace_pos : nat) : bool :=
  negb (endswith (rstrip (take last_brace_pos content)) COMMA).

Definition add_definition (content : text) : option text :=
  match rfind RBRACE content with
  | None => None
  | Some last_brace_pos =>
      let vpn_module :=
        if needs_comma content last_brace_pos
        then COMMA :: vpn_module else vpn_module in
      Some (take last_brace_pos content ++ vpn_module ++ [NEWLINE]
            ++ drop last_brace_pos content)
  end.

(** ** Where the insertions go, in words *)

Abbreviation spaces ws := (Forall (fun c : N => isspace c = true) ws).

(** An occurrence of the tray anchor: the quoted literal, white space, a
    comma. *)
Definition tray_anchor (content pre ws post : list N) : Prop :=
  content = pre ++ TRAY_LITERAL ++ ws ++ COMMA :: post /\ spaces ws.

Definition starts_with_space (s : list N) : bool :=
  match s with
  | c :: _ => isspace c
  | [] => false
  end.

(** An occurrence of the array anchor: the quoted key, a colon and an
    opening bracket, with white space between them, and all the white space
    [ws3] that follows the bracket. *)
Definition modules_anchor (content pre ws1 ws2 ws3 post : list N) : Prop :=
  content = pre ++ MODULES_LITERAL ++ ws1 ++ COLON :: ws2
                ++ LBRACKET :: ws3 ++ post /\
  spaces ws1 /\ spaces ws2 /\ spaces ws3 /\ starts_with_space post = false.

(** The first occurrence of an anchor, and its absence. *)
Definition first_tray_anchor (content pre ws post : list N) : Prop :=
  tray_anchor content pre ws post /\
  forall pre' ws' post',
    tray_anchor content pre' ws' post' -> length pre <= length pre'.

Definition first_modules_anchor (content pre ws1 ws2 ws3 post : list N) : Prop :=
  modules_anchor content pre ws1 ws2 ws3 post /\
  forall pre' ws1' ws2' ws3' post',
    modules_anchor content pre' ws1' ws2' ws3' post' ->
    length pre <= length pre'.

Definition tray_absent (content : list N) : Prop :=
  forall pre ws post, ~ tray_anchor content pre ws post.

Definition modules_absent (content : list N) : Prop :=
  forall pre ws1 ws2 ws3 post, ~ modules_anchor content pre ws1 ws2 ws3 post.

(** The text before the brace ends in a comma once its trailing white
    space is trimmed. *)
Definition ends_in_comma (pre : list N) : Prop :=
  exists p ws, pre = p ++ COMMA :: ws /\ spaces ws.

Arguments TRAY_LITERAL : simpl never.
Arguments MODULES_LITERAL : simpl never.
Arguments TRAY_INSERT : simpl never.
Arguments MODULES_INSERT : simpl never.
Arguments vpn_module : simpl never.

(** ** Exceptions *)

Inductive pyexn : Type :=
| FileNotFoundError
| IsADirectoryError
| JSONDecodeError
| ValueError
| RecursionError
| TypeError
| AttributeError
| PyIndexError
| Diverged.   (* model only: a loop bound of the model was hit *)

(** What a call of a library function gives: the value it returns, or the
    exception it raises. *)
Inductive returned (A : Type) : Type :=
| Returns (a : A)
| Raises (e : pyexn).
Arguments Returns {A} a.
Arguments Raises {A} e.

(** ** JSON values and a reference model of [json.loads]

    Numbers keep their lexeme: nothing below depends on a numeric value. *)
Inductive json : Type :=
| JNull
| JBool (b : bool)
| JNum (lexeme : text)
| JStr (s : text)
| JArr (items : list json)
| JObj (members : list (text * json)).

(** [d[key] = v] on a dict kept in insertion order. *)
Fixpoint dict_set (d : list (text * json)) (key : text) (v : json)
  : list (text * json) :=
  match d with
  | [] => [(key, v)]
  | (k, x) :: rest =>
      if bool_decide (k = key) then (k, v) :: rest
      else (k, x) :: dict_set rest key v
  end.

Fixpoint dict_lookup (d : list (text * json)) (key : text) : option json :=
  match d with
  | [] => None
  | (k, x) :: rest =>
      if bool_decide (k = key) then Some x else dict_lookup rest key
  end.

Definition is_json_ws (c : char) : bool :=
  ((c =? 32) || (c =? 9) || (c =? 10) || (c =? 13))%N.

Fixpoint skip_ws (s : text) : text :=
  match s with
  | c :: tl => if is_json_ws c then skip_ws tl else s
  | [] => []
  end.

Definition is_digit (c : char) : bool := ((48 <=? c) && (c <=? 57))%N.

Fixpoint take_digits (s : text) : text :=
  match s with
  | c :: tl => if is_digit c then c :: take_digits tl else []
  | [] => []
  end.

Fixpoint drop_digits (s : text) : text :=
  match s with
  | c :: tl => if is_digit c then drop_digits tl else s
  | [] => []
  end.

Definition hex_val (c : char) : option N :=
  if is_digit c then Some (c - 48)%N
  else if ((97 <=? c) && (c <=? 102))%N then Some (c - 87)%N
  else if ((65 <=? c) && (c <=? 70))%N then Some (c - 55)%N
  else None.

(** Four hexadecimal digits. *)
Definition decode_uXXXX (s : text) : option (N * text) :=
  match s with
  | a :: b :: c :: d :: tl =>
      match hex_val a, hex_val b, hex_val c, hex_val d with
      | Some x, Some y, Some z, Some w =>
          Some ((((x * 16 + y) * 16 + z) * 16 + w)%N, tl)
      | _, _, _, _ => None
      end
  | _ => None
  end.

Definition simple_escape (e : char) : option char :=
  if (e =? QUOTE)%N then Some QUOTE
  else if (e =? BACKSLASH)%N then Some BACKSLASH
  else if (e =? SLASH)%N then Some SLASH
  else if (e =? 98)%N then Some 8%N
  else if (e =? 102)%N then Some 12%N
  else if (e =? 110)%N then Some 10%N
  else if (e =? 114)%N then Some 13%N
  else if (e =? 116)%N then Some 9%N
  else None.

(** The body of a string, entered after its opening quote (strict mode:
    a raw control character is an error). *)
Fixpoint scanstring (fuel : nat) (s : text) (acc : text) : option (text * text) :=
  match fuel with
  | 0 => None
  | S fuel' =>
      match s with
      | [] => None
      | c :: tl =>
          if (c =? QUOTE)%N then Some (acc, tl)
          else if (c =? BACKSLASH)%N then
            match tl with
            | [] => None
            | e :: tl' =>
                if (e =? 117)%N then
                  match decode_uXXXX tl' with
                  | None => None
                  | Some (uni, r) =>
                      if ((55296 <=? uni) && (uni <=? 56319))%N then
                        match r with
                        | b :: u :: r' =>
                            if ((b =? BACKSLASH) && (u =? 117))%N then
                              match decode_uXXXX r' with
                              | None => None
                              | Some (uni2, r'') =>
                                  if ((56320 <=? uni2) && (uni2 <=? 57343))%N
                                  then scanstring fuel' r''
                                         (acc ++ [(65536 + ((uni - 55296) * 1024
                                                   + (uni2 - 56320)))%N])
                                  else scanstring fuel' r (acc ++ [uni])
                              end
                            else scanstring fuel' r (acc ++ [uni])
                        | _ => scanstring fuel' r (acc ++ [uni])
                        end
                      else scanstring fuel' r (acc ++ [uni])
                  end
                else
                  match simple_escape e with
                  | Some x => scanstring fuel' tl' (acc ++ [x])
                  | None => None
                  end
            end
          else if (c <? 32)%N then None
          else scanstring fuel' tl (acc ++ [c])
      end
  end.

(** NUMBER_RE: an integer part, an optional fraction, an optional
    exponent. *)
Definition match_number (s : text) : option (text * text) :=
  let '(sign, s1) :=
    match s with
    | c :: tl => if (c =? 45)%N then ([c], tl) else ([], s)
    | [] => ([], s)
    end in
  match s1 with
  | [] => None
  | d :: tl =>
      if is_digit d then
        let '(int, s2) :=
          if (d =? 48)%N then ([d], tl)
          else (d :: take_digits tl, drop_digits tl) in
        let '(frac, s3) :=
          match s2 with
          | dot :: ((d1 :: _) as r) =>
              if ((dot =? 46)%N && is_digit d1)
              then (dot :: take_digits r, drop_digits r) else ([], s2)
          | _ => ([], s2)
          end in
        let '(exp, s4) :=
          match s3 with
          | e :: r =>
              if ((e =? 101) || (e =? 69))%N then
                match r with
                | sg :: ((d1 :: _) as r') =>
                    if is_digit sg then (e :: take_digits r, drop_digits r)
                    else if (((sg =? 43) || (sg =? 45))%N && is_digit d1)
                    then (e :: sg :: take_digits r', drop_digits r')
                    else ([], s3)
                | [sg] =>
                    if is_digit sg then ([e; sg], []) else ([], s3)
                | [] => ([], s3)
                end
              else ([], s3)
          | [] => ([], s3)
          end in
        Some (sign ++ int ++ frac ++ exp, s4)
      else None
  end.

(** The limits of the interpreter that the decoder meets: how deep
    containers may nest at the call before [RecursionError] is raised, and
    [sys.get_int_max_str_digits()], the number of digits beyond which the
    conversion of an integer literal raises [ValueError] (0: no limit). *)
Record interpreter : Type := Interpreter {
  max_nesting : nat;
  max_str_digits : nat
}.

(** A lexeme of NUMBER_RE without fraction and exponent is converted by
    [int]; the others by [float], which has no limit. *)
Definition is_integer (lexeme : text) : bool :=
  forallb (fun c => is_digit c || (c =? 45)%N) lexeme.

(** [int] counts the digits of the literal, and checks the limit for more
    than 640 of them. *)
Definition exceeds_digits (limit : nat) (lexeme : text) : bool :=
  let digits := length (List.filter is_digit lexeme) in
  is_integer lexeme && (640 <? digits) && (0 <? limit) && (limit <? digits).

Section Decoder.

Variable py : interpreter.

(** [scan_once], [JSONArray] and [JSONObject] of the decoder.  [depth] is
    the number of containers that may still be entered; a container is
    counted when its opening bracket is met, before anything in it is
    read.  [fuel] bounds the recursion of the model. *)
Fixpoint parse_value (fuel depth : nat) (s : text) : returned (json * text) :=
  match fuel with
  | 0 => Raises Diverged
  | S fuel' =>
      match s with
      | [] => Raises JSONDecodeError
      | c :: tl =>
          if (c =? QUOTE)%N then
            match scanstring (S (length tl)) tl [] with
            | Some (x, r) => Returns (JStr x, r)
            | None => Raises JSONDecodeError
            end
          else if (c =? LBRACE)%N then
            match depth with
            | 0 => Raises RecursionError
            | S depth' =>
                match skip_ws tl with
                | d :: r =>
                    if (d =? RBRACE)%N then Returns (JObj [], r)
                    else if (d =? QUOTE)%N then parse_members fuel' depth' r []
                    else Raises JSONDecodeError
                | [] => Raises JSONDecodeError
                end
            end
          else if (c =? LBRACKET)%N then
            match depth with
            | 0 => Raises RecursionError
            | S depth' =>
                match skip_ws tl with
                | d :: r =>
                    if (d =? RBRACKET)%N then Returns (JArr [], r)
                    else parse_elems fuel' depth' (d :: r) []
                | [] => Raises JSONDecodeError
                end
            end
          else
            match strip_prefix (str "null") s with
            | Some r => Returns (JNull, r)
            | None =>
            match strip_prefix (str "true") s with
            | Some r => Returns (JBool true, r)
            | None =>
            match strip_prefix (str "false") s with
            | Some r => Returns (JBool false, r)
            | None =>
            match match_number s with
            | Some (lexeme, r) =>
                if exceeds_digits (max_str_digits py) lexeme
                then Raises ValueError
                else Returns (JNum lexeme, r)
            | None =>
            match strip_prefix (str "NaN") s with
            | Some r => Returns (JNum (str "NaN"), r)
            | None =>
            match strip_prefix (str "Infinity") s with
            | Some r => Returns (JNum (str "Infinity"), r)
            | None =>
            match strip_prefix (str "-Infinity") s with
            | Some r => Returns (JNum (str "-Infinity"), r)
            | None => Raises JSONDecodeError
            end end end end end end end
      end
  end
with parse_elems (fuel depth : nat) (s : text) (acc : list json)
  : returned (json * text) :=
  match fuel with
  | 0 => Raises Diverged
  | S fuel' =>
      match parse_value fuel' depth s with
      | Raises e => Raises e
      | Returns (v, r) =>
          match skip_ws r with
          | d :: r' =>
              if (d =? RBRACKET)%N then Returns (JArr (acc ++ [v]), r')
              else if (d =? COMMA)%N
              then parse_elems fuel' depth (skip_ws r') (acc ++ [v])
              else Raises JSONDecodeError
          | [] => Raises JSONDecodeError
          end
      end
  end
with parse_members (fuel depth : nat) (s : text) (acc : list (text * json))
  : returned (json * text) :=
  match fuel with
  | 0 => Raises Diverged
  | S fuel' =>
      match scanstring (S (length s)) s [] with
      | None => Raises JSONDecodeError
      | Some (key, r) =>
          match skip_ws r with
          | c :: r1 =>
              if (c =? COLON)%N then
                match parse_value fuel' depth (skip_ws r1) with
                | Raises e => Raises e
                | Returns (v, r2) =>
                    let acc' := dict_set acc key v in
                    match skip_ws r2 with
                    | d :: r3 =>
                        if (d =? RBRACE)%N then Returns (JObj acc', r3)
                        else if (d =? COMMA)%N then
                          match skip_ws r3 with
                          | q :: r4 =>
                              if (q =? QUOTE)%N
                              then parse_members fuel' depth r4 acc'
                              else Raises JSONDecodeError
                          | [] => Raises JSONDecodeError
                          end
                        else Raises JSONDecodeError
                    | [] => Raises JSONDecodeError
                    end
                end
              else Raises JSONDecodeError
          | [] => Raises JSONDecodeError
          end
      end
  end.

(** [json.loads(s)] *)
Definition json_loads (s : text) : returned json :=
  match s with
  | 65279%N :: _ => Raises JSONDecodeError   (* a byte order mark is refused *)
  | _ =>
      match parse_value (2 * length s + 2) (max_nesting py) (skip_ws s) with
      | Returns (v, r) =>
          match skip_ws r with
          | [] => Returns v
          | _ :: _ => Raises JSONDecodeError   (* extra data *)
          end
      | Raises e => Raises e
      end
  end.

End Decoder.

(** CPython 3.11 at its defaults: a recursion limit of 1000, of which the
    calls from the module down to the decoder leave 992 levels, and 4300
    digits. *)
Definition cpython : interpreter := Interpreter 992 4300.

(** [needle in v] for a string [needle] and a decoded value: element of
    a list, substring of a string, key of a dict; [None] is the
    [TypeError] raised for a number, a boolean or [None]. *)
Definition py_in (needle : text) (v : json) : option bool :=
  match v with
  | JArr items =>
      Some (existsb (fun x => match x with
                              | JStr x => bool_decide (x = needle)
                              | _ => false
                              end) items)
  | JStr x => Some (contains needle x)
  | JObj members => Some (bool_decide (is_Some (dict_lookup members needle)))
  | JNull | JBool _ | JNum _ => None
  end.

(** ** The file system and the effects of a run

    The collaborators follow the simple contract of the specification:
    read a file, write a file, copy a file, set permission bits.  The
    trace records every effect in the order it is performed.

    A file holds the text its bytes decode to, and its permission bits. *)
Record file : Type := File { data : text; perm : N }.

(** Universal newlines, the translation [open] applies in text mode when
    a file is read: a carriage return followed by a line feed, and a
    carriage return alone, are read as one line feed. *)
Fixpoint universal_newlines (s : text) : text :=
  match s with
  | [] => []
  | c :: tl =>
      if (c =? CR)%N then
        NEWLINE :: match tl with
                   | d :: tl' =>
                       if (d =? NEWLINE)%N then universal_newlines tl'
                       else universal_newlines tl
                   | [] => []
                   end
      else c :: universal_newlines tl
  end.

(** What [f.read()] gives for a file opened with [open(path, 'r')]. *)
Definition read_text (f : file) : text := universal_newlines (data f).

Inductive event : Type :=
| EvCopy (src dst : string)
| EvWrite (path : string) (content : text)
| EvAppend (path : string) (content : text)
| EvMakedirs (path : string)
| EvChmod (path : string) (bits : N)
| EvStdout (line : string)
| EvStderr (line : string).

Record world : Type := World {
  files : gmap string file;
  dirs : gset string;
  home : string;
  umask : N;
  trace : list event
}.

Definition set_files (f : gmap string file) (w : world) : world :=
  World f (dirs w) (home w) (umask w) (trace w).
Definition set_dirs (d : gset string) (w : world) : world :=
  World (files w) d (home w) (umask w) (trace w).
Definition log (e : event) (w : world) : world :=
  World (files w) (dirs w) (home w) (umask w) (trace w ++ [e]).

(** How a call ends: it returns, it leaves through [sys.exit], or an
    exception escapes. *)
Inductive outcome (A : Type) : Type :=
| Return (a : A)
| Exit (status : Z)
| Raise (e : pyexn).
Arguments Return {A} a.
Arguments Exit {A} status.
Arguments Raise {A} e.

(** The status the process ends with. *)
Definition exit_status {A} (o : outcome A) : Z :=
  match o with
  | Return _ => 0
  | Exit status => status
  | Raise _ => 1
  end%Z.

Definition io (A : Type) : Type := world -> world * outcome A.

Definition ret {A} (a : A) : io A := fun w => (w, Return a).

Definition io_bind {A B} (m : io A) (k : A -> io B) : io B :=
  fun w =>
    match m w with
    | (w', Return a) => k a w'
    | (w', Exit status) => (w', Exit status)
    | (w', Raise e) => (w', Raise e)
    end.

Notation "x <- m ;; k" := (io_bind m (fun x => k))
  (at level 100, m at next level, right associativity).
Notation "m ;; k" := (io_bind m (fun _ => k))
  (at level 100, right associativity).

Definition lift {A} (o : outcome A) : io A := fun w => (w, o).
Definition sys_exit {A} (status : Z) : io A := lift (Exit status).
Definition print (line : string) : io unit :=
  fun w => (log (EvStdout line) w, Return tt).
Definition print_err (line : string) : io unit :=
  fun w => (log (EvStderr line) w, Return tt).

Definition os_path_exists (path : string) : io bool :=
  fun w => (w, Return (bool_decide (is_Some (files w !! path))
                       || bool_decide (path ∈ dirs w))).

(** [with open(path, 'r') as f: f.read()] *)
Definition read_file (path : string) : io text :=
  fun w =>
    match files w !! path with
    | Some f => (w, Return (read_text f))
    | None =>
        (w, Raise (if bool_decide (path ∈ dirs w)
                   then IsADirectoryError else FileNotFoundError))
    end.

(** The permission bits of a file that [open] creates. *)
Definition created_perm (w : world) : N := N.ldiff 438 (umask w).

(** [with open(path, 'w') as f: f.write(content)]: the text is stored as
    it is, a line feed being the line end of the platform. *)
Definition write_file (path : string) (content : text) : io unit :=
  fun w =>
    match files w !! path with
    | Some f =>
        (log (EvWrite path content)
             (set_files (<[path := File content (perm f)]> (files w)) w),
         Return tt)
    | None =>
        if bool_decide (path ∈ dirs w) then (w, Raise IsADirectoryError)
        else
          (log (EvWrite path content)
               (set_files (<[path := File content (created_perm w)]> (files w))
                          w),
           Return tt)
    end.

(** [with open(path, 'a') as f: f.write(content)]: what the file holds
    stays, the text is stored after it. *)
Definition append_file (path : string) (content : text) : io unit :=
  fun w =>
    match files w !! path with
    | Some f =>
        (log (EvAppend path content)
             (set_files (<[path := File (data f ++ content) (perm f)]> (files w))
                        w),
         Return tt)
    | None =>
        if bool_decide (path ∈ dirs w) then (w, Raise IsADirectoryError)
        else
          (log (EvAppend path content)
               (set_files (<[path := File content (created_perm w)]> (files w))
                          w),
           Return tt)
    end.

(** [shutil.copy2(src, dst)]: content and permission bits. *)
Definition copy2 (src dst : string) : io unit :=
  fun w =>
    match files w !! src with
    | Some f =>
        (log (EvCopy src dst) (set_files (<[dst := f]> (files w)) w),
         Return tt)
    | None => (w, Raise FileNotFoundError)
    end.

(** [os.chmod(path, os.stat(path).st_mode | S_IXUSR | S_IXGRP | S_IXOTH)] *)
Definition chmod_executable (path : string) : io unit :=
  fun w =>
    match files w !! path with
    | Some f =>
        let bits := N.lor (perm f) 73 in
        (log (EvChmod path bits)
             (set_files (<[path := File (data f) bits]> (files w)) w),
         Return tt)
    | None => (w, Raise FileNotFoundError)
    end.

Definition is_slash (a : Ascii.ascii) : bool :=
  (Ascii.N_of_ascii a =? 47)%N.

Fixpoint rfind_slash (l : list Ascii.ascii) : option nat :=
  match l with
  | [] => None
  | a :: tl =>
      match rfind_slash tl with
      | Some k => Some (S k)
      | None => if is_slash a then Some 0 else None
      end
  end.

Fixpoint drop_slashes (l : list Ascii.ascii) : list Ascii.ascii :=
  match l with
  | a :: tl => if is_slash a then drop_slashes tl else l
  | [] => []
  end.

(** [os.path.dirname(path)] *)
Definition dirname (path : string) : string :=
  let l := String.list_ascii_of_string path in
  let head := match rfind_slash l with
              | Some k => take (S k) l
              | None => []
              end in
  String.string_of_list_ascii
    (if forallb is_slash head then head
     else reverse (drop_slashes (reverse head))).

(** The directory and the ancestors [os.makedirs] may have to create. *)
Fixpoint ancestors (fuel : nat) (d : string) : list string :=
  match fuel with
  | 0 => []
  | S fuel' =>
      if bool_decide (d = EmptyString) then []
      else d :: (if bool_decide (dirname d = d) then []
                 else ancestors fuel' (dirname d))
  end.

(** [os.makedirs(d)], called on a path that does not exist. *)
Definition makedirs (d : string) : io unit :=
  fun w =>
    if bool_decide (d = EmptyString) then (w, Raise FileNotFoundError)
    else
      (log (EvMakedirs d)
           (set_dirs (list_to_set (ancestors (String.length d) d) ∪ dirs w) w),
       Return tt).

(** The home directory as [os.path.expanduser] uses it: the value of
    HOME without its trailing slashes. *)
Definition userhome (w : world) : string :=
  String.string_of_list_ascii
    (reverse (drop_slashes (reverse (String.list_ascii_of_string (home w))))).

(** [expand_path] (lines 26-28): [os.path.expanduser], for the one form
    the script uses, a tilde followed by a slash or by nothing; other
    paths are returned as they are. *)
Definition expand_path (path : string) : io string :=
  fun w =>
    match path with
    | String a rest =>
        if ((Ascii.N_of_ascii a =? 126)%N
            && match rest with
               | String b _ => is_slash b
               | EmptyString => true
               end) then
          let r := userhome w +:+ rest in
          (w, Return (if bool_decide (r = EmptyString) then "/" else r))
        else (w, Return path)
    | EmptyString => (w, Return path)
    end.

(** [backup_file] (lines 31-35) *)
Definition backup_file (path : string) : io string :=
  let backup_path := path +:+ ".bak" in
  copy2 path backup_path ;;
  ret backup_path.

Definition css_block : text := str "
#custom-vpn {
  min-width: 12px;
  margin-left: 7.5px;
  margin-right: 17px;
}
".

Definition CSS_SELECTOR : text := str "#custom-vpn".

Definition ICON_LOCK : char := 983870%N.        (* U+F033E *)
Definition ICON_LOCK_OPEN : char := 987078%N.   (* U+F0FC6 *)

(** [get_vpn_script_content] (lines 244-262) *)
Definition get_vpn_script_content : text :=
  str "#!/bin/bash
INTERFACE=`home`

if ip link show `$INTERFACE` 2>/dev/null | grep -q `state UP`; then
    if [[ `$1` == `toggle` ]]; then
        sudo wg-quick down `$INTERFACE`
    else
        echo '{`text`: `" ++ [ICON_LOCK] ++ str "`, `tooltip`: `VPN: Connected`, `class`: `connected`}'
    fi
else
    if [[ `$1` == `toggle` ]]; then
        sudo wg-quick up `$INTERFACE`
    else
        echo '{`text`: `" ++ [ICON_LOCK_OPEN] ++ str "`, `tooltip`: `VPN: Disconnected`, `class`: `disconnected`}'
    fi
fi
".

(** ** Which files a run writes *)

(** The event writes (content or permission bits of) the file [p]. *)
Definition writes_to (e : event) (p : string) : Prop :=
  match e with
  | EvCopy _ dst => dst = p
  | EvWrite q _ | EvAppend q _ | EvChmod q _ => q = p
  | EvMakedirs _ | EvStdout _ | EvStderr _ => False
  end.

(** From [w] to [w'] the file [p] is left alone: no event writes it and it
    holds what it held. *)
Definition untouched (p : string) (w w' : world) : Prop :=
  files w' !! p = files w !! p /\
  exists evs, trace w' = trace w ++ evs /\
              Forall (fun e => ~ writes_to e p) evs.

(** The computation writes no file outside [allowed]. *)
Definition confined {A} (allowed : string -> Prop) (m : io A) : Prop :=
  forall w p, ~ allowed p -> untouched p w (fst (m w)).

(** The world after the backup of [path] has been taken and announced. *)
Definition backed_up (path : string) (f : file) (w : world) : world :=
  log (EvStdout ("Backed up: " +:+ path +:+ " -> " +:+ (path +:+ ".bak")))
      (log (EvCopy path (path +:+ ".bak"))
           (set_files (<[path +:+ ".bak" := f]> (files w)) w)).

(** The world after the patched text has been written and reported. *)
Definition written (path : string) (f : file) (content : list N)
    (hm hd : bool) (w : world) : world :=
  let w1 := log (EvStdout ("Modified: " +:+ path))
              (log (EvWrite path content)
                 (set_files (<[path := File content (perm f)]> (files w)) w)) in
  let w2 := if hm then w1
            else log (EvStdout "  - Added 'custom/vpn' to modules-right") w1 in
  if hd then w2
  else log (EvStdout "  - Added custom/vpn module definition") w2.

(** The three paths of [main], once expanded. *)
Definition config_file (w : world) : string :=
  userhome w +:+ "/.config/waybar/config.jsonc".
Definition style_file (w : world) : string :=
  userhome w +:+ "/.config/waybar/style.css".
Definition script_file (w : world) : string :=
  userhome w +:+ "/.config/waybar/scripts/vpn-toggle.sh".

(** ** The patcher, over a JSON decoder *)
Section Patcher.

(** [json.loads]: the value it returns, or the exception it raises
    ([JSONDecodeError], and also [ValueError] and [RecursionError]). *)
Variable loads : text -> returned json.

(** [parse_jsonc] (lines 102-106): an exception of the decoder escapes. *)
Definition parse_jsonc (content : text) : outcome json :=
  match strip_jsonc_comments content with
  | Done stripped =>
      match loads (remove_trailing_commas stripped) with
      | Returns v => Return v
      | Raises e => Raise e
      end
  | IndexError => Raise PyIndexError
  | OutOfFuel => Raise Diverged
  end.

(** [needle in v] *)
Definition py_contains (needle : text) (v : json) : io bool :=
  match py_in needle v with
  | Some b => ret b
  | None => lift (Raise TypeError)
  end.

(** [config.get(key, [])] *)
Definition config_get (config : json) (key : text) : io json :=
  match config with
  | JObj members =>
      ret (match dict_lookup members key with
           | Some v => v
           | None => JArr []
           end)
  | _ => lift (Raise AttributeError)
  end.

(** [modify_config_jsonc] (lines 109-204) *)
Definition modify_config_jsonc (path : string) : io bool :=
  found <- os_path_exists path ;;
  if negb found then
    print_err ("ERROR: Config file not found: " +:+ path) ;;
    sys_exit 1
  else
    content <- read_file path ;;
    config <- lift (parse_jsonc content) ;;
    has_modules <- py_contains MODULES_RIGHT config ;;
    if negb has_modules then
      print_err "ERROR: 'modules-right' not found in config" ;;
      sys_exit 1
    else
      modules <- config_get config MODULES_RIGHT ;;
      has_vpn_in_modules <- py_contains CUSTOM_VPN modules ;;
      has_vpn_definition <- py_contains CUSTOM_VPN config ;;
      if has_vpn_in_modules && has_vpn_definition then
        print "config.jsonc: Already configured, skipping" ;;
        ret false
      else
        backup_path <- backup_file path ;;
        print ("Backed up: " +:+ path +:+ " -> " +:+ backup_path) ;;
        step1 <-
          (if negb has_vpn_in_modules then
             match add_module_entry content with
             | Some content' => ret (content', true)
             | None =>
                 print_err
                   "ERROR: Could not find modules-right array in config" ;;
                 sys_exit 1
             end
           else ret (content, false)) ;;
        step2 <-
          (if negb has_vpn_definition then
             match add_definition (fst step1) with
             | Some content' => ret (content', true)
             | None =>
                 print_err "ERROR: Could not find closing brace in config" ;;
                 sys_exit 1
             end
           else ret step1) ;;
        let '(content, modified) := step2 in
        (if modified then
           write_file path content ;;
           print ("Modified: " +:+ path) ;;
           (if negb has_vpn_in_modules
            then print "  - Added 'custom/vpn' to modules-right"
            else ret tt) ;;
           (if negb has_vpn_definition
            then print "  - Added custom/vpn module definition"
            else ret tt)
         else ret tt) ;;
        ret modified.

(** [modify_style_css] (lines 207-241) *)
Definition modify_style_css (path : string) : io bool :=
  found <- os_path_exists path ;;
  if negb found then
    print_err ("ERROR: Style file not found: " +:+ path) ;;
    sys_exit 1
  else
    content <- read_file path ;;
    if contains CSS_SELECTOR content then
      print "style.css: Already configured, skipping" ;;
      ret false
    else
      backup_path <- backup_file path ;;
      print ("Backed up: " +:+ path +:+ " -> " +:+ backup_path) ;;
      append_file path css_block ;;
      print ("Modified: " +:+ path) ;;
      print "  - Appended #custom-vpn styling" ;;
      ret true.

(** [create_vpn_script] (lines 265-296) *)
Definition create_vpn_script (path : string) : io bool :=
  let scripts_dir := dirname path in
  let script_content := get_vpn_script_content in
  found <- os_path_exists path ;;
  same <-
    (if found then
       existing_content <- read_file path ;;
       ret (bool_decide (existing_content = script_content))
     else ret false) ;;
  if same then
    print "vpn-toggle.sh: Already configured, skipping" ;;
    ret false
  else
    dir_found <- os_path_exists scripts_dir ;;
    (if negb dir_found then
       makedirs scripts_dir ;;
       print ("Created directory: " +:+ scripts_dir)
     else ret tt) ;;
    write_file path script_content ;;
    chmod_executable path ;;
    print ("Created: " +:+ path) ;;
    print "  - Made executable" ;;
    print "  - Lock icon: U+F033E" ;;
    print "  - Lock open icon: U+F0FC6" ;;
    ret true.

Definition CONFIG_PATH : string := "~/.config/waybar/config.jsonc".
Definition STYLE_PATH : string := "~/.config/waybar/style.css".
Definition SCRIPT_PATH : string := "~/.config/waybar/scripts/vpn-toggle.sh".

(** [main] (lines 299-318); the three flags are returned so that a run
    can be observed. *)
Definition main : io (bool * bool * bool) :=
  config_path <- expand_path CONFIG_PATH ;;
  style_path <- expand_path STYLE_PATH ;;
  script_path <- expand_path SCRIPT_PATH ;;
  print "Fixing waybar config for VPN toggle support...
" ;;
  config_modified <- modify_config_jsonc config_path ;;
  print "" ;;
  style_modified <- modify_style_css style_path ;;
  print "" ;;
  script_modified <- create_vpn_script script_path ;;
  print "" ;;
  (if config_modified || style_modified || script_modified then
     print "Done! Restart waybar to apply changes:" ;;
     print "  killall waybar && waybar &"
   else print "Nothing to do - all files already configured.") ;;
  ret (config_modified, style_modified, script_modified).

(** The two idempotency conditions of the configuration hold: in the text
    read from the file, the decoded list at modules-right holds the entry
    and the key is defined. *)
Definition config_satisfied (w : world) (path : string) : Prop :=
  exists f members items,
    files w !! path = Some f /\
    parse_jsonc (read_text f) = Return (JObj members) /\
    dict_lookup members MODULES_RIGHT = Some (JArr items) /\
    JStr CUSTOM_VPN ∈ items /\
    is_Some (dict_lookup members CUSTOM_VPN).

End Patcher.

(** The idempotency conditions of the stylesheet and of the script, on the
    text read from the file. *)
Definition style_satisfied (w : world) (path : string) : Prop :=
  exists f p q,
    files w !! path = Some f /\ read_text f = p ++ CSS_SELECTOR ++ q.

Definition script_satisfied (w : world) (path : string) : Prop :=
  exists f, files w !! path = Some f /\ read_text f = get_vpn_script_content.

(** What a run that registered the module as the text [c1] ends with:
    the definition step is applied to [c1] when the key is missing, and
    the outcome is written to the file. *)
Definition registered (run : world * outcome bool) (path : string) (f : file)
    (has_vpn_definition : bool) (c1 : list N) : Prop :=
  match (if has_vpn_definition then Some c1 else add_definition c1) with
  | Some c2 =>
      snd run = Return true /\
      files (fst run) !! path = Some (File c2 (perm f))
  | None => snd run = Exit 1%Z
  end.

(** ** Sample documents *)

Definition sample_config_path : string := "/home/u/.config/waybar/config.jsonc".
Definition sample_style_path : string := "/home/u/.config/waybar/style.css".
Definition sample_script_path : string :=
  "/home/u/.config/waybar/scripts/vpn-toggle.sh".

(** A home directory with a configuration, a stylesheet and, possibly, a
    toggle script. *)
Definition sample_world (config style : list N) (script : option (list N))
  : world :=
  World
    (let base : gmap string file :=
       <[sample_config_path := File config 420%N]>
         (<[sample_style_path := File style 420%N]> ∅) in
     match script with
     | Some s => <[sample_script_path := File s 493%N]> base
     | None => base
     end)
    {[ "/home/u/.config/waybar" ]} "/home/u" 18%N [].

(** The tray group sits in the centre modules, not in the right ones. *)
Definition tray_in_centre : list N :=
  str "{`modules-center`: [`group/tray-expander`, `clock`], `modules-right`: [`battery`]}".

Definition tray_in_right : list N :=
  str "{`modules-right`: [`group/tray-expander`, `clock`], `custom/vpn`: {}}".

Definition spaced_array : list N :=
  str "{`modules-right`: [ `clock`], `custom/vpn`: {}}".

Definition no_definition : list N := str "{`modules-right`: [`custom/vpn`]}".

Definition configured : list N :=
  str "{`modules-right`: [`custom/vpn`], `custom/vpn`: {}}".

Definition modules_as_string : list N :=
  str "{`modules-right`: `custom/vpn`, `custom/vpn`: {}}".

Definition plain_style : list N := str "* { color: red; }".

(** A text as it is stored with carriage return, line feed line ends. *)
Definition with_CRLF (s : list N) : list N :=
  flat_map (fun c => if (c =? NEWLINE)%N then [CR; NEWLINE] else [c]) s.

Definition stored_with_CRLF : list N :=
  with_CRLF (str "{`modules-right`: [`clock`],
 `custom/vpn`: {}}
").

(** ** Further definitions *)

(** The flags with which the scan leaves a mode: a comment is left outside
    any string. *)
Definition resume (m : mode) : mode :=
  match m with
  | Code ins esc => Code ins esc
  | Line | BlockOpen | Block | BlockClose => Code false false
  end.

(** A configuration whose top level is a list of bars. *)
Definition list_of_bars : list N :=
  str "[{`modules-right`: [`clock`]}]".

(** * Part II: properties *)

(** ** The model runs *)

Example strip_example :
  strip_jsonc_comments (str "{`a`: `x//y`, // c
 /* b */ `k`: 1,}") = Done (str "{`a`: `x//y`, 
  `k`: 1,}").
Proof. vm_compute. reflexivity. Qed.

Example json_loads_example :
  json_loads cpython
    (str "{`a`: [1, -2.5e3, `x\né`], `b`: {`c`: null}, `a`: true}")
  = Returns (JObj [(str "a", JBool true);
                   (str "b", JObj [(str "c", JNull)])]).
Proof. vm_compute. reflexivity. Qed.

Example json_loads_bad :
  json_loads cpython (str "[1, 2,]") = Raises JSONDecodeError.
Proof. vm_compute. reflexivity. Qed.

Example json_loads_escapes :
  json_loads cpython (str " [`\ud83d\ude00\/\ud83dx`, 0.1e+5] ")
  = Returns (JArr [JStr [128512%N; 47%N; 55357%N; 120%N];
                   JNum (str "0.1e+5")]).
Proof. vm_compute. reflexivity. Qed.

Example json_loads_syntax :
  json_loads cpython (str " [1.e1]") = Raises JSONDecodeError /\
  json_loads cpython (str "1e") = Raises JSONDecodeError /\
  json_loads cpython (str "{`a`:1,}") = Raises JSONDecodeError /\
  json_loads cpython (str "{`a` : 1 , `b`:[ ]}  x") = Raises JSONDecodeError /\
  json_loads cpython (str "{`a` : 1 , `b`:[ ]}  ")
  = Returns (JObj [(str "a", JNum (str "1")); (str "b", JArr [])]) /\
  json_loads cpython (str "`a
b`") = Raises JSONDecodeError.
Proof. vm_compute. repeat split; reflexivity. Qed.

(** The limits of the interpreter: an integer literal of 4301 digits is
    refused, also before a syntax error, one of 4300 digits and a number
    with a fraction are not; 993 nested lists are one too many. *)
Example json_loads_limits :
  json_loads cpython (repeat 49%N 4301) = Raises ValueError /\
  json_loads cpython (str "[" ++ repeat 49%N 4301 ++ str ", }")
  = Raises ValueError /\
  json_loads cpython (str "[}, " ++ repeat 49%N 4301 ++ str "]")
  = Raises JSONDecodeError /\
  json_loads cpython (repeat 49%N 4300) = Returns (JNum (repeat 49%N 4300)) /\
  json_loads cpython (repeat 49%N 4301 ++ str ".0")
  = Returns (JNum (repeat 49%N 4301 ++ str ".0")) /\
  json_loads cpython (repeat LBRACKET 993 ++ repeat RBRACKET 993)
  = Raises RecursionError /\
  json_loads cpython (repeat LBRACKET 993) = Raises RecursionError /\
  json_loads cpython (str "[[]]") = Returns (JArr [JArr []]).
Proof. vm_compute. repeat split; reflexivity. Qed.

Example universal_newlines_example :
  universal_newlines [97; CR; NEWLINE; 98; CR; 99; NEWLINE; CR; CR; NEWLINE;
                      100; CR]%N
  = [97; NEWLINE; 98; NEWLINE; 99; NEWLINE; NEWLINE; NEWLINE; 100; NEWLINE]%N.
Proof. reflexivity. Qed.

(** ** The scan and the automaton *)

Lemma take2_cons (c : N) (tl : list N) (a b : N) :
  take 2 (c :: tl) = [a; b] <-> c = a /\ exists tl', tl = b :: tl'.
Proof.
  split.
  - destruct tl as [|d tl']; simpl; intros H; inversion H; subst; eauto.
  - intros [-> [tl' ->]]. reflexivity.
Qed.

Lemma drop_lookup_cons {A} (l : list A) k c :
  l !! k = Some c -> drop k l = c :: drop (S k) l.
Proof. intros H. by apply drop_S. Qed.

Lemma skip_line_scan content : forall fuel k,
  length content - k <= fuel ->
  exists k', skip_line fuel content k = Done k' /\ k <= k' /\
    (k < length content -> k' <= length content) /\
    scan Line (drop k content) = scan (Code false false) (drop k' content).
Proof.
  induction fuel as [|fuel IH]; intros k Hfuel.
  - exists k. assert (Hk : length content <= k) by lia.
    destruct content as [|c0 content0] eqn:Hc.
    + simpl. rewrite drop_nil. split; [|split; [lia|split; [simpl; lia|done]]].
      destruct k; reflexivity.
    + simpl in *.
      replace (k <? S (length content0)) with false
        by (symmetry; apply Nat.ltb_ge; lia).
      rewrite drop_ge by (simpl; lia). repeat split; try lia. 
  - simpl. destruct (k <? length content) eqn:Hlt.
    + apply Nat.ltb_lt in Hlt.
      destruct (lookup_lt_is_Some_2 content k Hlt) as [c Hc].
      rewrite Hc. rewrite (drop_lookup_cons _ _ _ Hc).
      destruct (c =? NEWLINE)%N eqn:Hnl.
      * exists k. repeat split; try lia.
        rewrite (drop_lookup_cons _ _ _ Hc).
        apply N.eqb_eq in Hnl. subst c. reflexivity.
      * destruct (IH (S k)) as (k' & Hk' & Hle & Hbound & Hscan); [lia|].
        exists k'. rewrite Hk'. split; [done|]. split; [lia|]. split.
        -- intros _. destruct (decide (S k < length content)); [auto|].
           assert (S k = length content) by lia.
           (* skip_line at the end returns at once *)
           clear - Hk' H. destruct fuel; simpl in Hk';
             replace (S k <? length content) with false in Hk'
               by (symmetry; apply Nat.ltb_ge; lia);
             inversion Hk'; lia.
        -- simpl. rewrite Hnl. exact Hscan.
    + apply Nat.ltb_ge in Hlt. exists k. rewrite drop_ge by lia.
      repeat split; try lia. 
Qed.

Lemma scan_nil m : scan m [] = [].
Proof. by destruct m. Qed.

Lemma skip_block_scan content : forall fuel k,
  length content - k <= fuel ->
  exists k', skip_block fuel content k = Done k' /\ k <= k' /\
    scan Block (drop k content) = scan (Code false false) (drop (k' + 2) content).
Proof.
  assert (Hstop : forall k,
    (Z.of_nat k <? Z.of_nat (length content) - 1)%Z
      && negb (bool_decide (slice2 content k = [STAR; SLASH])) = false ->
    scan Block (drop k content)
    = scan (Code false false) (drop (k + 2) content)).
  { intros k Hc. apply andb_false_iff in Hc as [Hc|Hc].
    - apply Z.ltb_ge in Hc.
      rewrite (drop_ge content (k + 2)) by lia.
      destruct (drop k content) as [|c [|c2 rest]] eqn:Hd;
        [done|simpl; by case_bool_decide|].
      apply (f_equal length) in Hd. rewrite length_drop in Hd. simpl in Hd. lia.
    - apply negb_false_iff, bool_decide_eq_true in Hc. unfold slice2 in Hc.
      destruct (drop k content) as [|c rest] eqn:Hd; [done|].
      apply take2_cons in Hc as [-> [rest' ->]].
      replace (drop (k + 2) content) with (drop 2 (drop k content))
        by (rewrite drop_drop; reflexivity).
      rewrite Hd. reflexivity. }
  induction fuel as [|fuel IH]; intros k Hfuel; simpl.
  - destruct ((Z.of_nat k <? Z.of_nat (length content) - 1)%Z
              && negb (bool_decide (slice2 content k = [STAR; SLASH]))) eqn:Hc.
    + apply andb_true_iff in Hc as [Hc _]. apply Z.ltb_lt in Hc. lia.
    + exists k. auto.
  - destruct ((Z.of_nat k <? Z.of_nat (length content) - 1)%Z
              && negb (bool_decide (slice2 content k = [STAR; SLASH]))) eqn:Hc.
    + destruct (IH (S k)) as (k' & Hk' & Hle & Hscan); [lia|].
      exists k'. split; [done|]. split; [lia|]. rewrite <- Hscan.
      apply andb_true_iff in Hc as [Hlt Hne]. apply Z.ltb_lt in Hlt.
      apply negb_true_iff in Hne. unfold slice2 in Hne.
      destruct (lookup_lt_is_Some_2 content k) as [c Hl]; [lia|].
      rewrite (drop_lookup_cons _ _ _ Hl) in *. simpl scan.
      simpl take in Hne. simpl take. rewrite Hne. reflexivity.
    + exists k. auto.
Qed.

Lemma scan_Code_cons ins esc c tl :
  scan (Code ins esc) (c :: tl)
  = if esc then c :: scan (Code ins false) tl
    else if (c =? BACKSLASH)%N && ins then c :: scan (Code ins true) tl
    else if (c =? QUOTE)%N then c :: scan (Code (negb ins) false) tl
    else if ins then c :: scan (Code true false) tl
    else if bool_decide (take 2 (c :: tl) = [SLASH; SLASH]) then scan Line tl
    else if bool_decide (take 2 (c :: tl) = [SLASH; STAR])
         then scan BlockOpen tl
    else c :: scan (Code false false) tl.
Proof. reflexivity. Qed.

Lemma skip_line_mono content : forall fuel k k',
  skip_line fuel content k = Done k' -> k <= k'.
Proof.
  induction fuel as [|fuel IH]; intros k k'; simpl;
    destruct (k <? length content); try (intros [= <-]; lia);
    destruct (content !! k) as [c|]; try done;
    destruct (c =? NEWLINE)%N; try (intros [= <-]; lia); try done.
  intros H%IH. lia.
Qed.

(** One iteration of the loop is a run of the automaton. *)
Lemma loop_body_scan content st :
  i st < length content ->
  exists st', loop_body content st = Done st' /\ i st < i st' /\
    (escape_next st' = true -> in_string st' = true) /\
    exists emitted,
      result st' = result st ++ emitted /\
      scan (Code (in_string st) (escape_next st)) (drop (i st) content)
      = emitted ++ scan (Code (in_string st') (escape_next st'))
                        (drop (i st') content).
Proof.
  intros Hlt. unfold loop_body.
  destruct (lookup_lt_is_Some_2 content (i st) Hlt) as [c Hc]. rewrite Hc.
  rewrite (drop_lookup_cons _ _ _ Hc), scan_Code_cons.
  destruct (escape_next st) eqn:Hesc.
  { eexists. split; [reflexivity|]. simpl. split; [lia|]. split; [done|].
    by exists [c]. }
  destruct ((c =? BACKSLASH)%N && in_string st) eqn:Hbs.
  { eexists. split; [reflexivity|]. simpl. split; [lia|].
    apply andb_true_iff in Hbs as [Hb Hin]. split; [done|].
    by exists [c]. }
  simpl negb. rewrite andb_true_r.
  destruct (c =? QUOTE)%N eqn:Hq.
  { eexists. split; [reflexivity|]. simpl. split; [lia|]. split; [done|].
    by exists [c]. }
  destruct (in_string st) eqn:Hin.
  { eexists. split; [reflexivity|]. simpl. split; [lia|]. split; [done|].
    by exists [c]. }
  unfold slice2. rewrite (drop_lookup_cons _ _ _ Hc).
  destruct (bool_decide (take 2 (c :: drop (S (i st)) content) = [SLASH; SLASH]))
    eqn:Hline.
  { destruct (skip_line_scan content (length content) (i st))
      as (k & Hk & Hle & Hbound & Hscan); [lia|].
    rewrite Hk. simpl. eexists. split; [reflexivity|]. simpl.
    apply bool_decide_eq_true, take2_cons in Hline as [-> [tl' Htl]].
    assert (Hk2 : i st <> k).
    { intros <-. clear Hscan.
      destruct (length content) as [|n] eqn:Hlen; [lia|].
      simpl in Hk. rewrite Hlen in Hk.
      replace (i st <? S n) with true in Hk
        by (symmetry; apply Nat.ltb_lt; lia).
      rewrite Hc in Hk. simpl in Hk.
      apply skip_line_mono in Hk. lia. }
    split; [lia|]. split; [done|]. exists []. split; [by rewrite app_nil_r|].
    simpl. rewrite <- Hscan. rewrite (drop_lookup_cons _ _ _ Hc).
    reflexivity. }
  destruct (bool_decide (take 2 (c :: drop (S (i st)) content) = [SLASH; STAR]))
    eqn:Hblock.
  { destruct (skip_block_scan content (length content) (i st + 2))
      as (k & Hk & Hle & Hscan); [lia|].
    rewrite Hk. simpl. eexists. split; [reflexivity|]. simpl.
    split; [lia|]. split; [done|]. exists []. split; [by rewrite app_nil_r|].
    simpl. rewrite <- Hscan.
    apply bool_decide_eq_true, take2_cons in Hblock as [-> [tl' Htl]].
    rewrite Htl. simpl.
    replace (drop (i st + 2) content) with (drop 1 (drop (S (i st)) content))
      by (rewrite drop_drop; f_equal; lia).
    rewrite Htl. reflexivity. }
  eexists. split; [reflexivity|]. simpl. split; [lia|]. split; [done|].
  by exists [c].
Qed.

Lemma while_loop_scan content : forall fuel st,
  length content - i st <= fuel ->
  exists st', while_loop fuel content st = Done st' /\
    length content <= i st' /\
    result st' = result st
                 ++ scan (Code (in_string st) (escape_next st))
                         (drop (i st) content).
Proof.
  induction fuel as [|fuel IH]; intros st Hfuel; simpl.
  - replace (i st <? length content) with false
      by (symmetry; apply Nat.ltb_ge; lia).
    exists st. rewrite drop_ge by lia. rewrite scan_nil, app_nil_r.
    split; [done|]. split; [lia|done].
  - destruct (i st <? length content) eqn:Hlt.
    + apply Nat.ltb_lt in Hlt.
      destruct (loop_body_scan content st Hlt)
        as (st1 & Hbody & Hadv & _ & emitted & Hres & Hscan).
      rewrite Hbody. simpl.
      destruct (IH st1) as (st' & Hw & Hend & Hres'); [lia|].
      exists st'. split; [done|]. split; [done|].
      rewrite Hres', Hres, Hscan, app_assoc. reflexivity.
    + apply Nat.ltb_ge in Hlt. exists st.
      rewrite drop_ge by lia. rewrite scan_nil, app_nil_r.
      split; [done|]. split; [lia|done].
Qed.

(** The loop computes the automaton's output, on every input. *)
Lemma strip_scan content :
  strip_jsonc_comments content = Done (scan (Code false false) content).
Proof.
  unfold strip_jsonc_comments.
  destruct (while_loop_scan content (length content) scanner_init)
    as (st' & Hw & _ & Hres); [simpl; lia|].
  rewrite Hw. simpl. rewrite Hres. reflexivity.
Qed.

Lemma loop_head_scan content st :
  loop_head content st ->
  (escape_next st = true -> in_string st = true) /\
  scan (Code false false) content
  = result st ++ scan (Code (in_string st) (escape_next st))
                      (drop (i st) content).
Proof.
  induction 1 as [|st st' Hhead [IHesc IH] Hlt Hbody].
  - split; [done|]. reflexivity.
  - destruct (loop_body_scan content st Hlt)
      as (st1 & Hbody' & _ & Hesc & emitted & Hres & Hscan).
    rewrite Hbody in Hbody'. injection Hbody' as <-.
    split; [done|]. rewrite IH, Hscan, Hres, app_assoc. reflexivity.
Qed.

(** What the loop returns, seen from one of its heads. *)
Lemma strip_from_head content st :
  loop_head content st ->
  strip_jsonc_comments content
  = Done (result st ++ scan (Code (in_string st) (escape_next st))
                            (drop (i st) content)).
Proof.
  intros [_ H]%loop_head_scan. rewrite strip_scan. by f_equal.
Qed.

(** What the automaton does with strings and comments. *)

Lemma scan_string_body body tl :
  string_body body ->
  scan (Code true false) (body ++ QUOTE :: tl)
  = body ++ QUOTE :: scan (Code false false) tl.
Proof.
  induction 1 as [|c body Hq Hb _ IH|e body _ IH].
  - reflexivity.
  - simpl app. rewrite scan_Code_cons.
    apply N.eqb_neq in Hq, Hb. rewrite Hq, Hb. simpl. by rewrite IH.
  - simpl app. rewrite scan_Code_cons. simpl.
    by rewrite IH.
Qed.

Lemma scan_string body tl :
  string_body body ->
  scan (Code false false) (QUOTE :: body ++ QUOTE :: tl)
  = QUOTE :: body ++ QUOTE :: scan (Code false false) tl.
Proof.
  intros H. rewrite scan_Code_cons. simpl. by rewrite scan_string_body.
Qed.

Lemma scan_line_newline body tl :
  NEWLINE ∉ body ->
  scan Line (body ++ NEWLINE :: tl) = NEWLINE :: scan (Code false false) tl.
Proof.
  induction body as [|c body IH]; intros Hnl.
  - reflexivity.
  - apply not_elem_of_cons in Hnl as [Hc Hnl]. simpl.
    destruct (c =? NEWLINE)%N eqn:E; [apply N.eqb_eq in E; congruence|].
    by apply IH.
Qed.

Lemma scan_line_end body :
  NEWLINE ∉ body -> scan Line body = [].
Proof.
  induction body as [|c body IH]; intros Hnl.
  - reflexivity.
  - apply not_elem_of_cons in Hnl as [Hc Hnl]. simpl.
    destruct (c =? NEWLINE)%N eqn:E; [apply N.eqb_eq in E; congruence|].
    by apply IH.
Qed.

Lemma scan_line_comment body tl :
  NEWLINE ∉ body ->
  scan (Code false false) (SLASH :: SLASH :: body ++ NEWLINE :: tl)
  = NEWLINE :: scan (Code false false) tl.
Proof.
  intros H. rewrite scan_Code_cons. simpl.
  change (scan Line (body ++ NEWLINE :: tl)
          = NEWLINE :: scan (Code false false) tl).
  by apply scan_line_newline.
Qed.

Lemma strip_prefix_spec lit : forall s r,
  strip_prefix lit s = Some r <-> s = lit ++ r.
Proof.
  induction lit as [|a lit IH]; intros s r; simpl.
  - split; [by intros [= ->]|by intros ->].
  - destruct s as [|b s]; [by split|].
    destruct (a =? b)%N eqn:E.
    + apply N.eqb_eq in E as ->. rewrite IH. split; [by intros ->|by intros [= ->]].
    + apply N.eqb_neq in E. split; [done|]. intros [= -> _]. done.
Qed.

Lemma contains_spec needle : forall s,
  contains needle s = true <-> exists p q, s = p ++ needle ++ q.
Proof.
  induction s as [|c s IH]; simpl.
  - destruct (strip_prefix needle []) as [r|] eqn:E.
    + apply strip_prefix_spec in E. split; [|done]. intros _. by exists [], r.
    + split; [done|]. intros (p & q & H). 
      destruct p; simpl in H.
      * apply strip_prefix_spec in H. congruence.
      * done.
  - destruct (strip_prefix needle (c :: s)) as [r|] eqn:E.
    + apply strip_prefix_spec in E. split; [|done]. intros _. by exists [], r.
    + rewrite IH. split.
      * intros (p & q & ->). by exists (c :: p), q.
      * intros (p & q & H). destruct p as [|c' p]; simpl in H.
        -- apply strip_prefix_spec in H. congruence.
        -- injection H as -> ->. by exists p, q.
Qed.

Lemma contains_cons_false needle c s :
  contains needle (c :: s) = false ->
  strip_prefix needle (c :: s) = None /\ contains needle s = false.
Proof.
  simpl. destruct (strip_prefix needle (c :: s)); [done|]. by split.
Qed.

Lemma scan_block_close body : forall tl,
  contains [STAR; SLASH] (body ++ [STAR]) = false ->
  scan Block (body ++ STAR :: SLASH :: tl) = scan (Code false false) tl.
Proof.
  induction body as [|c body IH]; intros tl Hno.
  - reflexivity.
  - simpl app in *. apply contains_cons_false in Hno as [Hhere Hno].
    simpl scan. case_bool_decide as Hc.
    + exfalso. apply take2_cons in Hc as [-> [tl' Htl]].
      destruct body as [|b body]; simpl in Htl; [done|].
      injection Htl as -> _. done.
    + by apply IH.
Qed.

Lemma scan_block_end body :
  contains [STAR; SLASH] body = false -> scan Block body = [].
Proof.
  induction body as [|c body IH]; intros Hno.
  - reflexivity.
  - apply contains_cons_false in Hno as [Hhere Hno].
    simpl scan. case_bool_decide as Hc.
    + apply take2_cons in Hc as [-> [tl' ->]]. done.
    + by apply IH.
Qed.

Lemma scan_block_comment body tl :
  contains [STAR; SLASH] (body ++ [STAR]) = false ->
  scan (Code false false) (SLASH :: STAR :: body ++ STAR :: SLASH :: tl)
  = scan (Code false false) tl.
Proof.
  intros H. rewrite scan_Code_cons. simpl.
  change (scan Block (body ++ STAR :: SLASH :: tl)
          = scan (Code false false) tl).
  by apply scan_block_close.
Qed.

Lemma scan_block_unterminated body :
  contains [STAR; SLASH] body = false ->
  scan (Code false false) (SLASH :: STAR :: body) = [].
Proof.
  intros H. rewrite scan_Code_cons. simpl.
  change (scan Block body = []). by apply scan_block_end.
Qed.

(** The second pass. *)

Lemma take_drop_spaces s : take_spaces s ++ drop_spaces s = s.
Proof.
  induction s as [|c s IH]; simpl; [done|].
  destruct (isspace c); simpl; [by rewrite IH|done].
Qed.

Lemma take_spaces_Forall s : Forall (fun c => isspace c = true) (take_spaces s).
Proof.
  induction s as [|c s IH]; simpl; [constructor|].
  destruct (isspace c) eqn:E; [by constructor|constructor].
Qed.

Lemma drop_spaces_head s c r : drop_spaces s = c :: r -> isspace c = false.
Proof.
  induction s as [|x s IH]; simpl; [done|].
  destruct (isspace x) eqn:E; [done|]. by intros [= <- _].
Qed.

Lemma drop_spaces_length s : length (drop_spaces s) <= length s.
Proof.
  induction s as [|c s IH]; simpl; [lia|].
  destruct (isspace c); simpl; lia.
Qed.

Lemma spaces_app ws c r :
  Forall (fun c => isspace c = true) ws -> isspace c = false ->
  take_spaces (ws ++ c :: r) = ws /\ drop_spaces (ws ++ c :: r) = c :: r.
Proof.
  intros Hws Hc. induction Hws as [|x ws Hx _ IH]; simpl.
  - by rewrite Hc.
  - rewrite Hx. destruct IH as [-> ->]. done.
Qed.

Lemma isspace_comma : isspace COMMA = false.
Proof. reflexivity. Qed.

Lemma is_closer_not_comma b : is_closer b = true -> (b =? COMMA)%N = false.
Proof.
  unfold is_closer. intros [H|H]%orb_true_iff; apply N.eqb_eq in H; by subst.
Qed.

Lemma is_closer_not_space b : is_closer b = true -> isspace b = false.
Proof.
  unfold is_closer. intros [H|H]%orb_true_iff; apply N.eqb_eq in H; by subst.
Qed.

Lemma space_not_comma c : isspace c = true -> (c =? COMMA)%N = false.
Proof.
  intros H. destruct (c =? COMMA)%N eqn:E; [|done].
  apply N.eqb_eq in E. subst. done.
Qed.

Lemma drop_commas_spaces ws b rest :
  Forall (fun c => isspace c = true) ws -> is_closer b = true ->
  drop_commas (ws ++ b :: rest) = ws ++ b :: drop_commas rest.
Proof.
  intros Hws Hb. induction Hws as [|x ws Hx _ IH]; simpl.
  - by rewrite (is_closer_not_comma b Hb).
  - rewrite (space_not_comma x Hx). simpl. by rewrite IH.
Qed.

Lemma sub_trailing_commas_filter : forall fuel s,
  length s <= fuel -> sub_trailing_commas fuel s = drop_commas s.
Proof.
  induction fuel as [|fuel IH]; intros s Hlen.
  - destruct s; [done|simpl in Hlen; lia].
  - destruct s as [|c tl]; [done|].
    simpl in Hlen. unfold sub_trailing_commas; fold sub_trailing_commas.
    unfold match_trailing_comma, drop_commas; fold drop_commas.
    unfold trailing.
    destruct (c =? COMMA)%N eqn:Hc; simpl andb.
    + pose proof (take_drop_spaces tl) as Hsplit.
      pose proof (drop_spaces_length tl) as Hdl.
      destruct (drop_spaces tl) as [|b rest] eqn:Hd.
      * rewrite IH by lia. done.
      * destruct (is_closer b) eqn:Hb.
        -- rewrite IH by (simpl in Hdl; lia).
           rewrite <- Hsplit at 2.
           rewrite drop_commas_spaces; [|apply take_spaces_Forall|done].
           by rewrite <- app_assoc.
        -- rewrite IH by lia. done.
    + rewrite IH by lia. done.
Qed.

Lemma remove_trailing_commas_filter content :
  remove_trailing_commas content = drop_commas content.
Proof. by apply sub_trailing_commas_filter. Qed.

Lemma scan_sublist : forall s m, sublist (scan m s) s.
Proof.
  induction s as [|c s IH]; intros m; [destruct m; constructor|].
  destruct m as [ins esc| | | |].
  - rewrite scan_Code_cons.
    repeat match goal with
           | |- context [if ?b then _ else _] => destruct b
           end; (by apply sublist_skip) || (by apply sublist_cons).
  - simpl. destruct (c =? NEWLINE)%N;
      [by apply sublist_skip|by apply sublist_cons].
  - simpl. by apply sublist_cons.
  - simpl. case_bool_decide; by apply sublist_cons.
  - simpl. by apply sublist_cons.
Qed.

Lemma drop_commas_sublist s : sublist (drop_commas s) s.
Proof.
  induction s as [|c s IH]; simpl; [constructor|].
  destruct ((c =? COMMA)%N && trailing s);
    [by apply sublist_cons|by apply sublist_skip].
Qed.

(** ** The normalizer *)

Lemma nth_head_loop_head content : forall n st st',
  loop_head content st -> nth_head n content st = Some st' ->
  loop_head content st'.
Proof.
  induction n as [|n IH]; intros st st' Hhead; simpl.
  - by intros [= <-].
  - destruct (i st <? length content) eqn:Hlt; [|done].
    apply Nat.ltb_lt in Hlt.
    destruct (loop_body content st) as [st1| |] eqn:Hbody; try done.
    apply IH. by eapply head_next.
Qed.

(** X23.  Comment stripping, the first pass alone.  At a loop head
    outside any string:
    - a string (a quote, a body of characters and backslash pairs, a quote)
      is copied verbatim, whatever comment-like sequences its body holds,
      and the scan goes on after it;
    - a line comment is removed up to, not including, the next line feed,
      or up to the end of the input;
    - a block comment is removed up to and including the first closing
      asterisk-slash that follows its opening. *)
Theorem strip_comments_correct content st :
  loop_head content st -> in_string st = false ->
  (forall body tl,
     drop (i st) content = QUOTE :: body ++ QUOTE :: tl -> string_body body ->
     exists rest,
       strip_jsonc_comments tl = Done rest /\
       strip_jsonc_comments content
       = Done (result st ++ QUOTE :: body ++ QUOTE :: rest)) /\
  (forall body tl,
     drop (i st) content = SLASH :: SLASH :: body ++ NEWLINE :: tl ->
     NEWLINE ∉ body ->
     exists rest,
       strip_jsonc_comments tl = Done rest /\
       strip_jsonc_comments content = Done (result st ++ NEWLINE :: rest)) /\
  (forall body,
     drop (i st) content = SLASH :: SLASH :: body -> NEWLINE ∉ body ->
     strip_jsonc_comments content = Done (result st)) /\
  (forall body tl,
     drop (i st) content = SLASH :: STAR :: body ++ STAR :: SLASH :: tl ->
     contains [STAR; SLASH] (body ++ [STAR]) = false ->
     exists rest,
       strip_jsonc_comments tl = Done rest /\
       strip_jsonc_comments content = Done (result st ++ rest)).
Proof.
  intros Hhead Hin.
  pose proof (strip_from_head content st Hhead) as Hrun.
  destruct (loop_head_scan content st Hhead) as [Hesc _].
  assert (escape_next st = false) as Hesc'.
  { destruct (escape_next st); [|done]. rewrite Hesc in Hin; done. }
  rewrite Hin, Hesc' in Hrun. clear Hesc.
  repeat split.
  - intros body tl Hd Hbody. exists (scan (Code false false) tl).
    split; [apply strip_scan|]. by rewrite Hrun, Hd, scan_string.
  - intros body tl Hd Hbody. exists (scan (Code false false) tl).
    split; [apply strip_scan|]. by rewrite Hrun, Hd, scan_line_comment.
  - intros body Hd Hbody. rewrite Hrun, Hd, scan_Code_cons.
    change (Done (result st ++ scan Line (SLASH :: body)) = Done (result st)).
    rewrite scan_line_end, app_nil_r; [done|].
    apply not_elem_of_cons. split; [done|done].
  - intros body tl Hd Hbody. exists (scan (Code false false) tl).
    split; [apply strip_scan|]. by rewrite Hrun, Hd, scan_block_comment.
Qed.

Lemma strip_comments_correct_witness :
  (exists rest,
     strip_jsonc_comments (str "]") = Done rest /\
     strip_jsonc_comments (str "[`u//v/*w`]")
     = Done (str "[" ++ QUOTE :: str "u//v/*w" ++ QUOTE :: rest)) /\
  (exists rest,
     strip_jsonc_comments (str "2") = Done rest /\
     strip_jsonc_comments (str "1 // one
2") = Done (str "1 " ++ NEWLINE :: rest)).
Proof.
  split.
  - assert (Hhead : loop_head (str "[`u//v/*w`]")
                      (Scanner 1 false false (str "["))).
    { by apply (nth_head_loop_head _ 1 scanner_init); [apply head_init|]. }
    destruct (strip_comments_correct _ _ Hhead eq_refl) as (Hstring & _).
    apply (Hstring (str "u//v/*w") (str "]") eq_refl).
    repeat (apply body_char; [discriminate|discriminate|]). apply body_nil.
  - assert (Hhead : loop_head (str "1 // one
2") (Scanner 2 false false (str "1 "))).
    { by apply (nth_head_loop_head _ 2 scanner_init); [apply head_init|]. }
    destruct (strip_comments_correct _ _ Hhead eq_refl) as (_ & Hline & _).
    apply (Hline (str " one") (str "2") eq_refl).
    intros H. repeat (apply elem_of_cons in H as [H|H]; [discriminate H|]).
    by apply elem_of_nil in H.
Defined.

(** The second pass and strings: a string that holds no comma is also
    left as it is by [remove_trailing_commas], hence by both passes. *)
Lemma drop_commas_app a b :
  exists kept, drop_commas (a ++ b) = kept ++ drop_commas b /\ sublist kept a.
Proof.
  induction a as [|c a (kept & Heq & Hsub)]; simpl.
  - exists []. split; [done|constructor].
  - rewrite Heq. destruct ((c =? COMMA)%N && trailing (a ++ b)).
    + exists kept. split; [done|]. by apply sublist_cons.
    + exists (c :: kept). split; [done|]. by apply sublist_skip.
Qed.

Lemma drop_commas_no_comma body rest :
  COMMA ∉ body -> drop_commas (body ++ rest) = body ++ drop_commas rest.
Proof.
  induction body as [|c body IH]; intros Hno; [done|].
  apply not_elem_of_cons in Hno as [Hc Hno]. simpl.
  destruct (c =? COMMA)%N eqn:E; [apply N.eqb_eq in E; congruence|].
  simpl. by rewrite IH.
Qed.

Lemma normalize_keeps_string content st body tl :
  loop_head content st -> in_string st = false ->
  drop (i st) content = QUOTE :: body ++ QUOTE :: tl -> string_body body ->
  COMMA ∉ body ->
  exists before after,
    normalize content = Done (before ++ QUOTE :: body ++ QUOTE :: after) /\
    sublist before (result st) /\
    normalize tl = Done after.
Proof.
  intros Hhead Hin Hd Hbody Hno.
  pose proof (strip_from_head content st Hhead) as Hrun.
  destruct (loop_head_scan content st Hhead) as [Hesc _].
  assert (escape_next st = false) as Hesc'.
  { destruct (escape_next st); [|done]. rewrite Hesc in Hin; done. }
  rewrite Hin, Hesc', Hd, scan_string in Hrun by done.
  destruct (drop_commas_app (result st)
              (QUOTE :: body ++ QUOTE :: scan (Code false false) tl))
    as (before & Heq & Hsub).
  exists before, (drop_commas (scan (Code false false) tl)).
  split; [|split; [done|]].
  - unfold normalize. rewrite Hrun. simpl.
    rewrite remove_trailing_commas_filter, Heq. do 2 f_equal.
    change (drop_commas ([QUOTE] ++ body ++ QUOTE :: scan (Code false false) tl)
            = [QUOTE] ++ body ++ QUOTE :: drop_commas (scan (Code false false) tl)).
    rewrite (drop_commas_no_comma [QUOTE]), drop_commas_no_comma by
      (done || (apply not_elem_of_cons; split; [done|apply not_elem_of_nil])).
    reflexivity.
  - unfold normalize. rewrite strip_scan. simpl.
    by rewrite remove_trailing_commas_filter.
Qed.

(** C9.  The scan is total.  On every input the loop ends within
    [length content] iterations, with [i] at or past the end, and returns:
    no [IndexError], no exhausted bound.  An unterminated block comment
    consumes the rest of the input; a backslash, or an escaped quote, that
    ends the input inside a string is copied and the scan ends there. *)
Theorem strip_total content :
  (exists st,
     while_loop (length content) content scanner_init = Done st /\
     length content <= i st /\
     strip_jsonc_comments content = Done (result st)) /\
  (forall st, loop_head content st ->
     (in_string st = false ->
      forall body, drop (i st) content = SLASH :: STAR :: body ->
                   contains [STAR; SLASH] body = false ->
                   strip_jsonc_comments content = Done (result st)) /\
     (in_string st = true -> escape_next st = false ->
      drop (i st) content = [BACKSLASH] ->
      strip_jsonc_comments content = Done (result st ++ [BACKSLASH])) /\
     (in_string st = true -> escape_next st = false ->
      drop (i st) content = [BACKSLASH; QUOTE] ->
      strip_jsonc_comments content = Done (result st ++ [BACKSLASH; QUOTE]))).
Proof.
  split.
  - destruct (while_loop_scan content (length content) scanner_init)
      as (st & Hw & Hend & _); [simpl; lia|].
    exists st. split; [done|]. split; [done|].
    unfold strip_jsonc_comments. by rewrite Hw.
  - intros st Hhead.
    pose proof (strip_from_head content st Hhead) as Hrun.
    destruct (loop_head_scan content st Hhead) as [Hesc _].
    repeat split.
    + intros Hin body Hd Hbody.
      assert (escape_next st = false) as Hesc'.
      { destruct (escape_next st); [|done]. rewrite Hesc in Hin; done. }
      rewrite Hin, Hesc', Hd, scan_block_unterminated, app_nil_r in Hrun; done.
    + intros Hin Hesc' Hd. by rewrite Hin, Hesc', Hd in Hrun.
    + intros Hin Hesc' Hd. by rewrite Hin, Hesc', Hd in Hrun.
Qed.

Lemma strip_total_witness :
  strip_jsonc_comments (str "[1] /* open") = Done (str "[1] ") /\
  strip_jsonc_comments (QUOTE :: [BACKSLASH]) = Done (QUOTE :: [BACKSLASH]) /\
  strip_jsonc_comments (QUOTE :: [BACKSLASH; QUOTE])
  = Done (QUOTE :: [BACKSLASH; QUOTE]).
Proof.
  split; [|split].
  - assert (Hhead : loop_head (str "[1] /* open")
                      (Scanner 4 false false (str "[1] "))).
    { by apply (nth_head_loop_head _ 4 scanner_init); [apply head_init|]. }
    destruct (strip_total (str "[1] /* open")) as [_ H].
    destruct (H _ Hhead) as (Hblock & _).
    apply (Hblock eq_refl (str " open") eq_refl). reflexivity.
  - assert (Hhead : loop_head (QUOTE :: [BACKSLASH])
                      (Scanner 1 true false [QUOTE])).
    { by apply (nth_head_loop_head _ 1 scanner_init); [apply head_init|]. }
    destruct (strip_total (QUOTE :: [BACKSLASH])) as [_ H].
    destruct (H _ Hhead) as (_ & Hend & _).
    apply (Hend eq_refl eq_refl eq_refl).
  - assert (Hhead : loop_head (QUOTE :: [BACKSLASH; QUOTE])
                      (Scanner 1 true false [QUOTE])).
    { by apply (nth_head_loop_head _ 1 scanner_init); [apply head_init|]. }
    destruct (strip_total (QUOTE :: [BACKSLASH; QUOTE])) as [_ H].
    destruct (H _ Hhead) as (_ & _ & Hend).
    apply (Hend eq_refl eq_refl eq_refl).
Defined.

(** C10.  Both passes only delete: what [strip_jsonc_comments] returns is
    a subsequence of its input, what [remove_trailing_commas] returns is a
    subsequence of its input, hence [normalize content] is a subsequence of
    [content]. *)
Theorem normalize_sublist content :
  exists stripped out,
    strip_jsonc_comments content = Done stripped /\
    normalize content = Done out /\
    out = remove_trailing_commas stripped /\
    sublist stripped content /\ sublist out stripped /\ sublist out content.
Proof.
  exists (scan (Code false false) content),
         (remove_trailing_commas (scan (Code false false) content)).
  assert (H1 : sublist (scan (Code false false) content) content)
    by apply scan_sublist.
  assert (H2 : sublist (remove_trailing_commas (scan (Code false false) content))
                       (scan (Code false false) content)).
  { rewrite remove_trailing_commas_filter. apply drop_commas_sublist. }
  repeat split; try done.
  - apply strip_scan.
  - unfold normalize. by rewrite strip_scan.
  - by etrans.
Qed.

(** C1, on a document for which it fails.  The text is strict JSON, with
    no comment and no trailing comma, and the first pass leaves it as it
    is; the second pass deletes the comma inside the string, so that
    [parse_jsonc] decodes a string value that differs from the one
    [json_loads] decodes from the original text.  This is so whatever the
    limits of the interpreter, one level of nesting being allowed. *)
Theorem normalize_alters_string depth digits :
  let py := Interpreter (S depth) digits in
  json_loads py (str "{`format`: `{a,}`}")
  = Returns (JObj [(str "format", JStr (str "{a,}"))]) /\
  strip_jsonc_comments (str "{`format`: `{a,}`}")
  = Done (str "{`format`: `{a,}`}") /\
  normalize (str "{`format`: `{a,}`}") = Done (str "{`format`: `{a}`}") /\
  parse_jsonc (json_loads py) (str "{`format`: `{a,}`}")
  = Return (JObj [(str "format", JStr (str "{a}"))]).
Proof. vm_compute. repeat split; reflexivity. Qed.

(** C5, on a document for which it fails.  The string value holds the
    two-character sequence slash slash, and the first pass copies it
    verbatim, as it copies every string.  Normalization is both passes:
    the second deletes the comma that stands inside the string, before its
    closing brace, so that the string is not preserved and [parse_jsonc]
    decodes a value that differs from the one [json_loads] decodes from the
    original text.  The defect is the one of C1: the pattern of
    [remove_trailing_commas] does not know about strings. *)
Theorem normalize_alters_comment_string depth digits :
  let py := Interpreter (S depth) digits in
  let document := str "{`u`: `http://h/,}`}" in
  contains [SLASH; SLASH] (str "http://h/,}") = true /\
  json_loads py document
  = Returns (JObj [(str "u", JStr (str "http://h/,}"))]) /\
  strip_jsonc_comments document = Done document /\
  normalize document = Done (str "{`u`: `http://h/}`}") /\
  parse_jsonc (json_loads py) document
  = Return (JObj [(str "u", JStr (str "http://h/}"))]).
Proof. vm_compute. repeat split; reflexivity. Qed.

(** ** Searching for the anchors *)

Lemma re_search_from_Some m : forall s k a b,
  re_search_from m s k = Some (a, b) ->
  exists j n, a = k + j /\ b = a + n /\ j <= length s /\
    m (drop j s) = Some n /\ forall j', j' < j -> m (drop j' s) = None.
Proof.
  induction s as [|c s IH]; intros k a b; simpl.
  - destruct (m []) as [n|] eqn:E; [|done]. intros [= <- <-].
    exists 0, n. repeat split; try lia; try done.
  - destruct (m (c :: s)) as [n|] eqn:E.
    + intros [= <- <-]. exists 0, n. repeat split; try lia; try done.
    + intros H. apply IH in H as (j & n & -> & -> & Hj & Hm & Hfirst).
      exists (S j), n. repeat split; try lia; try done.
      intros [|j'] Hlt; [done|]. simpl. apply Hfirst. lia.
Qed.

Lemma re_search_from_None m : forall s k,
  re_search_from m s k = None -> forall j, m (drop j s) = None.
Proof.
  induction s as [|c s IH]; intros k; simpl.
  - destruct (m []) eqn:E; [done|]. intros _ j. by rewrite drop_nil.
  - destruct (m (c :: s)) eqn:E; [done|]. intros H [|j]; [done|].
    simpl. by eapply IH.
Qed.

Lemma re_search_found m : forall s k j n,
  m (drop j s) = Some n -> j <= length s ->
  (forall j', j' < j -> m (drop j' s) = None) ->
  re_search_from m s k = Some (k + j, k + j + n).
Proof.
  induction s as [|c s IH]; intros k j n Hm Hj Hfirst.
  - simpl in Hj. assert (j = 0) as -> by lia. simpl in *. rewrite Hm.
    do 2 f_equal; lia.
  - destruct j as [|j].
    + simpl in *. rewrite Hm. do 2 f_equal; lia.
    + simpl. pose proof (Hfirst 0 ltac:(lia)) as H0. simpl in H0. rewrite H0.
      rewrite (IH (S k) j n); [do 2 f_equal; lia|done|simpl in Hj; lia|].
      intros j' Hlt. apply (Hfirst (S j')). lia.
Qed.

Lemma re_search_first m s j n :
  m (drop j s) = Some n -> j <= length s ->
  (forall j', j' < j -> m (drop j' s) = None) ->
  re_search m s = Some (j, j + n).
Proof. intros. unfold re_search. by rewrite (re_search_found m s 0 j n). Qed.

(** The two anchors. *)

Lemma tray_pattern_spec s n :
  tray_pattern s = Some n <->
  exists ws post, s = TRAY_LITERAL ++ ws ++ COMMA :: post /\ spaces ws /\
    n = length TRAY_LITERAL + length ws + 1.
Proof.
  unfold tray_pattern. split.
  - destruct (strip_prefix TRAY_LITERAL s) as [r|] eqn:Hp; [|done].
    apply strip_prefix_spec in Hp.
    destruct (drop_spaces r) as [|c post] eqn:Hd; [done|].
    destruct (c =? COMMA)%N eqn:Hc; [|done]. intros [= <-].
    apply N.eqb_eq in Hc as ->.
    exists (take_spaces r), post. split; [|split; [apply take_spaces_Forall|done]].
    rewrite Hp. f_equal. rewrite <- Hd. symmetry. apply take_drop_spaces.
  - intros (ws & post & -> & Hws & ->).
    assert (strip_prefix TRAY_LITERAL (TRAY_LITERAL ++ ws ++ COMMA :: post)
            = Some (ws ++ COMMA :: post)) as -> by by apply strip_prefix_spec.
    destruct (spaces_app ws COMMA post Hws isspace_comma) as [-> ->].
    by rewrite N.eqb_refl.
Qed.

Lemma modules_pattern_spec s n :
  modules_pattern s = Some n <->
  exists ws1 ws2 ws3 post,
    s = MODULES_LITERAL ++ ws1 ++ COLON :: ws2 ++ LBRACKET :: ws3 ++ post /\
    spaces ws1 /\ spaces ws2 /\ spaces ws3 /\ take_spaces post = [] /\
    n = length MODULES_LITERAL + length ws1 + 1 + length ws2 + 1 + length ws3.
Proof.
  unfold modules_pattern. split.
  - destruct (strip_prefix MODULES_LITERAL s) as [r|] eqn:Hp; [|done].
    apply strip_prefix_spec in Hp.
    destruct (drop_spaces r) as [|c r2] eqn:Hd; [done|].
    destruct (c =? COLON)%N eqn:Hc; [|done]. apply N.eqb_eq in Hc as ->.
    destruct (drop_spaces r2) as [|b r3] eqn:Hd2; [done|].
    destruct (b =? LBRACKET)%N eqn:Hb; [|done]. apply N.eqb_eq in Hb as ->.
    intros [= <-].
    exists (take_spaces r), (take_spaces r2), (take_spaces r3), (drop_spaces r3).
    repeat split; try apply take_spaces_Forall.
    + rewrite Hp. f_equal. rewrite take_drop_spaces, <- Hd2, take_drop_spaces.
      rewrite <- Hd. symmetry. apply take_drop_spaces.
    + clear. induction r3 as [|x r3 IH]; simpl; [done|].
      destruct (isspace x) eqn:E; [done|]. simpl. by rewrite E.
  - intros (ws1 & ws2 & ws3 & post & -> & H1 & H2 & H3 & Hpost & ->).
    assert (strip_prefix MODULES_LITERAL
              (MODULES_LITERAL ++ ws1 ++ COLON :: ws2 ++ LBRACKET :: ws3 ++ post)
            = Some (ws1 ++ COLON :: ws2 ++ LBRACKET :: ws3 ++ post)) as ->
      by by apply strip_prefix_spec.
    destruct (spaces_app ws1 COLON (ws2 ++ LBRACKET :: ws3 ++ post) H1 eq_refl)
      as [-> ->].
    rewrite N.eqb_refl.
    destruct (spaces_app ws2 LBRACKET (ws3 ++ post) H2 eq_refl) as [-> ->].
    rewrite N.eqb_refl.
    assert (take_spaces (ws3 ++ post) = ws3) as ->; [|done].
    clear -H3 Hpost. induction H3 as [|x ws3 Hx _ IH]; simpl; [done|].
    by rewrite Hx, IH.
Qed.

Lemma starts_with_space_take s :
  starts_with_space s = false <-> take_spaces s = [].
Proof.
  destruct s as [|c s]; simpl; [done|]. destruct (isspace c); by split.
Qed.

Lemma drop_split {A} (l : list A) j s :
  drop j l = s -> j <= length l -> l = take j l ++ s /\ length (take j l) = j.
Proof.
  intros <- Hj. split; [by rewrite take_drop|]. rewrite length_take. lia.
Qed.

Lemma tray_at content pre ws post :
  tray_anchor content pre ws post ->
  tray_pattern (drop (length pre) content)
  = Some (length TRAY_LITERAL + length ws + 1).
Proof.
  intros [-> Hws]. rewrite drop_app_length. apply tray_pattern_spec. eauto.
Qed.

Lemma tray_from content j n :
  tray_pattern (drop j content) = Some n -> j <= length content ->
  exists ws post, tray_anchor content (take j content) ws post.
Proof.
  intros (ws & post & Hd & Hws & _)%tray_pattern_spec Hj.
  exists ws, post. split; [|done]. by apply drop_split in Hd as [Hd _].
Qed.

Lemma modules_at content pre ws1 ws2 ws3 post :
  modules_anchor content pre ws1 ws2 ws3 post ->
  modules_pattern (drop (length pre) content)
  = Some (length MODULES_LITERAL + length ws1 + 1 + length ws2 + 1
          + length ws3).
Proof.
  intros (-> & H1 & H2 & H3 & Hp). rewrite drop_app_length.
  apply modules_pattern_spec. exists ws1, ws2, ws3, post.
  repeat split; try done. by apply starts_with_space_take.
Qed.

Lemma modules_from content j n :
  modules_pattern (drop j content) = Some n -> j <= length content ->
  exists ws1 ws2 ws3 post,
    modules_anchor content (take j content) ws1 ws2 ws3 post.
Proof.
  intros (ws1 & ws2 & ws3 & post & Hd & H1 & H2 & H3 & Hp & _)%modules_pattern_spec Hj.
  exists ws1, ws2, ws3, post. repeat split; try done.
  - by apply drop_split in Hd as [Hd _].
  - by apply starts_with_space_take.
Qed.

Lemma pattern_nonempty_tray j content :
  length content <= j -> tray_pattern (drop j content) = None.
Proof. intros H. by rewrite drop_ge. Qed.

Lemma insert_at_app pre post ins :
  insert_at (pre ++ post) (length pre) ins = pre ++ ins ++ post.
Proof.
  unfold insert_at. by rewrite take_app_length, drop_app_length.
Qed.

(** The tray anchor wins wherever it occurs; the entry goes after the
    comma of its first occurrence. *)
Lemma add_module_entry_tray content pre ws post :
  tray_anchor content pre ws post ->
  (forall pre' ws' post',
     tray_anchor content pre' ws' post' -> length pre <= length pre') ->
  add_module_entry content
  = Some (pre ++ TRAY_LITERAL ++ ws ++ COMMA :: TRAY_INSERT ++ post).
Proof.
  intros Hat Hfirst. unfold add_module_entry.
  pose proof (tray_at _ _ _ _ Hat) as Hm.
  destruct Hat as [Hc Hws].
  rewrite (re_search_first tray_pattern content (length pre) _ Hm).
  - cbv beta iota. f_equal. rewrite Hc.
    replace (length pre + (length TRAY_LITERAL + length ws + 1))
      with (length (pre ++ TRAY_LITERAL ++ ws ++ [COMMA]))
      by (rewrite !length_app; simpl; lia).
    replace (pre ++ TRAY_LITERAL ++ ws ++ COMMA :: post)
      with ((pre ++ TRAY_LITERAL ++ ws ++ [COMMA]) ++ post)
      by (by rewrite <- !app_assoc).
    rewrite insert_at_app. rewrite <- !app_assoc. reflexivity.
  - rewrite Hc, length_app. lia.
  - intros j' Hlt. destruct (tray_pattern (drop j' content)) as [n|] eqn:E; [|done].
    assert (Hj' : j' <= length content) by (rewrite Hc, length_app; lia).
    destruct (tray_from _ _ _ E Hj') as (ws' & post' & Hat').
    apply Hfirst in Hat'. rewrite length_take in Hat'. lia.
Qed.

(** Without a tray anchor the entry goes after the opening bracket of the
    first modules-right array and the white space that follows it. *)
Lemma add_module_entry_fallback content pre ws1 ws2 ws3 post :
  (forall pre' ws' post', ~ tray_anchor content pre' ws' post') ->
  modules_anchor content pre ws1 ws2 ws3 post ->
  (forall pre' ws1' ws2' ws3' post',
     modules_anchor content pre' ws1' ws2' ws3' post' ->
     length pre <= length pre') ->
  add_module_entry content
  = Some (pre ++ MODULES_LITERAL ++ ws1 ++ COLON :: ws2 ++ LBRACKET :: ws3
              ++ MODULES_INSERT ++ post).
Proof.
  intros Hno Hat Hfirst. unfold add_module_entry.
  destruct (re_search tray_pattern content) as [[a b]|] eqn:Ht.
  { apply re_search_from_Some in Ht as (j & n & _ & _ & Hj & Hm & _).
    destruct (tray_from _ _ _ Hm Hj) as (ws' & post' & Hat'). by apply Hno in Hat'. }
  pose proof (modules_at _ _ _ _ _ _ Hat) as Hm.
  destruct Hat as (Hc & H1 & H2 & H3 & Hp).
  rewrite (re_search_first modules_pattern content (length pre) _ Hm).
  - cbv beta iota. f_equal. rewrite Hc.
    replace (length pre + (length MODULES_LITERAL + length ws1 + 1
                           + length ws2 + 1 + length ws3))
      with (length (pre ++ MODULES_LITERAL ++ ws1 ++ COLON :: ws2
                        ++ LBRACKET :: ws3))
      by (rewrite !length_app; simpl; rewrite !length_app; simpl; lia).
    replace (pre ++ MODULES_LITERAL ++ ws1 ++ COLON :: ws2
                 ++ LBRACKET :: ws3 ++ post)
      with ((pre ++ MODULES_LITERAL ++ ws1 ++ COLON :: ws2
                 ++ LBRACKET :: ws3) ++ post).
    + rewrite insert_at_app.
      rewrite <- ?app_assoc, <- ?app_comm_cons, <- ?app_assoc,
        <- ?app_comm_cons, <- ?app_assoc. reflexivity.
    + rewrite <- ?app_assoc, <- ?app_comm_cons, <- ?app_assoc,
        <- ?app_comm_cons, <- ?app_assoc. reflexivity.
  - rewrite Hc, length_app. lia.
  - intros j' Hlt.
    destruct (modules_pattern (drop j' content)) as [n|] eqn:E; [|done].
    assert (Hj' : j' <= length content) by (rewrite Hc, length_app; lia).
    destruct (modules_from _ _ _ E Hj') as (a1 & a2 & a3 & post' & Hat').
    apply Hfirst in Hat'. rewrite length_take in Hat'. lia.
Qed.

(** With neither anchor there is nothing to insert after. *)
Lemma add_module_entry_none content :
  (forall pre ws post, ~ tray_anchor content pre ws post) ->
  (forall pre ws1 ws2 ws3 post, ~ modules_anchor content pre ws1 ws2 ws3 post) ->
  add_module_entry content = None.
Proof.
  intros Hno1 Hno2. unfold add_module_entry, re_search.
  destruct (re_search_from tray_pattern content 0) as [[a b]|] eqn:Ht.
  { apply re_search_from_Some in Ht as (j & n & _ & _ & Hj & Hm & _).
    destruct (tray_from _ _ _ Hm Hj) as (ws' & post' & Hat'). by apply Hno1 in Hat'. }
  destruct (re_search_from modules_pattern content 0) as [[a b]|] eqn:Hs; [|done].
  apply re_search_from_Some in Hs as (j & n & _ & _ & Hj & Hm & _).
  destruct (modules_from _ _ _ Hm Hj) as (a1 & a2 & a3 & post' & Hat').
  by apply Hno2 in Hat'.
Qed.

(** Deciding the absence of an anchor by running the search. *)
Lemma search_tray_None content :
  re_search tray_pattern content = None ->
  forall pre ws post, ~ tray_anchor content pre ws post.
Proof.
  intros Hs pre ws post Hat. apply tray_at in Hat.
  by rewrite (re_search_from_None _ _ _ Hs) in Hat.
Qed.

Lemma search_modules_None content :
  re_search modules_pattern content = None ->
  forall pre ws1 ws2 ws3 post, ~ modules_anchor content pre ws1 ws2 ws3 post.
Proof.
  intros Hs pre ws1 ws2 ws3 post Hat. apply modules_at in Hat.
  by rewrite (re_search_from_None _ _ _ Hs) in Hat.
Qed.

(** The last closing brace and the comma before it. *)

Lemma rfind_None c s : rfind c s = None <-> c ∉ s.
Proof.
  induction s as [|x s IH]; simpl.
  - split; [intros _; apply not_elem_of_nil|done].
  - destruct (rfind c s) as [k|].
    + split; [done|]. intros Hn. exfalso.
      apply not_elem_of_cons in Hn as [_ Hn]. by apply IH in Hn.
    + destruct (x =? c)%N eqn:E.
      * apply N.eqb_eq in E as ->. split; [done|]. intros Hn.
        exfalso. apply Hn. by left.
      * apply N.eqb_neq in E. split; [|done]. intros _.
        apply not_elem_of_cons. split; [done|]. by apply IH.
Qed.

Lemma rfind_last c pre post :
  c ∉ post -> rfind c (pre ++ c :: post) = Some (length pre).
Proof.
  intros Hn. induction pre as [|x pre IH]; simpl.
  - apply rfind_None in Hn. by rewrite Hn, N.eqb_refl.
  - by rewrite IH.
Qed.

Lemma endswith_rstrip pre :
  endswith (rstrip pre) COMMA = true <-> ends_in_comma pre.
Proof.
  unfold endswith, rstrip, ends_in_comma. rewrite last_reverse. split.
  - destruct (drop_spaces (reverse pre)) as [|x r] eqn:Hd; [done|].
    simpl. intros ->%N.eqb_eq.
    exists (reverse r), (reverse (take_spaces (reverse pre))). split.
    + rewrite <- (reverse_involutive pre) at 1.
      rewrite <- (take_drop_spaces (reverse pre)) at 1.
      rewrite Hd, reverse_app, reverse_cons, <- app_assoc. reflexivity.
    + apply Forall_reverse, take_spaces_Forall.
  - intros (p & ws & -> & Hws).
    rewrite reverse_app, reverse_cons, <- app_assoc. simpl.
    destruct (spaces_app (reverse ws) COMMA (reverse p)) as [_ ->];
      [by apply Forall_reverse|done|]. reflexivity.
Qed.

Lemma add_definition_spec content pre post :
  content = pre ++ RBRACE :: post -> RBRACE ∉ post ->
  (ends_in_comma pre ->
   add_definition content
   = Some (pre ++ vpn_module ++ NEWLINE :: RBRACE :: post)) /\
  (~ ends_in_comma pre ->
   add_definition content
   = Some (pre ++ COMMA :: vpn_module ++ NEWLINE :: RBRACE :: post)).
Proof.
  intros -> Hlast. unfold add_definition, needs_comma.
  rewrite (rfind_last _ _ _ Hlast), take_app_length, drop_app_length.
  split; intros H.
  - apply endswith_rstrip in H. rewrite H. reflexivity.
  - destruct (endswith (rstrip pre) COMMA) eqn:E.
    + by apply endswith_rstrip in E.
    + reflexivity.
Qed.

Lemma add_definition_None content :
  add_definition content = None <-> RBRACE ∉ content.
Proof.
  unfold add_definition. rewrite <- rfind_None.
  destruct (rfind RBRACE content); by split.
Qed.

(** ** Line ends of the text read *)

Lemma universal_newlines_other c tl :
  c <> CR -> universal_newlines (c :: tl) = c :: universal_newlines tl.
Proof.
  intros Hc. simpl. destruct (c =? CR)%N eqn:E; [|done].
  by apply N.eqb_eq in E.
Qed.

Lemma universal_newlines_pair tl :
  universal_newlines (CR :: NEWLINE :: tl) = NEWLINE :: universal_newlines tl.
Proof. reflexivity. Qed.

Lemma universal_newlines_lone d tl :
  d <> NEWLINE ->
  universal_newlines (CR :: d :: tl) = NEWLINE :: universal_newlines (d :: tl).
Proof.
  intros Hd. change (universal_newlines (CR :: d :: tl))
    with (NEWLINE :: (if (d =? NEWLINE)%N then universal_newlines tl
                      else universal_newlines (d :: tl))).
  destruct (d =? NEWLINE)%N eqn:E; [|done]. by apply N.eqb_eq in E.
Qed.

(** Induction along the translation. *)
Lemma universal_newlines_ind (P : list N -> Prop) :
  P [] ->
  (forall c tl, c <> CR -> P tl -> P (c :: tl)) ->
  P [CR] ->
  (forall tl, P tl -> P (CR :: NEWLINE :: tl)) ->
  (forall d tl, d <> NEWLINE -> P (d :: tl) -> P (CR :: d :: tl)) ->
  forall s, P s.
Proof.
  intros Hnil Hother Hend Hpair Hlone s.
  assert (H : forall n s, length s <= n -> P s); [|by apply (H (length s))].
  clear s. induction n as [|n IH]; intros [|c s] Hlen; simpl in Hlen;
    try done; try lia.
  destruct (decide (c = CR)) as [->|Hc]; [|apply Hother; [done|apply IH; lia]].
  destruct s as [|d s]; [done|].
  destruct (decide (d = NEWLINE)) as [->|Hd].
  - apply Hpair, IH. simpl in Hlen. lia.
  - apply Hlone; [done|]. apply IH. lia.
Qed.

(** What is read holds no carriage return, and a text without one is read
    as it is: a file the script has written reads back as written. *)
Lemma universal_newlines_no_CR s : CR ∉ universal_newlines s.
Proof.
  induction s as [|c tl Hc IH| |tl IH|d tl Hd IH] using universal_newlines_ind.
  - apply not_elem_of_nil.
  - rewrite universal_newlines_other by done.
    apply not_elem_of_cons. split; [congruence|done].
  - apply not_elem_of_cons. split; [done|apply not_elem_of_nil].
  - rewrite universal_newlines_pair. apply not_elem_of_cons. by split.
  - rewrite universal_newlines_lone by done. apply not_elem_of_cons. by split.
Qed.

Lemma universal_newlines_id s : CR ∉ s -> universal_newlines s = s.
Proof.
  induction s as [|c tl IH]; [done|]. intros [Hc Htl]%not_elem_of_cons.
  rewrite universal_newlines_other by congruence. by rewrite IH.
Qed.

Lemma universal_newlines_idempotent s :
  universal_newlines (universal_newlines s) = universal_newlines s.
Proof. apply universal_newlines_id, universal_newlines_no_CR. Qed.

(** The translation goes through a concatenation unless it splits a
    carriage return from its line feed. *)
Lemma universal_newlines_app p s :
  head s <> Some NEWLINE ->
  universal_newlines (p ++ s) = universal_newlines p ++ universal_newlines s.
Proof.
  intros Hs.
  induction p as [|c tl Hc IH| |tl IH|d tl Hd IH] using universal_newlines_ind.
  - done.
  - cbn [app]. rewrite !universal_newlines_other by done. by rewrite IH.
  - destruct s as [|d s]; [done|]. cbn [app].
    rewrite universal_newlines_lone; [done|]. intros ->. by apply Hs.
  - cbn [app]. rewrite !universal_newlines_pair. by rewrite IH.
  - cbn [app]. rewrite !universal_newlines_lone by done.
    change (d :: tl ++ s) with ((d :: tl) ++ s). by rewrite IH.
Qed.

Lemma universal_newlines_prefix needle q :
  CR ∉ needle ->
  universal_newlines (needle ++ q) = needle ++ universal_newlines q.
Proof.
  induction needle as [|c tl IH]; [done|]. intros [Hc Htl]%not_elem_of_cons.
  cbn [app]. rewrite universal_newlines_other by congruence. by rewrite IH.
Qed.

(** A text without line ends that stands in the file stands in what is
    read. *)
Lemma contains_universal_newlines needle s :
  CR ∉ needle -> NEWLINE ∉ needle ->
  contains needle s = true -> contains needle (universal_newlines s) = true.
Proof.
  intros Hcr Hlf. destruct needle as [|c tl].
  { intros _. by destruct (universal_newlines s). }
  rewrite !contains_spec. intros (p & q & ->).
  exists (universal_newlines p), (universal_newlines q).
  rewrite universal_newlines_app, universal_newlines_prefix; [done|done|].
  cbn. intros [= ->]. apply Hlf, list_elem_of_here.
Qed.

Lemma read_text_written content p :
  read_text (File (universal_newlines content) p) = universal_newlines content.
Proof. apply universal_newlines_idempotent. Qed.

Lemma script_without_CR :
  universal_newlines get_vpn_script_content = get_vpn_script_content.
Proof. vm_compute. reflexivity. Qed.

Lemma selector_without_line_end :
  (CR ∉ CSS_SELECTOR) /\ (NEWLINE ∉ CSS_SELECTOR).
Proof.
  split; intros H; vm_compute in H;
    repeat (apply elem_of_cons in H as [H|H]; [discriminate H|]);
    by apply elem_of_nil in H.
Qed.

(** ** Running the operations *)

Lemma string_app_length (a b : string) :
  String.length (a +:+ b) = String.length a + String.length b.
Proof. induction a as [|x a IH]; simpl; [done|by rewrite IH]. Qed.

Lemma string_app_assoc (a b c : string) : (a +:+ b) +:+ c = a +:+ (b +:+ c).
Proof.
  induction a as [|x a IH]; [done|].
  change (String x ((a +:+ b) +:+ c) = String x (a +:+ (b +:+ c))).
  by f_equal.
Qed.

Lemma bak_ne (path : string) : path +:+ ".bak" <> path.
Proof.
  intros H. apply (f_equal String.length) in H.
  rewrite string_app_length in H. simpl in H. lia.
Qed.



Lemma io_bind_Return {A B} (m : io A) (k : A -> io B) w w' a :
  m w = (w', Return a) -> io_bind m k w = k a w'.
Proof. unfold io_bind. by intros ->. Qed.

Lemma io_bind_Exit {A B} (m : io A) (k : A -> io B) w w' status :
  m w = (w', Exit status) -> io_bind m k w = (w', Exit status).
Proof. unfold io_bind. by intros ->. Qed.

Lemma io_bind_Raise {A B} (m : io A) (k : A -> io B) w w' e :
  m w = (w', Raise e) -> io_bind m k w = (w', Raise e).
Proof. unfold io_bind. by intros ->. Qed.

Lemma exists_file w path f :
  files w !! path = Some f -> os_path_exists path w = (w, Return true).
Proof. unfold os_path_exists. intros ->. by rewrite bool_decide_true by eauto. Qed.

Lemma exists_none w path :
  files w !! path = None -> path ∉ dirs w ->
  os_path_exists path w = (w, Return false).
Proof.
  unfold os_path_exists. intros -> Hd.
  rewrite bool_decide_false by (by intros [? ?]).
  by rewrite bool_decide_false.
Qed.

Lemma read_file_Some w path f :
  files w !! path = Some f -> read_file path w = (w, Return (read_text f)).
Proof. unfold read_file. by intros ->. Qed.

Lemma backup_file_Some w path f :
  files w !! path = Some f ->
  backup_file path w
  = (log (EvCopy path (path +:+ ".bak"))
         (set_files (<[path +:+ ".bak" := f]> (files w)) w),
     Return (path +:+ ".bak")).
Proof.
  intros Hf. unfold backup_file.
  erewrite io_bind_Return; [reflexivity|]. unfold copy2. by rewrite Hf.
Qed.

Lemma write_file_Some w path f content :
  files w !! path = Some f ->
  write_file path content w
  = (log (EvWrite path content)
         (set_files (<[path := File content (perm f)]> (files w)) w),
     Return tt).
Proof. unfold write_file. by intros ->. Qed.

Lemma append_file_Some w path f content :
  files w !! path = Some f ->
  append_file path content w
  = (log (EvAppend path content)
         (set_files (<[path := File (data f ++ content) (perm f)]> (files w)) w),
     Return tt).
Proof. unfold append_file. by intros ->. Qed.

Lemma io_bind_assoc {A B C} (m : io A) (k : A -> io B) (k' : B -> io C) w :
  io_bind (io_bind m k) k' w = io_bind m (fun a => io_bind (k a) k') w.
Proof. unfold io_bind. destruct (m w) as [w' [a|status|e]]; reflexivity. Qed.

Ltac io_step :=
  cbv beta iota zeta; cbn [negb fst snd]; rewrite ?io_bind_assoc;
  first
    [ erewrite io_bind_Return by
        first [ eassumption
              | by eapply exists_file | by eapply read_file_Some
              | by eapply backup_file_Some | by eapply write_file_Some
              | by eapply append_file_Some
              | by eapply exists_none
              | reflexivity ]
    | erewrite io_bind_Exit by reflexivity
    | erewrite io_bind_Raise by reflexivity ].


Lemma untouched_refl p w : untouched p w w.
Proof. split; [done|]. exists []. by rewrite app_nil_r. Qed.

Lemma untouched_trans p w1 w2 w3 :
  untouched p w1 w2 -> untouched p w2 w3 -> untouched p w1 w3.
Proof.
  intros [Hf1 (e1 & Ht1 & He1)] [Hf2 (e2 & Ht2 & He2)]. split; [congruence|].
  exists (e1 ++ e2). rewrite Ht2, Ht1, app_assoc. split; [done|].
  by apply Forall_app.
Qed.

Lemma untouched_log p e w w' :
  ~ writes_to e p -> files w' = files w -> trace w' = trace w ++ [e] ->
  untouched p w w'.
Proof.
  intros He Hf Ht. split; [by rewrite Hf|]. exists [e]. split; [done|].
  by constructor.
Qed.

Lemma untouched_bind {A B} (m : io A) (k : A -> io B) w p :
  untouched p w (fst (m w)) ->
  (forall a w', m w = (w', Return a) -> untouched p w' (fst (k a w'))) ->
  untouched p w (fst (io_bind m k w)).
Proof.
  intros Hm Hk. unfold io_bind. destruct (m w) as [w' [a|status|e]] eqn:E;
    simpl in *; [|done|done].
  eapply untouched_trans; [exact Hm|]. by apply Hk.
Qed.

Lemma confined_bind {A B} P (m : io A) (k : A -> io B) :
  confined P m -> (forall a, confined P (k a)) -> confined P (io_bind m k).
Proof.
  intros Hm Hk w p Hp. apply untouched_bind; [by apply Hm|].
  intros a w' _. by apply Hk.
Qed.

Lemma confined_ret {A} P (a : A) : confined P (ret a).
Proof. intros w p _. apply untouched_refl. Qed.

Lemma confined_lift {A} P (o : outcome A) : confined P (lift o).
Proof. intros w p _. apply untouched_refl. Qed.

Lemma confined_sys_exit {A} P status : confined P (@sys_exit A status).
Proof. apply confined_lift. Qed.

Lemma confined_print P line : confined P (print line).
Proof.
  intros w p _. apply (untouched_log p (EvStdout line)); [simpl; tauto|done|done].
Qed.

Lemma confined_print_err P line : confined P (print_err line).
Proof.
  intros w p _. apply (untouched_log p (EvStderr line)); [simpl; tauto|done|done].
Qed.

Lemma confined_exists P path : confined P (os_path_exists path).
Proof. intros w p _. apply untouched_refl. Qed.

Lemma confined_read P path : confined P (read_file path).
Proof.
  intros w p _. unfold read_file. destruct (files w !! path); apply untouched_refl.
Qed.

Lemma untouched_insert p q e (f : file) w :
  q <> p -> ~ writes_to e p ->
  untouched p w (log e (set_files (<[q := f]> (files w)) w)).
Proof.
  intros Hne He. split; [by apply lookup_insert_ne|].
  exists [e]. split; [done|]. by constructor.
Qed.

Lemma confined_write (P : string -> Prop) path content :
  P path -> confined P (write_file path content).
Proof.
  intros HP w p Hp. assert (path <> p) by (by intros ->).
  unfold write_file. destruct (files w !! path).
  - by apply untouched_insert.
  - case_bool_decide; [apply untouched_refl|by apply untouched_insert].
Qed.

Lemma confined_append (P : string -> Prop) path content :
  P path -> confined P (append_file path content).
Proof.
  intros HP w p Hp. assert (path <> p) by (by intros ->).
  unfold append_file. destruct (files w !! path).
  - by apply untouched_insert.
  - case_bool_decide; [apply untouched_refl|by apply untouched_insert].
Qed.

Lemma confined_copy2 (P : string -> Prop) src dst :
  P dst -> confined P (copy2 src dst).
Proof.
  intros HP w p Hp. assert (dst <> p) by (by intros ->).
  unfold copy2. destruct (files w !! src).
  - by apply untouched_insert.
  - apply untouched_refl.
Qed.

Lemma confined_chmod (P : string -> Prop) path :
  P path -> confined P (chmod_executable path).
Proof.
  intros HP w p Hp. assert (path <> p) by (by intros ->).
  unfold chmod_executable. destruct (files w !! path).
  - by apply untouched_insert.
  - apply untouched_refl.
Qed.

Lemma confined_makedirs P d : confined P (makedirs d).
Proof.
  intros w p _. unfold makedirs. case_bool_decide; [apply untouched_refl|].
  apply (untouched_log p (EvMakedirs d)); [simpl; tauto|done|done].
Qed.

Lemma confined_backup (P : string -> Prop) path :
  P (path +:+ ".bak") -> confined P (backup_file path).
Proof.
  intros HP. unfold backup_file. apply confined_bind.
  - by apply confined_copy2.
  - intros _. apply confined_ret.
Qed.

Lemma confined_expand P path : confined P (expand_path path).
Proof.
  intros w p _. unfold expand_path. destruct path as [|a rest]; [apply untouched_refl|].
  destruct (_ && _); apply untouched_refl.
Qed.

Lemma confined_weaken {A} (P Q : string -> Prop) (m : io A) :
  (forall p, P p -> Q p) -> confined P m -> confined Q m.
Proof. intros HPQ Hm w p Hp. apply Hm. intros HP. by apply Hp, HPQ. Qed.

Ltac confined_tac :=
  repeat first
    [ apply confined_ret | apply confined_lift | apply confined_sys_exit
    | apply confined_print | apply confined_print_err
    | apply confined_exists | apply confined_read | apply confined_makedirs
    | apply confined_expand
    | apply confined_write; tauto | apply confined_append; tauto
    | apply confined_copy2; tauto | apply confined_chmod; tauto
    | apply confined_backup; tauto
    | apply confined_bind; [|intros ?]
    | match goal with
      | |- confined _ (if ?b then _ else _) => destruct b
      | |- confined _ (match ?x with _ => _ end) => destruct x
      end ].

Section ConfigRun.
Variable loads : list N -> returned json.

Lemma modify_config_run w path f members modules hm :
  files w !! path = Some f ->
  parse_jsonc loads (read_text f) = Return (JObj members) ->
  dict_lookup members MODULES_RIGHT = Some modules ->
  py_in CUSTOM_VPN modules = Some hm ->
  let hd := bool_decide (is_Some (dict_lookup members CUSTOM_VPN)) in
  hm && hd = false ->
  modify_config_jsonc loads path w =
    match (if hm then Some (read_text f) else add_module_entry (read_text f)) with
    | None =>
        (log (EvStderr "ERROR: Could not find modules-right array in config")
             (backed_up path f w), Exit 1%Z)
    | Some c1 =>
        match (if hd then Some c1 else add_definition c1) with
        | None =>
            (log (EvStderr "ERROR: Could not find closing brace in config")
                 (backed_up path f w), Exit 1%Z)
        | Some c2 => (written path f c2 hm hd (backed_up path f w), Return true)
        end
    end.
Proof.
  intros Hf Hparse Hmod Hin hd Hnot.
  unfold modify_config_jsonc.
  io_step. cbn [negb]. io_step.
  unfold lift at 1. rewrite Hparse. io_step.
  unfold py_contains at 1. cbn [py_in]. rewrite Hmod.
  rewrite bool_decide_true by eauto. io_step. cbn [negb].
  unfold config_get. rewrite Hmod. io_step.
  unfold py_contains at 1. rewrite Hin. io_step.
  unfold py_contains at 1. cbn [py_in]. fold hd. io_step.
  rewrite Hnot. io_step. io_step.
  fold (backed_up path f w).
  assert (Hf' : files (backed_up path f w) !! path = Some f).
  { cbn. rewrite lookup_insert_ne by apply bak_ne. done. }
  destruct hm, hd; try discriminate Hnot; cbn [negb].
  - (* only the definition is missing *)
    io_step. cbn [fst].
    destruct (add_definition (read_text f)) as [c2|].
    + repeat io_step. reflexivity.
    + repeat io_step. reflexivity.
  - (* only the entry is missing *)
    destruct (add_module_entry (read_text f)) as [c1|].
    + repeat io_step. reflexivity.
    + repeat io_step. reflexivity.
  - (* both are missing *)
    destruct (add_module_entry (read_text f)) as [c1|].
    + io_step. cbn [fst]. destruct (add_definition c1) as [c2|].
      * repeat io_step. reflexivity.
      * repeat io_step. reflexivity.
    + repeat io_step. reflexivity.
Qed.

Lemma confined_py_contains P needle v : confined P (py_contains needle v).
Proof. unfold py_contains. confined_tac. Qed.

Lemma confined_config_get P config key : confined P (config_get config key).
Proof. unfold config_get. confined_tac. Qed.

Lemma confined_modify_config path :
  confined (fun p => p = path \/ p = path +:+ ".bak")
           (modify_config_jsonc loads path).
Proof.
  unfold modify_config_jsonc.
  repeat first [ apply confined_py_contains | apply confined_config_get
               | progress confined_tac ].
Qed.

End ConfigRun.

Lemma confined_modify_style path :
  confined (fun p => p = path \/ p = path +:+ ".bak") (modify_style_css path).
Proof. unfold modify_style_css. confined_tac. Qed.

Lemma confined_create_script path :
  confined (fun p => p = path) (create_vpn_script path).
Proof. unfold create_vpn_script. confined_tac. Qed.


Lemma py_in_list needle items :
  py_in needle (JArr items) = Some true <-> JStr needle ∈ items.
Proof.
  simpl. split.
  - intros [= H]. apply existsb_exists in H as (x & Hx & Hb).
    destruct x; try done. apply bool_decide_eq_true in Hb as ->.
    by apply list_elem_of_In.
  - intros H. f_equal. apply existsb_exists. exists (JStr needle).
    split; [by apply list_elem_of_In|]. by apply bool_decide_eq_true.
Qed.

Section ConfigOutcomes.
Variable loads : list N -> returned json.

Lemma modify_config_missing_file w path :
  files w !! path = None -> path ∉ dirs w ->
  modify_config_jsonc loads path w
  = (log (EvStderr ("ERROR: Config file not found: " +:+ path)) w, Exit 1%Z).
Proof.
  intros Hf Hd. unfold modify_config_jsonc. repeat io_step. reflexivity.
Qed.

Lemma modify_config_missing_field w path f members :
  files w !! path = Some f ->
  parse_jsonc loads (read_text f) = Return (JObj members) ->
  dict_lookup members MODULES_RIGHT = None ->
  modify_config_jsonc loads path w
  = (log (EvStderr "ERROR: 'modules-right' not found in config") w, Exit 1%Z).
Proof.
  intros Hf Hparse Hmod. unfold modify_config_jsonc.
  io_step. io_step. unfold lift at 1. rewrite Hparse. io_step.
  unfold py_contains at 1. cbn [py_in]. rewrite Hmod.
  rewrite bool_decide_false by (by intros [? ?]). repeat io_step. reflexivity.
Qed.

Lemma modify_config_type_error w path f members modules :
  files w !! path = Some f ->
  parse_jsonc loads (read_text f) = Return (JObj members) ->
  dict_lookup members MODULES_RIGHT = Some modules ->
  py_in CUSTOM_VPN modules = None ->
  modify_config_jsonc loads path w = (w, Raise TypeError).
Proof.
  intros Hf Hparse Hmod Hin. unfold modify_config_jsonc.
  io_step. io_step. unfold lift at 1. rewrite Hparse. io_step.
  unfold py_contains at 1. cbn [py_in]. rewrite Hmod.
  rewrite bool_decide_true by eauto. io_step.
  unfold config_get. rewrite Hmod. io_step.
  unfold py_contains at 1. rewrite Hin. io_step. reflexivity.
Qed.

Lemma modify_config_skip w path f members modules :
  files w !! path = Some f ->
  parse_jsonc loads (read_text f) = Return (JObj members) ->
  dict_lookup members MODULES_RIGHT = Some modules ->
  py_in CUSTOM_VPN modules = Some true ->
  is_Some (dict_lookup members CUSTOM_VPN) ->
  modify_config_jsonc loads path w
  = (log (EvStdout "config.jsonc: Already configured, skipping") w,
     Return false).
Proof.
  intros Hf Hparse Hmod Hin Hdef. unfold modify_config_jsonc.
  io_step. io_step. unfold lift at 1. rewrite Hparse. io_step.
  unfold py_contains at 1. cbn [py_in]. rewrite Hmod.
  rewrite bool_decide_true by eauto. io_step.
  unfold config_get. rewrite Hmod. io_step.
  unfold py_contains at 1. rewrite Hin. io_step.
  unfold py_contains at 1. cbn [py_in].
  rewrite bool_decide_true by done. io_step. cbn [andb].
  repeat io_step. reflexivity.
Qed.

End ConfigOutcomes.

Lemma modify_style_skip w path f :
  files w !! path = Some f -> contains CSS_SELECTOR (read_text f) = true ->
  modify_style_css path w
  = (log (EvStdout "style.css: Already configured, skipping") w, Return false).
Proof.
  intros Hf Hc. unfold modify_style_css. io_step. io_step. rewrite Hc.
  repeat io_step. reflexivity.
Qed.

Lemma modify_style_run w path f :
  files w !! path = Some f -> contains CSS_SELECTOR (read_text f) = false ->
  modify_style_css path w
  = (log (EvStdout "  - Appended #custom-vpn styling")
      (log (EvStdout ("Modified: " +:+ path))
        (log (EvAppend path css_block)
          (set_files (<[path := File (data f ++ css_block) (perm f)]>
                        (<[path +:+ ".bak" := f]> (files w)))
                     (backed_up path f w)))),
     Return true).
Proof.
  intros Hf Hc. unfold modify_style_css. io_step. io_step. rewrite Hc.
  io_step. io_step. fold (backed_up path f w).
  assert (Hf' : files (backed_up path f w) !! path = Some f).
  { cbn. rewrite lookup_insert_ne by apply bak_ne. done. }
  repeat io_step. reflexivity.
Qed.

Lemma create_script_skip w path f :
  files w !! path = Some f -> read_text f = get_vpn_script_content ->
  create_vpn_script path w
  = (log (EvStdout "vpn-toggle.sh: Already configured, skipping") w,
     Return false).
Proof.
  intros Hf Hd. unfold create_vpn_script. io_step. io_step. 
  rewrite bool_decide_true by done. repeat io_step. reflexivity.
Qed.

(** ** Second runs of the stylesheet and script operations *)

Lemma css_block_selector : contains CSS_SELECTOR css_block = true.
Proof. reflexivity. Qed.

Lemma contains_app_r needle s t :
  contains needle t = true -> contains needle (s ++ t) = true.
Proof.
  rewrite !contains_spec. intros (p & q & ->). exists (s ++ p), q.
  by rewrite <- app_assoc.
Qed.

(** The stylesheet is appended to at most once. *)
Lemma style_second_run w path f :
  files w !! path = Some f ->
  snd (modify_style_css path (fst (modify_style_css path w))) = Return false.
Proof.
  intros Hf. destruct (contains CSS_SELECTOR (read_text f)) eqn:Hc.
  - rewrite (modify_style_skip w path f Hf Hc). cbn [fst].
    by rewrite (modify_style_skip _ path f).
  - rewrite (modify_style_run w path f Hf Hc). cbn [fst].
    erewrite modify_style_skip; [done|cbn; apply lookup_insert_eq|].
    apply contains_universal_newlines; try apply selector_without_line_end.
    cbn [data]. apply contains_app_r, css_block_selector.
Qed.

Lemma io_bind_inv {A B} (m : io A) (k : A -> io B) w w' b :
  io_bind m k w = (w', Return b) ->
  exists w1 a, m w = (w1, Return a) /\ k a w1 = (w', Return b).
Proof.
  unfold io_bind. destruct (m w) as [w1 [a|status|e]]; [eauto|done|done].
Qed.

Lemma print_files line w w' u :
  print line w = (w', u) -> files w' = files w.
Proof. by intros [= <- _]. Qed.

Lemma write_file_written path content w w' :
  write_file path content w = (w', Return ()) ->
  exists p, files w' !! path = Some (File content p).
Proof.
  unfold write_file. destruct (files w !! path) as [f|].
  - intros [= <-]. eexists. cbn. apply lookup_insert_eq.
  - case_bool_decide; [done|]. intros [= <-]. eexists. cbn.
    apply lookup_insert_eq.
Qed.

Lemma chmod_keeps_data path w w' f :
  files w !! path = Some f ->
  chmod_executable path w = (w', Return ()) ->
  exists p, files w' !! path = Some (File (data f) p).
Proof.
  unfold chmod_executable. intros ->. intros [= <-]. eexists. cbn.
  apply lookup_insert_eq.
Qed.

(** Once written, the script is found identical. *)
Lemma script_second_run w path w' :
  create_vpn_script path w = (w', Return true) ->
  create_vpn_script path w'
  = (log (EvStdout "vpn-toggle.sh: Already configured, skipping") w',
     Return false).
Proof.
  intros Hrun.
  assert (exists f, files w' !! path = Some f /\ data f = get_vpn_script_content)
    as (f & Hf & Hd).
  2:{ eapply create_script_skip; [done|].
      unfold read_text. rewrite Hd. apply script_without_CR. }
  unfold create_vpn_script in Hrun.
  apply io_bind_inv in Hrun as (w1 & found & _ & Hrun).
  apply io_bind_inv in Hrun as (w2 & same & _ & Hrun).
  destruct same.
  { apply io_bind_inv in Hrun as (? & ? & _ & Hrun). discriminate Hrun. }
  apply io_bind_inv in Hrun as (w3 & dir_found & _ & Hrun).
  apply io_bind_inv in Hrun as (w4 & [] & _ & Hrun).
  apply io_bind_inv in Hrun as (w5 & [] & Hwrite & Hrun).
  apply io_bind_inv in Hrun as (w6 & [] & Hchmod & Hrun).
  apply io_bind_inv in Hrun as (w7 & [] & Hp1%print_files & Hrun).
  apply io_bind_inv in Hrun as (w8 & [] & Hp2%print_files & Hrun).
  apply io_bind_inv in Hrun as (w9 & [] & Hp3%print_files & Hrun).
  apply io_bind_inv in Hrun as (w10 & [] & Hp4%print_files & Hrun).
  injection Hrun as <-.
  apply write_file_written in Hwrite as [p Hw5].
  destruct (chmod_keeps_data _ _ _ _ Hw5 Hchmod) as [p' Hw6].
  exists (File get_vpn_script_content p'). split; [|done].
  by rewrite Hp4, Hp3, Hp2, Hp1.
Qed.

(** ** A run of main *)

Lemma string_app_nonempty (a : string) c b : a +:+ String c b <> "".
Proof. by destruct a. Qed.

Lemma expand_config w : expand_path CONFIG_PATH w = (w, Return (config_file w)).
Proof.
  unfold expand_path, CONFIG_PATH, config_file. cbn [Ascii.N_of_ascii].
  change (_ && _) with true. cbv iota zeta.
  by rewrite bool_decide_false by apply string_app_nonempty.
Qed.

Lemma expand_style w : expand_path STYLE_PATH w = (w, Return (style_file w)).
Proof.
  unfold expand_path, STYLE_PATH, style_file.
  change (_ && _) with true. cbv iota zeta.
  by rewrite bool_decide_false by apply string_app_nonempty.
Qed.

Lemma expand_script w : expand_path SCRIPT_PATH w = (w, Return (script_file w)).
Proof.
  unfold expand_path, SCRIPT_PATH, script_file.
  change (_ && _) with true. cbv iota zeta.
  by rewrite bool_decide_false by apply string_app_nonempty.
Qed.

Ltac paths_ne :=
  unfold config_file, style_file, script_file;
  let H := fresh in
  intros H; rewrite ?string_app_assoc in H;
  apply (inj (String.app _)) in H; discriminate H.

Lemma confined_main_tail P (a b c : bool) :
  confined P
    (print "";;
     (if a || b || c
      then print "Done! Restart waybar to apply changes:";;
           print "  killall waybar && waybar &"
      else print "Nothing to do - all files already configured.");;
     ret (a, b, c)).
Proof. confined_tac. Qed.

Lemma confined_script_tail (P : string -> Prop) path (a b : bool) :
  P path ->
  confined P
    (print "";;
     script_modified <- create_vpn_script path;;
     print "";;
     (if a || b || script_modified
      then print "Done! Restart waybar to apply changes:";;
           print "  killall waybar && waybar &"
      else print "Nothing to do - all files already configured.");;
     ret (a, b, script_modified)).
Proof.
  intros HP. apply confined_bind; [apply confined_print|intros _].
  apply confined_bind.
  - eapply confined_weaken; [|apply confined_create_script]. by intros ? ->.
  - intros c. apply confined_main_tail.
Qed.


Section MainRun.
Variable loads : list N -> returned json.

Lemma config_satisfied_skip w path :
  config_satisfied loads w path ->
  modify_config_jsonc loads path w
  = (log (EvStdout "config.jsonc: Already configured, skipping") w,
     Return false).
Proof.
  intros (f & members & items & Hf & Hp & Hm & Hin & Hd).
  eapply modify_config_skip; try done. by apply py_in_list.
Qed.

Lemma style_satisfied_skip w path :
  style_satisfied w path ->
  modify_style_css path w
  = (log (EvStdout "style.css: Already configured, skipping") w, Return false).
Proof.
  intros (f & p & q & Hf & Hd). eapply modify_style_skip; [done|].
  apply contains_spec. eauto.
Qed.

Lemma script_satisfied_skip w path :
  script_satisfied w path ->
  create_vpn_script path w
  = (log (EvStdout "vpn-toggle.sh: Already configured, skipping") w,
     Return false).
Proof. intros (f & Hf & Hd). by eapply create_script_skip. Qed.

Lemma confined_untouched {A} (P : string -> Prop) (m : io A) w p :
  confined P m -> ~ P p -> untouched p w (fst (m w)).
Proof. intros Hm Hp. by apply Hm. Qed.

(** A confined step, after which the file [q] still holds what it held. *)
Lemma untouched_step {A B} (P : string -> Prop) (m : io A) (k : A -> io B) w p q :
  confined P m -> ~ P p -> ~ P q ->
  (forall a w', files w' !! q = files w !! q -> untouched p w' (fst (k a w'))) ->
  untouched p w (fst (io_bind m k w)).
Proof.
  intros Hm Hp Hq Hk. apply untouched_bind; [by apply Hm|].
  intros a w' E. apply Hk. destruct (Hm w q Hq) as [Hf _].
  by rewrite E in Hf.
Qed.

(** A step that only prints. *)
Lemma untouched_skip {A B} (m : io A) (k : A -> io B) w p line a :
  m w = (log (EvStdout line) w, Return a) ->
  untouched p (log (EvStdout line) w) (fst (k a (log (EvStdout line) w))) ->
  untouched p w (fst (io_bind m k w)).
Proof.
  intros E Hk. rewrite (io_bind_Return _ _ _ _ _ E).
  eapply untouched_trans; [|exact Hk].
  apply (untouched_log p (EvStdout line)); [simpl; tauto|done|done].
Qed.

Lemma satisfied_config_untouched w p :
  config_satisfied loads w (config_file w) ->
  p = config_file w \/ p = config_file w +:+ ".bak" ->
  untouched p w (fst (main loads w)).
Proof.
  intros Hsat Hp. unfold main.
  rewrite (io_bind_Return _ _ _ _ _ (expand_config w)).
  rewrite (io_bind_Return _ _ _ _ _ (expand_style w)).
  rewrite (io_bind_Return _ _ _ _ _ (expand_script w)).
  eapply untouched_skip; [reflexivity|].
  eapply untouched_skip.
  { apply config_satisfied_skip. exact Hsat. }
  apply (confined_untouched
           (fun q => q = style_file w \/ q = style_file w +:+ ".bak"
                     \/ q = script_file w)).
  - apply confined_bind; [apply confined_print|intros _].
    apply confined_bind.
    + eapply confined_weaken; [|apply confined_modify_style].
      intros q Hq; cbv beta in *; tauto.
    + intros b. apply confined_script_tail. tauto.
  - intros [Hq|[Hq|Hq]]; destruct Hp as [Hp|Hp]; rewrite Hp in Hq;
      revert Hq; paths_ne.
Qed.

Lemma satisfied_style_untouched w p :
  style_satisfied w (style_file w) ->
  p = style_file w \/ p = style_file w +:+ ".bak" ->
  untouched p w (fst (main loads w)).
Proof.
  intros Hsat Hp. unfold main.
  rewrite (io_bind_Return _ _ _ _ _ (expand_config w)).
  rewrite (io_bind_Return _ _ _ _ _ (expand_style w)).
  rewrite (io_bind_Return _ _ _ _ _ (expand_script w)).
  eapply untouched_skip; [reflexivity|].
  apply (untouched_step
           (fun q => q = config_file w \/ q = config_file w +:+ ".bak")
           _ _ _ p (style_file w)).
  - apply confined_modify_config.
  - intros [Hq|Hq]; destruct Hp as [Hp|Hp]; rewrite Hp in Hq; revert Hq; paths_ne.
  - intros [Hq|Hq]; revert Hq; paths_ne.
  - intros a w1 Hfiles.
    eapply untouched_skip; [reflexivity|].
    eapply untouched_skip.
    { apply style_satisfied_skip.
      destruct Hsat as (f & x & y & Hf & Hd). exists f, x, y. split; [|done].
      cbn. by rewrite Hfiles. }
    apply (confined_untouched (fun q => q = script_file w)).
    + by apply confined_script_tail.
    + intros Hq; destruct Hp as [Hp|Hp]; rewrite Hp in Hq; revert Hq; paths_ne.
Qed.

Lemma satisfied_script_untouched w p :
  script_satisfied w (script_file w) ->
  p = script_file w \/ p = script_file w +:+ ".bak" ->
  untouched p w (fst (main loads w)).
Proof.
  intros Hsat Hp. unfold main.
  rewrite (io_bind_Return _ _ _ _ _ (expand_config w)).
  rewrite (io_bind_Return _ _ _ _ _ (expand_style w)).
  rewrite (io_bind_Return _ _ _ _ _ (expand_script w)).
  eapply untouched_skip; [reflexivity|].
  apply (untouched_step
           (fun q => q = config_file w \/ q = config_file w +:+ ".bak")
           _ _ _ p (script_file w)).
  - apply confined_modify_config.
  - intros [Hq|Hq]; destruct Hp as [Hp|Hp]; rewrite Hp in Hq; revert Hq; paths_ne.
  - intros [Hq|Hq]; revert Hq; paths_ne.
  - intros a w1 Hfiles1.
    eapply untouched_skip; [reflexivity|].
    apply (untouched_step
             (fun q => q = style_file w \/ q = style_file w +:+ ".bak")
             _ _ _ p (script_file w)).
    + apply confined_modify_style.
    + intros [Hq|Hq]; destruct Hp as [Hp|Hp]; rewrite Hp in Hq; revert Hq;
        paths_ne.
    + intros [Hq|Hq]; revert Hq; paths_ne.
    + intros b w2 Hfiles2.
      eapply untouched_skip; [reflexivity|].
      eapply untouched_skip.
      { apply script_satisfied_skip.
        destruct Hsat as (f & Hf & Hd). exists f. split; [|done].
        cbn. rewrite Hfiles2. cbn. by rewrite Hfiles1. }
      apply (confined_untouched (fun _ => False)); [|tauto].
      apply confined_main_tail.
Qed.
End MainRun.

(** ** The patch operations and the run *)

Lemma written_file path f c hm hd w :
  files (written path f c hm hd w) !! path = Some (File c (perm f)).
Proof.
  unfold written. destruct hm, hd; cbn; apply lookup_insert_eq.
Qed.

Lemma backed_up_file path f w :
  files w !! path = Some f -> files (backed_up path f w) !! path = Some f.
Proof. intros H. cbn. by rewrite lookup_insert_ne by apply bak_ne. Qed.

Lemma backed_up_bak path f w :
  files (backed_up path f w) !! (path +:+ ".bak") = Some f.
Proof. cbn. apply lookup_insert_eq. Qed.

Lemma written_bak path f c hm hd w :
  files (written path f c hm hd w) !! (path +:+ ".bak")
  = files w !! (path +:+ ".bak").
Proof.
  unfold written. destruct hm, hd; cbn; apply lookup_insert_ne;
    intros H; symmetry in H; by apply bak_ne in H.
Qed.

Lemma written_trace path f c hm hd w :
  exists evs, trace (written path f c hm hd w) = trace w ++ evs.
Proof.
  unfold written. destruct hm, hd; cbn; rewrite <- ?app_assoc; eauto.
Qed.

Section ConfigClaims.
Variable loads : list N -> returned json.

Lemma registered_run w path f members modules c1 :
  files w !! path = Some f ->
  parse_jsonc loads (read_text f) = Return (JObj members) ->
  dict_lookup members MODULES_RIGHT = Some modules ->
  py_in CUSTOM_VPN modules = Some false ->
  add_module_entry (read_text f) = Some c1 ->
  registered (modify_config_jsonc loads path w) path f
             (bool_decide (is_Some (dict_lookup members CUSTOM_VPN))) c1.
Proof.
  intros Hf Hp Hm Hin Hc1.
  rewrite (modify_config_run loads w path f members modules false Hf Hp Hm Hin)
    by done.
  rewrite Hc1. unfold registered.
  destruct (if bool_decide _ then Some c1 else add_definition c1) as [c2|];
    [|done].
  split; [done|]. apply written_file.
Qed.

(** C3, amended.  When the decoded modules-right value does not hold the
    entry, in the text read from the file:
    - at the first occurrence of the tray anchor (the quoted literal,
      optional white space, a comma) the text a line feed, four spaces, the
      quoted entry and a comma is inserted right after that comma;
    - without a tray anchor, at the first occurrence of the array anchor
      (the quoted key, a colon, an opening bracket, with optional white
      space between them) the text made of the quoted entry, a comma, a
      line feed and four spaces is inserted after the bracket and all the
      white space that follows it;
    - with neither anchor the run ends with exit status 1, its last effect
      a diagnostic on the error stream, the file unchanged.
    In the first two cases the definition step, when it is due, is applied
    to the text so obtained, and the outcome is written to the file. *)
Theorem module_registration w path f members modules :
  files w !! path = Some f ->
  parse_jsonc loads (read_text f) = Return (JObj members) ->
  dict_lookup members MODULES_RIGHT = Some modules ->
  py_in CUSTOM_VPN modules = Some false ->
  let run := modify_config_jsonc loads path w in
  let has_vpn_definition :=
    bool_decide (is_Some (dict_lookup members CUSTOM_VPN)) in
  (forall pre ws post,
     first_tray_anchor (read_text f) pre ws post ->
     registered run path f has_vpn_definition
       (pre ++ TRAY_LITERAL ++ ws ++ COMMA :: TRAY_INSERT ++ post)) /\
  (forall pre ws1 ws2 ws3 post,
     tray_absent (read_text f) ->
     first_modules_anchor (read_text f) pre ws1 ws2 ws3 post ->
     registered run path f has_vpn_definition
       (pre ++ MODULES_LITERAL ++ ws1 ++ COLON :: ws2 ++ LBRACKET :: ws3
            ++ MODULES_INSERT ++ post)) /\
  (tray_absent (read_text f) -> modules_absent (read_text f) ->
   snd run = Exit 1%Z /\ files (fst run) !! path = Some f /\
   last (trace (fst run))
   = Some (EvStderr "ERROR: Could not find modules-right array in config")).
Proof.
  intros Hf Hp Hm Hin run hd. split; [|split].
  - intros pre ws post [Hat Hfirst].
    eapply registered_run; try done. by apply add_module_entry_tray.
  - intros pre ws1 ws2 ws3 post Hno [Hat Hfirst].
    eapply registered_run; try done. by apply add_module_entry_fallback.
  - intros Hno1 Hno2. subst run.
    rewrite (modify_config_run loads w path f members modules false Hf Hp Hm Hin)
      by done.
    rewrite (add_module_entry_none _ Hno1 Hno2).
    split; [done|]. split; [by apply backed_up_file|].
    cbn. by rewrite last_snoc.
Qed.

(** C6.  When the definition is missing, the text [c1] that the step
    receives is split at its last closing brace; the object is inserted
    before that brace with no leading comma when the text before the brace,
    trailing white space trimmed, ends in a comma, and with a leading comma
    otherwise. *)
Theorem definition_comma w path f members modules hm c1 pre post :
  files w !! path = Some f ->
  parse_jsonc loads (read_text f) = Return (JObj members) ->
  dict_lookup members MODULES_RIGHT = Some modules ->
  py_in CUSTOM_VPN modules = Some hm ->
  dict_lookup members CUSTOM_VPN = None ->
  (if hm then Some (read_text f) else add_module_entry (read_text f)) = Some c1 ->
  c1 = pre ++ RBRACE :: post -> RBRACE ∉ post ->
  let run := modify_config_jsonc loads path w in
  snd run = Return true /\
  (ends_in_comma pre ->
   files (fst run) !! path
   = Some (File (pre ++ vpn_module ++ NEWLINE :: RBRACE :: post) (perm f))) /\
  (~ ends_in_comma pre ->
   files (fst run) !! path
   = Some (File (pre ++ COMMA :: vpn_module ++ NEWLINE :: RBRACE :: post)
                (perm f))).
Proof.
  intros Hf Hp Hm Hin Hdef Hc1 Hsplit Hlast run. subst run.
  assert (Hd : bool_decide (is_Some (dict_lookup members CUSTOM_VPN)) = false).
  { apply bool_decide_eq_false. rewrite Hdef. by intros [? ?]. }
  rewrite (modify_config_run loads w path f members modules hm Hf Hp Hm Hin)
    by (rewrite Hd; apply andb_false_r).
  rewrite Hc1, Hd.
  destruct (add_definition_spec c1 pre post Hsplit Hlast) as [Hyes Hno].
  destruct (add_definition c1) as [c2|] eqn:Hc2.
  - split; [done|]. split; intros Hcomma.
    + apply Hyes in Hcomma as [= ->]. apply written_file.
    + apply Hno in Hcomma as [= ->]. apply written_file.
  - exfalso. apply add_definition_None in Hc2. apply Hc2. rewrite Hsplit.
    apply elem_of_app. right. by left.
Qed.

(** C7, amended.  Module registration and stylesheet append, once they
    have determined that a change is needed, copy the file to its .bak
    sibling as their first effect, before anything is written, and the copy
    holds the prior content when they end.  Script materialization never
    writes the .bak sibling of the script. *)
Theorem backup_before_write w path f :
  files w !! path = Some f ->
  (forall members modules hm,
     parse_jsonc loads (read_text f) = Return (JObj members) ->
     dict_lookup members MODULES_RIGHT = Some modules ->
     py_in CUSTOM_VPN modules = Some hm ->
     hm && bool_decide (is_Some (dict_lookup members CUSTOM_VPN)) = false ->
     let w' := fst (modify_config_jsonc loads path w) in
     files w' !! (path +:+ ".bak") = Some f /\
     exists evs, trace w' = trace w ++ EvCopy path (path +:+ ".bak") :: evs) /\
  (contains CSS_SELECTOR (read_text f) = false ->
   let w' := fst (modify_style_css path w) in
   files w' !! (path +:+ ".bak") = Some f /\
   files w' !! path = Some (File (data f ++ css_block) (perm f)) /\
   exists evs, trace w' = trace w ++ EvCopy path (path +:+ ".bak") :: evs) /\
  untouched (path +:+ ".bak") w (fst (create_vpn_script path w)).
Proof.
  intros Hf. split; [|split].
  1: intros members modules hm Hp Hm Hin Hnot; split.
  3: intros Hc; split; [|split].
  - rewrite (modify_config_run loads w path f members modules hm Hf Hp Hm Hin Hnot).
    destruct (if hm then _ else _) as [c1|]; [|apply backed_up_bak].
    destruct (if bool_decide _ then _ else _) as [c2|]; [|apply backed_up_bak].
    cbn [fst]. rewrite written_bak. apply backed_up_bak.
  - rewrite (modify_config_run loads w path f members modules hm Hf Hp Hm Hin Hnot).
    destruct (if hm then _ else _) as [c1|]; [|cbn; rewrite <- !app_assoc; eauto].
    destruct (if bool_decide _ then _ else _) as [c2|];
      [|cbn; rewrite <- !app_assoc; eauto].
    cbn [fst].
    destruct (written_trace path f c2 hm
                (bool_decide (is_Some (dict_lookup members CUSTOM_VPN)))
                (backed_up path f w)) as [evs ->].
    cbn. rewrite <- !app_assoc. eauto.
  - rewrite (modify_style_run w path f Hf Hc). cbn.
    rewrite lookup_insert_ne by (intros E; symmetry in E; by apply bak_ne in E).
    apply lookup_insert_eq.
  - rewrite (modify_style_run w path f Hf Hc). cbn. apply lookup_insert_eq.
  - rewrite (modify_style_run w path f Hf Hc). cbn. rewrite <- !app_assoc. eauto.
  - apply (confined_create_script path). apply bak_ne.
Qed.

(** C4, amended.  Module registration ends with exit status 1 when the
    configuration file is absent, and when the decoded object has no
    modules-right key.  The shape of the value at that key is not checked:
    a value the membership test rejects (a number, a boolean, null) lets a
    [TypeError] escape, and any value in which the membership test finds
    the entry, list or not, is accepted. *)
Theorem missing_file_or_field w path :
  (files w !! path = None -> path ∉ dirs w ->
   modify_config_jsonc loads path w
   = (log (EvStderr ("ERROR: Config file not found: " +:+ path)) w, Exit 1%Z)) /\
  (forall f members,
     files w !! path = Some f ->
     parse_jsonc loads (read_text f) = Return (JObj members) ->
     dict_lookup members MODULES_RIGHT = None ->
     modify_config_jsonc loads path w
     = (log (EvStderr "ERROR: 'modules-right' not found in config") w,
        Exit 1%Z)) /\
  (forall f members modules,
     files w !! path = Some f ->
     parse_jsonc loads (read_text f) = Return (JObj members) ->
     dict_lookup members MODULES_RIGHT = Some modules ->
     (py_in CUSTOM_VPN modules = None ->
      modify_config_jsonc loads path w = (w, Raise TypeError)) /\
     (py_in CUSTOM_VPN modules = Some true ->
      is_Some (dict_lookup members CUSTOM_VPN) ->
      modify_config_jsonc loads path w
      = (log (EvStdout "config.jsonc: Already configured, skipping") w,
         Return false))).
Proof.
  split; [|split].
  - apply modify_config_missing_file.
  - intros f members. apply modify_config_missing_field.
  - intros f members modules Hf Hp Hm. split.
    + by eapply modify_config_type_error.
    + by eapply modify_config_skip.
Qed.

(** C8.  In a run of [main], a target whose idempotency conditions hold at
    the start is left alone, and so is its .bak sibling: no event of the
    run writes either file and both hold at the end what they held at the
    start. *)
Theorem satisfied_untouched w :
  let w' := fst (main loads w) in
  (config_satisfied loads w (config_file w) ->
   untouched (config_file w) w w' /\
   untouched (config_file w +:+ ".bak") w w') /\
  (style_satisfied w (style_file w) ->
   untouched (style_file w) w w' /\
   untouched (style_file w +:+ ".bak") w w') /\
  (script_satisfied w (script_file w) ->
   untouched (script_file w) w w' /\
   untouched (script_file w +:+ ".bak") w w').
Proof.
  intros w'. split; [|split]; intros Hsat; split.
  - apply satisfied_config_untouched; auto.
  - apply satisfied_config_untouched; auto.
  - apply satisfied_style_untouched; auto.
  - apply satisfied_style_untouched; auto.
  - apply satisfied_script_untouched; auto.
  - apply satisfied_script_untouched; auto.
Qed.

End ConfigClaims.

(** ** On sample documents *)

Lemma tray_first_by_search content k e :
  re_search tray_pattern content = Some (k, e) ->
  forall pre ws post, tray_anchor content pre ws post -> k <= length pre.
Proof.
  intros Hs pre ws post Hat.
  apply re_search_from_Some in Hs as (j & n & -> & _ & _ & _ & Hfirst).
  apply tray_at in Hat.
  destruct (decide (length pre < j)) as [Hlt|]; [|lia].
  by rewrite (Hfirst _ Hlt) in Hat.
Qed.

Lemma module_registration_witness :
  let run := modify_config_jsonc (json_loads cpython) sample_config_path
               (sample_world tray_in_right plain_style None) in
  snd run = Return true /\
  files (fst run) !! sample_config_path
  = Some (File (str "{`modules-right`: [`group/tray-expander`,
    `custom/vpn`, `clock`], `custom/vpn`: {}}") 420%N).
Proof.
  assert (Hfirst : first_tray_anchor tray_in_right (str "{`modules-right`: [")
                     [] (str " `clock`], `custom/vpn`: {}}")).
  { split; [split; [reflexivity|constructor]|].
    apply (tray_first_by_search tray_in_right 19 41). reflexivity. }
  destruct (module_registration (json_loads cpython)
              (sample_world tray_in_right plain_style None) sample_config_path
              (File tray_in_right 420%N)
              [(MODULES_RIGHT,
                JArr [JStr (str "group/tray-expander"); JStr (str "clock")]);
               (CUSTOM_VPN, JObj [])]
              (JArr [JStr (str "group/tray-expander"); JStr (str "clock")])
              eq_refl eq_refl eq_refl eq_refl) as [Htray _].
  exact (Htray _ _ _ Hfirst).
Defined.

(** C3 as stated fails: with no tray anchor and a space after the opening
    bracket, what follows the bracket in the patched file is not the quoted
    entry. *)
Lemma entry_after_white_space :
  let run := modify_config_jsonc (json_loads cpython) sample_config_path
               (sample_world spaced_array plain_style None) in
  re_search tray_pattern spaced_array = None /\
  spaced_array = str "{`modules-right`: [" ++ str " `clock`], `custom/vpn`: {}}" /\
  snd run = Return true /\
  exists c,
    data <$> files (fst run) !! sample_config_path = Some c /\
    ~ exists rest, c = str "{`modules-right`: [" ++ str "`custom/vpn`," ++ rest.
Proof.
  split; [reflexivity|]. split; [reflexivity|]. split; [reflexivity|].
  eexists. split; [vm_compute; reflexivity|].
  intros [rest H]. apply (f_equal (take 20)) in H. vm_compute in H.
  discriminate H.
Qed.

Lemma definition_comma_witness :
  let run := modify_config_jsonc (json_loads cpython) sample_config_path
               (sample_world no_definition plain_style None) in
  snd run = Return true /\
  files (fst run) !! sample_config_path
  = Some (File (str "{`modules-right`: [`custom/vpn`]" ++ COMMA :: vpn_module
                    ++ NEWLINE :: [RBRACE]) 420%N).
Proof.
  assert (Hlast : RBRACE ∉ ([] : list N)) by apply not_elem_of_nil.
  assert (Hcomma : ~ ends_in_comma (str "{`modules-right`: [`custom/vpn`]")).
  { intros H. by apply endswith_rstrip in H. }
  destruct (definition_comma (json_loads cpython)
              (sample_world no_definition plain_style None) sample_config_path
              (File no_definition 420%N)
              [(MODULES_RIGHT, JArr [JStr CUSTOM_VPN])]
              (JArr [JStr CUSTOM_VPN]) true no_definition
              (str "{`modules-right`: [`custom/vpn`]") []
              eq_refl eq_refl eq_refl eq_refl eq_refl eq_refl eq_refl Hlast)
    as (Hret & _ & Hno).
  split; [exact Hret|]. exact (Hno Hcomma).
Defined.

Lemma backup_before_write_witness :
  files (fst (modify_style_css sample_style_path
                (sample_world configured plain_style None)))
    !! (sample_style_path +:+ ".bak")
  = Some (File plain_style 420%N).
Proof.
  destruct (backup_before_write (json_loads cpython)
              (sample_world configured plain_style None) sample_style_path
              (File plain_style 420%N) eq_refl) as (_ & Hstyle & _).
  destruct (Hstyle eq_refl) as (Hbak & _). exact Hbak.
Defined.

(** C7 as stated fails for the script: it is rewritten, a change being
    needed, and no copy of what it held is made. *)
Lemma script_without_backup :
  let w := sample_world configured plain_style (Some (str "#!/bin/sh")) in
  let run := create_vpn_script sample_script_path w in
  snd run = Return true /\
  data <$> files (fst run) !! sample_script_path = Some get_vpn_script_content /\
  files (fst run) !! (sample_script_path +:+ ".bak") = None /\
  Forall (fun e => forall src dst, e <> EvCopy src dst) (trace (fst run)).
Proof.
  split; [reflexivity|]. split; [vm_compute; reflexivity|].
  split; [vm_compute; reflexivity|].
  vm_compute. repeat constructor; discriminate.
Qed.

Lemma missing_file_or_field_witness :
  exit_status
    (snd (modify_config_jsonc (json_loads cpython) sample_config_path
            (World ∅ ∅ "/home/u" 18%N []))) = 1%Z.
Proof.
  destruct (missing_file_or_field (json_loads cpython)
              (World ∅ ∅ "/home/u" 18%N []) sample_config_path) as [Hfile _].
  rewrite (Hfile eq_refl (not_elem_of_empty (C := gset string) _)).
  reflexivity.
Defined.

(** C4 as stated fails: the value at modules-right is a string, not a
    list, and the run ends normally, reporting that nothing is to be done. *)
Lemma string_modules_accepted :
  let w := sample_world modules_as_string plain_style None in
  parse_jsonc (json_loads cpython) modules_as_string
  = Return (JObj [(MODULES_RIGHT, JStr CUSTOM_VPN); (CUSTOM_VPN, JObj [])]) /\
  modify_config_jsonc (json_loads cpython) sample_config_path w
  = (log (EvStdout "config.jsonc: Already configured, skipping") w,
     Return false) /\
  exit_status
    (snd (modify_config_jsonc (json_loads cpython) sample_config_path w))
  = 0%Z.
Proof. vm_compute. repeat split. Qed.

Lemma satisfied_untouched_witness :
  let w := sample_world configured plain_style None in
  untouched sample_config_path w (fst (main (json_loads cpython) w)) /\
  untouched (sample_config_path +:+ ".bak") w
    (fst (main (json_loads cpython) w)).
Proof.
  intros w.
  destruct (satisfied_untouched (json_loads cpython) w) as [Hconfig _].
  apply Hconfig.
  exists (File configured 420%N),
         [(MODULES_RIGHT, JArr [JStr CUSTOM_VPN]); (CUSTOM_VPN, JObj [])],
         [JStr CUSTOM_VPN].
  split; [reflexivity|]. split; [reflexivity|]. split; [reflexivity|].
  split; [apply list_elem_of_here|]. by eexists.
Defined.

(** C2, on files for which it fails.  The tray group is listed in the
    centre modules: the first run inserts the entry there, the second run
    still finds the modules-right list without it, overwrites the backup
    with the patched file, inserts the entry again and reports a change. *)
Theorem second_run_modifies_config :
  let w0 := sample_world tray_in_centre plain_style None in
  let first := main (json_loads cpython) w0 in
  let second := main (json_loads cpython) (fst first) in
  snd first = Return (true, true, true) /\
  snd second = Return (true, false, false) /\
  data <$> files (fst first) !! sample_config_path
  = Some (str "{`modules-center`: [`group/tray-expander`,
    `custom/vpn`, `clock`], `modules-right`: [`battery`]," ++ vpn_module
          ++ NEWLINE :: [RBRACE]) /\
  data <$> files (fst second) !! sample_config_path
  = Some (str "{`modules-center`: [`group/tray-expander`,
    `custom/vpn`,
    `custom/vpn`, `clock`], `modules-right`: [`battery`]," ++ vpn_module
          ++ NEWLINE :: [RBRACE]) /\
  data <$> files (fst first) !! (sample_config_path +:+ ".bak")
  = Some tray_in_centre /\
  files (fst second) !! (sample_config_path +:+ ".bak")
  = files (fst first) !! sample_config_path /\
  EvCopy sample_config_path (sample_config_path +:+ ".bak")
    ∈ drop (length (trace (fst first))) (trace (fst second)).
Proof.
  vm_compute. repeat split. apply list_elem_of_further, list_elem_of_here.
Qed.

(** * Further properties

    ** The comment scan *)

Lemma scan_head c tl :
  c <> SLASH -> exists m, scan (Code false false) (c :: tl) = c :: scan m tl.
Proof.
  intros Hc. rewrite scan_Code_cons. simpl andb. cbv iota.
  rewrite andb_false_r.
  destruct (c =? QUOTE)%N; [eauto|].
  rewrite !bool_decide_false; [eauto| |].
  - intros [? _]%take2_cons. done.
  - intros [? _]%take2_cons. done.
Qed.

Lemma scan_slash_kept tl :
  bool_decide (take 2 (SLASH :: tl) = [SLASH; SLASH]) = false ->
  bool_decide (take 2 (SLASH :: tl) = [SLASH; STAR]) = false ->
  forall x, take 2 (SLASH :: scan (Code false false) tl) <> [SLASH; x] \/
            (x <> SLASH /\ x <> STAR).
Proof.
  intros H1 H2 x.
  apply bool_decide_eq_false in H1, H2.
  destruct (decide (x = SLASH)) as [->|Hx1].
  { left. intros [_ [r Hr]]%take2_cons.
    destruct tl as [|c2 tl']; [done|].
    destruct (decide (c2 = SLASH)) as [->|Hc2].
    - apply H1. reflexivity.
    - destruct (scan_head c2 tl' Hc2) as [m Hm]. rewrite Hm in Hr.
      congruence. }
  destruct (decide (x = STAR)) as [->|Hx2]; [|by right].
  left. intros [_ [r Hr]]%take2_cons.
  destruct tl as [|c2 tl']; [done|].
  destruct (decide (c2 = SLASH)) as [->|Hc2].
  - apply H1. reflexivity.
  - destruct (scan_head c2 tl' Hc2) as [m Hm]. rewrite Hm in Hr.
    injection Hr as -> _. apply H2. reflexivity.
Qed.

Lemma scan_resume : forall s m, scan (resume m) (scan m s) = scan m s.
Proof.
  induction s as [|c tl IH]; intros m.
  { rewrite (scan_nil m). apply scan_nil. }
  destruct m as [ins esc| | | |].
  - cbn [resume]. rewrite scan_Code_cons.
    destruct esc.
    { rewrite scan_Code_cons. f_equal. apply (IH (Code ins false)). }
    destruct ((c =? BACKSLASH)%N && ins) eqn:Hbs.
    { rewrite scan_Code_cons, Hbs. f_equal. apply (IH (Code ins true)). }
    destruct (c =? QUOTE)%N eqn:Hq.
    { rewrite scan_Code_cons, Hbs, Hq. f_equal.
      apply (IH (Code (negb ins) false)). }
    destruct ins.
    { rewrite scan_Code_cons, Hbs, Hq. f_equal. apply (IH (Code true false)). }
    destruct (bool_decide (take 2 (c :: tl) = [SLASH; SLASH])) eqn:H1.
    { apply (IH Line). }
    destruct (bool_decide (take 2 (c :: tl) = [SLASH; STAR])) eqn:H2.
    { apply (IH BlockOpen). }
    rewrite scan_Code_cons, Hbs, Hq.
    assert (Hno : forall x,
              take 2 (c :: scan (Code false false) tl) <> [SLASH; x] \/
              (x <> SLASH /\ x <> STAR)).
    { intros x. destruct (decide (c = SLASH)) as [->|Hc].
      - by apply scan_slash_kept.
      - left. intros [? _]%take2_cons. done. }
    rewrite !bool_decide_false.
    + f_equal. apply (IH (Code false false)).
    + intros E. destruct (Hno STAR) as [Hn|[_ Hn]]; done.
    + intros E. destruct (Hno SLASH) as [Hn|[Hn _]]; done.
  - cbn [resume].
    change (scan Line (c :: tl))
      with (if (c =? NEWLINE)%N then c :: scan (Code false false) tl
            else scan Line tl).
    destruct (c =? NEWLINE)%N eqn:Hnl; [|apply (IH Line)].
    apply N.eqb_eq in Hnl as ->. rewrite scan_Code_cons. simpl.
    f_equal. apply (IH (Code false false)).
  - apply (IH Block).
  - cbn [resume].
    change (scan Block (c :: tl))
      with (if bool_decide (take 2 (c :: tl) = [STAR; SLASH])
            then scan BlockClose tl else scan Block tl).
    case_bool_decide; [apply (IH BlockClose)|apply (IH Block)].
  - apply (IH (Code false false)).
Qed.

Lemma scan_idempotent content :
  scan (Code false false) (scan (Code false false) content)
  = scan (Code false false) content.
Proof. apply (scan_resume content (Code false false)). Qed.

Lemma scan_no_slash : forall s ins esc,
  SLASH ∉ s -> scan (Code ins esc) s = s.
Proof.
  induction s as [|c tl IH]; intros ins esc Hno; [done|].
  apply not_elem_of_cons in Hno as [Hc Hno].
  rewrite scan_Code_cons.
  rewrite !(bool_decide_false (take 2 (c :: tl) = _))
    by (intros [? _]%take2_cons; done).
  repeat match goal with
         | |- context [if ?b then _ else _] => destruct b
         end; f_equal; by apply IH.
Qed.

Lemma scan_in_string : forall s esc,
  QUOTE ∉ s -> scan (Code true esc) s = s.
Proof.
  induction s as [|c tl IH]; intros esc Hno; [done|].
  apply not_elem_of_cons in Hno as [Hc Hno].
  rewrite scan_Code_cons.
  assert (Hq : (c =? QUOTE)%N = false) by (apply N.eqb_neq; congruence).
  rewrite Hq.
  destruct esc; [f_equal; by apply IH|].
  destruct ((c =? BACKSLASH)%N && true); f_equal; by apply IH.
Qed.

(** X1.  Comment stripping is idempotent: stripping the text that
    [strip_jsonc_comments] returned gives that text again, on every
    input. *)
Theorem strip_idempotent content :
  run_bind (strip_jsonc_comments content) strip_jsonc_comments
  = strip_jsonc_comments content.
Proof.
  rewrite strip_scan. simpl. rewrite strip_scan. f_equal.
  apply scan_idempotent.
Qed.

(** X2.  A text that holds no slash is returned as it is by
    [strip_jsonc_comments]: only a slash can start a deletion. *)
Theorem strip_without_slash content :
  SLASH ∉ content -> strip_jsonc_comments content = Done content.
Proof. intros Hno. rewrite strip_scan. f_equal. by apply scan_no_slash. Qed.

Lemma strip_without_slash_witness :
  strip_jsonc_comments (str "{`a`: [1, 2,], `b\``: null}")
  = Done (str "{`a`: [1, 2,], `b\``: null}").
Proof.
  apply strip_without_slash. intros H.
  repeat (apply elem_of_cons in H as [H|H]; [discriminate H|]).
  by apply elem_of_nil in H.
Defined.

(** X3.  An unterminated string switches comment stripping off: from a
    loop head inside a string, when no quote follows, the rest of the input
    is copied as it is, comment markers included. *)
Theorem unterminated_string_copied content st :
  loop_head content st -> in_string st = true ->
  QUOTE ∉ drop (i st) content ->
  strip_jsonc_comments content = Done (result st ++ drop (i st) content).
Proof.
  intros Hhead Hin Hno. rewrite (strip_from_head content st Hhead), Hin.
  by rewrite scan_in_string.
Qed.

Lemma unterminated_string_copied_witness :
  strip_jsonc_comments (str "[`a, // b
 /* c */ ]")
  = Done (str "[`" ++ str "a, // b
 /* c */ ]").
Proof.
  assert (Hhead : loop_head (str "[`a, // b
 /* c */ ]") (Scanner 2 true false (str "[`"))).
  { by apply (nth_head_loop_head _ 2 scanner_init); [apply head_init|]. }
  apply (unterminated_string_copied _ _ Hhead eq_refl).
  intros H. vm_compute in H.
  repeat (apply elem_of_cons in H as [H|H]; [discriminate H|]).
  by apply elem_of_nil in H.
Defined.

(** ** The trailing commas *)

Lemma trailing_closer ws b rest :
  spaces ws -> is_closer b = true -> trailing (ws ++ b :: rest) = true.
Proof.
  intros Hws Hb. unfold trailing.
  destruct (spaces_app ws b rest) as [_ ->];
    [done|by apply is_closer_not_space|done].
Qed.

Lemma trailing_other ws rest :
  spaces ws ->
  match rest with
  | [] => True
  | c :: _ => isspace c = false /\ is_closer c = false
  end ->
  trailing (ws ++ rest) = false.
Proof.
  intros Hws Hrest. unfold trailing. destruct rest as [|c r].
  - rewrite app_nil_r. clear Hrest.
    induction Hws as [|x ws Hx _ IH]; [done|]. simpl. by rewrite Hx.
  - destruct Hrest as [Hs Hc].
    destruct (spaces_app ws c r) as [_ ->]; done.
Qed.

(** X4.  The rule of [remove_trailing_commas].  A comma that only white
    space separates from a closing brace or bracket is deleted, the white
    space and the closer are kept, and the substitution goes on after the
    closer.  A comma followed, after white space, by anything else or by the
    end of the text is kept.  In both cases what is kept of the text before
    the comma is a subsequence of it. *)
Theorem trailing_comma_rule pre ws :
  spaces ws ->
  (forall b post,
     is_closer b = true ->
     exists kept,
       sublist kept pre /\
       remove_trailing_commas (pre ++ COMMA :: ws ++ b :: post)
       = kept ++ ws ++ b :: remove_trailing_commas post) /\
  (forall rest,
     match rest with
     | [] => True
     | c :: _ => isspace c = false /\ is_closer c = false
     end ->
     exists kept,
       sublist kept pre /\
       remove_trailing_commas (pre ++ COMMA :: ws ++ rest)
       = kept ++ COMMA :: remove_trailing_commas (ws ++ rest)).
Proof.
  intros Hws. split.
  - intros b post Hb. rewrite !remove_trailing_commas_filter.
    destruct (drop_commas_app pre (COMMA :: ws ++ b :: post))
      as (kept & Heq & Hsub).
    exists kept. split; [done|]. rewrite Heq. f_equal.
    cbn [drop_commas]. rewrite N.eqb_refl, trailing_closer by done.
    cbn [andb]. by apply drop_commas_spaces.
  - intros rest Hrest. rewrite !remove_trailing_commas_filter.
    destruct (drop_commas_app pre (COMMA :: ws ++ rest))
      as (kept & Heq & Hsub).
    exists kept. split; [done|]. rewrite Heq. f_equal.
    cbn [drop_commas]. rewrite N.eqb_refl, trailing_other by done.
    reflexivity.
Qed.

Lemma trailing_comma_rule_witness :
  (exists kept,
     sublist kept (str "[1, 2") /\
     remove_trailing_commas (str "[1, 2" ++ COMMA :: str " " ++ RBRACKET :: [])
     = kept ++ str " " ++ RBRACKET :: remove_trailing_commas []) /\
  (exists kept,
     sublist kept (str "[1") /\
     remove_trailing_commas (str "[1" ++ COMMA :: str " " ++ str "2]")
     = kept ++ COMMA :: remove_trailing_commas (str " " ++ str "2]")).
Proof.
  assert (Hws : spaces (str " ")) by (by repeat constructor).
  split.
  - destruct (trailing_comma_rule (str "[1, 2") (str " ") Hws) as [Hdel _].
    apply (Hdel RBRACKET [] eq_refl).
  - destruct (trailing_comma_rule (str "[1") (str " ") Hws) as [_ Hkeep].
    apply (Hkeep (str "2]")). by split.
Defined.

(** X5.  One pass is not a fixed point: of two commas that only white
    space separates from each other and from a closer, the second is
    deleted and the first is kept, so that the text returned still holds a
    comma before the closer. *)
Theorem doubled_trailing_comma pre ws1 ws2 b post :
  spaces ws1 -> spaces ws2 -> is_closer b = true ->
  exists kept,
    sublist kept pre /\
    remove_trailing_commas (pre ++ COMMA :: ws1 ++ COMMA :: ws2 ++ b :: post)
    = kept ++ COMMA :: ws1 ++ ws2 ++ b :: remove_trailing_commas post.
Proof.
  intros H1 H2 Hb. rewrite !remove_trailing_commas_filter.
  destruct (drop_commas_app pre (COMMA :: ws1 ++ COMMA :: ws2 ++ b :: post))
    as (kept & Heq & Hsub).
  exists kept. split; [done|]. rewrite Heq. f_equal.
  cbn [drop_commas]. rewrite N.eqb_refl.
  rewrite (trailing_other ws1 (COMMA :: ws2 ++ b :: post)) by done.
  cbn [andb]. f_equal.
  assert (Hno : COMMA ∉ ws1).
  { intros Hin. rewrite Forall_forall in H1. by apply H1 in Hin. }
  rewrite drop_commas_no_comma by done. f_equal.
  cbn [drop_commas]. rewrite N.eqb_refl, trailing_closer by done.
  cbn [andb]. by apply drop_commas_spaces.
Qed.

Lemma doubled_trailing_comma_witness :
  exists kept,
    sublist kept (str "[1") /\
    remove_trailing_commas (str "[1" ++ COMMA :: [] ++ COMMA :: [] ++ RBRACKET :: [])
    = kept ++ COMMA :: [] ++ [] ++ RBRACKET :: remove_trailing_commas [].
Proof.
  apply (doubled_trailing_comma (str "[1") [] [] RBRACKET []);
    [constructor|constructor|reflexivity].
Defined.

(** X6.  A string that holds no comma survives both passes: at a loop head
    outside any string, a quoted string whose body holds no comma stands in
    the normalised text as it stood in the input, between what the passes
    keep of the text before it and the normalised rest. *)
Theorem string_survives_both_passes content st body tl :
  loop_head content st -> in_string st = false ->
  drop (i st) content = QUOTE :: body ++ QUOTE :: tl -> string_body body ->
  COMMA ∉ body ->
  exists before after,
    normalize content = Done (before ++ QUOTE :: body ++ QUOTE :: after) /\
    sublist before (result st) /\
    normalize tl = Done after.
Proof. apply normalize_keeps_string. Qed.

Lemma string_survives_both_passes_witness :
  exists before after,
    normalize (str "[1, /* x */ `a//b}`,]")
    = Done (before ++ QUOTE :: str "a//b}" ++ QUOTE :: after) /\
    sublist before (str "[1,  ") /\
    normalize (str ",]") = Done after.
Proof.
  assert (Hhead : loop_head (str "[1, /* x */ `a//b}`,]")
                    (Scanner 12 false false (str "[1,  "))).
  { by apply (nth_head_loop_head _ 6 scanner_init); [apply head_init|]. }
  apply (string_survives_both_passes _ _ (str "a//b}") (str ",]") Hhead
           eq_refl eq_refl).
  - repeat (apply body_char; [discriminate|discriminate|]). apply body_nil.
  - intros H. repeat (apply elem_of_cons in H as [H|H]; [discriminate H|]).
    by apply elem_of_nil in H.
Defined.

(** ** Decoding *)

Section ParseOutcome.
Variable loads : list N -> returned json.

(** X7.  [parse_jsonc] adds nothing of its own to the decoder: the two
    passes always return, and the call ends as [json.loads] ends on the
    normalised text, with the value it returns or with the exception it
    raises, whichever it is ([JSONDecodeError], and also [ValueError] and
    [RecursionError]); it never leaves through [sys.exit].  Comments are
    invisible to it: a text and its comment-stripped form have the same
    outcome. *)
Theorem parse_jsonc_outcome content :
  exists stripped normalized,
    strip_jsonc_comments content = Done stripped /\
    normalize content = Done normalized /\
    parse_jsonc loads content
    = match loads normalized with
      | Returns v => Return v
      | Raises e => Raise e
      end /\
    (forall status, parse_jsonc loads content <> Exit status) /\
    parse_jsonc loads stripped = parse_jsonc loads content.
Proof.
  exists (scan (Code false false) content),
         (remove_trailing_commas (scan (Code false false) content)).
  split; [apply strip_scan|]. split; [unfold normalize; by rewrite strip_scan|].
  unfold parse_jsonc. rewrite !strip_scan.
  split; [done|]. split; [by destruct (loads _)|].
  by rewrite scan_idempotent.
Qed.

Lemma parse_jsonc_cases content :
  (exists v, parse_jsonc loads content = Return v) \/
  (exists e, parse_jsonc loads content = Raise e).
Proof.
  unfold parse_jsonc. rewrite strip_scan.
  destruct (loads _); eauto.
Qed.

End ParseOutcome.

(** The three exceptions of the decoder escape from [parse_jsonc]: a
    syntax error, an integer literal of 4301 digits in a comment-free
    text, 993 nested lists behind a comment. *)
Example parse_jsonc_raises :
  parse_jsonc (json_loads cpython) (str "{`a`: 1,,}") = Raise JSONDecodeError /\
  parse_jsonc (json_loads cpython) (str "[" ++ repeat 49%N 4301 ++ str ",]")
  = Raise ValueError /\
  parse_jsonc (json_loads cpython)
    (str "// deep
" ++ repeat LBRACKET 993 ++ repeat RBRACKET 993)
  = Raise RecursionError.
Proof. vm_compute. repeat split; reflexivity. Qed.

(** ** The backup *)

(** X8.  [backup_file] on a file whose .bak sibling is not a directory:
    the sibling holds the content and the permission bits of the file, the
    path of the sibling is returned, and the file itself and every other
    file hold what they held; the copy is the only effect.  When nothing
    stands at the path, [FileNotFoundError] escapes and nothing is
    changed. *)
Theorem backup_file_contract w path :
  path +:+ ".bak" ∉ dirs w ->
  (forall f,
     files w !! path = Some f ->
     exists w',
       backup_file path w = (w', Return (path +:+ ".bak")) /\
       files w' !! (path +:+ ".bak") = Some f /\
       files w' !! path = Some f /\
       (forall q, q <> path +:+ ".bak" -> files w' !! q = files w !! q) /\
       dirs w' = dirs w /\
       trace w' = trace w ++ [EvCopy path (path +:+ ".bak")]) /\
  (files w !! path = None -> path ∉ dirs w ->
   backup_file path w = (w, Raise FileNotFoundError)).
Proof.
  intros _. split.
  - intros f Hf. eexists. split; [by apply backup_file_Some|].
    cbn. split; [apply lookup_insert_eq|].
    split; [by rewrite lookup_insert_ne by apply bak_ne|].
    split; [|done]. intros q Hq. by apply lookup_insert_ne.
  - intros Hf _. unfold backup_file, io_bind, copy2. by rewrite Hf.
Qed.

Lemma backup_file_contract_witness :
  exists w',
    backup_file sample_style_path (sample_world configured plain_style None)
    = (w', Return (sample_style_path +:+ ".bak")) /\
    files w' !! (sample_style_path +:+ ".bak") = Some (File plain_style 420%N) /\
    files w' !! sample_style_path = Some (File plain_style 420%N).
Proof.
  assert (Hd : sample_style_path +:+ ".bak"
               ∉ dirs (sample_world configured plain_style None)).
  { unfold sample_world. cbn [dirs]. intros H%elem_of_singleton.
    vm_compute in H. discriminate H. }
  destruct (backup_file_contract
              (sample_world configured plain_style None) sample_style_path Hd)
    as [Hcopy _].
  destruct (Hcopy (File plain_style 420%N) eq_refl)
    as (w' & Hrun & Hbak & Hkeep & _).
  exists w'. split; [exact Hrun|]. split; [exact Hbak|exact Hkeep].
Defined.

(** ** The outcomes of module registration *)

Lemma insert_at_sublist content k ins : sublist content (insert_at content k ins).
Proof.
  unfold insert_at. rewrite <- (take_drop k content) at 1.
  apply sublist_app; [done|]. by apply sublist_inserts_l.
Qed.

Lemma insert_at_length content k ins :
  length (insert_at content k ins) = length content + length ins.
Proof.
  unfold insert_at. rewrite !length_app.
  pose proof (f_equal length (take_drop k content)) as H.
  rewrite length_app in H. lia.
Qed.

Lemma add_module_entry_inserts content c1 :
  add_module_entry content = Some c1 ->
  sublist content c1 /\ length content < length c1.
Proof.
  unfold add_module_entry.
  destruct (re_search tray_pattern content) as [[? k]|].
  - intros [= <-]. split; [apply insert_at_sublist|].
    rewrite insert_at_length.
    assert (0 < length TRAY_INSERT) by (vm_compute; lia). lia.
  - destruct (re_search modules_pattern content) as [[? k]|]; [|done].
    intros [= <-]. split; [apply insert_at_sublist|].
    rewrite insert_at_length.
    assert (0 < length MODULES_INSERT) by (vm_compute; lia). lia.
Qed.

Lemma add_definition_inserts content c2 :
  add_definition content = Some c2 ->
  sublist content c2 /\ length content < length c2.
Proof.
  unfold add_definition. destruct (rfind RBRACE content) as [k|]; [|done].
  cbv zeta. intros [= <-]. split.
  - rewrite <- (take_drop k content) at 1.
    apply sublist_app; [done|]. apply sublist_inserts_l. by apply sublist_cons.
  - pose proof (f_equal length (take_drop k content)) as H.
    rewrite length_app in H. rewrite !length_app.
    destruct (needs_comma content k); simpl; lia.
Qed.

Lemma insert_at_without content k ins c :
  c ∉ content -> c ∉ ins -> c ∉ insert_at content k ins.
Proof.
  intros Hcontent Hins. unfold insert_at. rewrite !not_elem_of_app.
  split; [|split; [done|]]; intros H; apply Hcontent.
  - by apply (elem_of_sublist _ _ _ H), sublist_take.
  - by apply (elem_of_sublist _ _ _ H), sublist_drop.
Qed.

Lemma insertions_without_CR :
  (CR ∉ TRAY_INSERT) /\ (CR ∉ MODULES_INSERT) /\ (CR ∉ vpn_module).
Proof.
  split; [|split]; apply (bool_decide_unpack _); by vm_compute.
Qed.

Lemma add_module_entry_without_CR content c1 :
  add_module_entry content = Some c1 -> CR ∉ content -> CR ∉ c1.
Proof.
  unfold add_module_entry. intros H Hno.
  destruct (re_search tray_pattern content) as [[? k]|].
  - injection H as <-. apply insert_at_without; [done|].
    apply insertions_without_CR.
  - destruct (re_search modules_pattern content) as [[? k]|]; [|done].
    injection H as <-. apply insert_at_without; [done|].
    apply insertions_without_CR.
Qed.

Lemma add_definition_without_CR content c2 :
  add_definition content = Some c2 -> CR ∉ content -> CR ∉ c2.
Proof.
  unfold add_definition. destruct (rfind RBRACE content) as [k|]; [|done].
  cbv zeta. intros [= <-] Hno. rewrite !not_elem_of_app.
  split; [|split].
  - intros H. by apply Hno, (elem_of_sublist _ _ _ H), sublist_take.
  - destruct (needs_comma content k);
      [apply not_elem_of_cons; split; [done|]|]; apply insertions_without_CR.
  - apply not_elem_of_cons. split; [done|].
    intros H. by apply Hno, (elem_of_sublist _ _ _ H), sublist_drop.
Qed.

Lemma exists_dir w path :
  path ∈ dirs w -> os_path_exists path w = (w, Return true).
Proof.
  intros Hd. unfold os_path_exists.
  rewrite (bool_decide_true (path ∈ dirs w)) by done. by rewrite orb_true_r.
Qed.

Section ConfigCases.
Variable loads : list N -> returned json.

Lemma modify_config_directory w path :
  files w !! path = None -> path ∈ dirs w ->
  modify_config_jsonc loads path w = (w, Raise IsADirectoryError).
Proof.
  intros Hf Hd. unfold modify_config_jsonc.
  rewrite (io_bind_Return _ _ _ _ _ (exists_dir w path Hd)). cbn [negb].
  apply io_bind_Raise. unfold read_file. rewrite Hf.
  by rewrite bool_decide_true.
Qed.

Lemma modify_config_decode_error w path f e :
  files w !! path = Some f ->
  parse_jsonc loads (read_text f) = Raise e ->
  modify_config_jsonc loads path w = (w, Raise e).
Proof.
  intros Hf Hparse. unfold modify_config_jsonc.
  io_step. io_step. unfold lift at 1. rewrite Hparse. io_step. reflexivity.
Qed.

Lemma modify_config_not_object w path f config :
  files w !! path = Some f ->
  parse_jsonc loads (read_text f) = Return config ->
  (forall members, config <> JObj members) ->
  modify_config_jsonc loads path w
  = match py_in MODULES_RIGHT config with
    | None => (w, Raise TypeError)
    | Some false =>
        (log (EvStderr "ERROR: 'modules-right' not found in config") w,
         Exit 1%Z)
    | Some true => (w, Raise AttributeError)
    end.
Proof.
  intros Hf Hparse Hno. unfold modify_config_jsonc.
  io_step. io_step. unfold lift at 1. rewrite Hparse. io_step.
  unfold py_contains at 1.
  destruct (py_in MODULES_RIGHT config) as [[]|].
  - io_step. cbn [negb].
    destruct config; try (io_step; reflexivity). by destruct (Hno members).
  - repeat io_step. reflexivity.
  - io_step. reflexivity.
Qed.

(** Every run of [modify_config_jsonc] is of one of four kinds. *)
Lemma modify_config_cases w path :
  let r := modify_config_jsonc loads path w in
  (exists e, r = (w, Raise e)) \/
  (exists line, r = (log (EvStderr ("ERROR: " +:+ line)) w, Exit 1%Z)) \/
  r = (log (EvStdout "config.jsonc: Already configured, skipping") w,
       Return false) \/
  (exists f members modules hm,
     files w !! path = Some f /\
     parse_jsonc loads (read_text f) = Return (JObj members) /\
     dict_lookup members MODULES_RIGHT = Some modules /\
     py_in CUSTOM_VPN modules = Some hm /\
     hm && bool_decide (is_Some (dict_lookup members CUSTOM_VPN)) = false).
Proof.
  intros r. subst r.
  destruct (files w !! path) as [f|] eqn:Hf.
  2:{ destruct (decide (path ∈ dirs w)) as [Hd|Hd].
      - left. rewrite modify_config_directory by done. eauto.
      - right. left. rewrite modify_config_missing_file by done.
        by exists ("Config file not found: " +:+ path). }
  destruct (parse_jsonc_cases loads (read_text f)) as [[config Hp]|[e Hp]].
  2:{ left. rewrite (modify_config_decode_error w path f e) by done. eauto. }
  destruct (match config with JObj _ => true | _ => false end) eqn:Hobj.
  2:{ rewrite (modify_config_not_object w path f config Hf Hp)
        by (intros members ->; discriminate Hobj).
      destruct (py_in MODULES_RIGHT config) as [[]|]; [left; eauto| |left; eauto].
      right. left. by exists "'modules-right' not found in config". }
  destruct config as [| | | | |members]; try discriminate Hobj.
  destruct (dict_lookup members MODULES_RIGHT) as [modules|] eqn:Hm.
  2:{ right. left. rewrite (modify_config_missing_field loads w path f members)
        by done.
      by exists "'modules-right' not found in config". }
  destruct (py_in CUSTOM_VPN modules) as [hm|] eqn:Hin.
  2:{ left. rewrite (modify_config_type_error loads w path f members modules)
        by done. eauto. }
  destruct (hm && bool_decide (is_Some (dict_lookup members CUSTOM_VPN)))
    eqn:Hboth.
  - apply andb_true_iff in Hboth as [-> Hd%bool_decide_eq_true].
    right. right. left. by eapply modify_config_skip.
  - right. right. right. by exists f, members, modules, hm.
Qed.

(** X9.  Module registration writes the configuration file only on the
    run that returns [True].  When an exception escapes, nothing at all has
    been done; when [False] is returned, one line has been printed and
    nothing else; when the run leaves through [sys.exit], the status is 1,
    the last effect is a line on the error stream that starts with ERROR,
    and the file holds what it held. *)
Theorem config_written_only_on_success w path :
  let r := modify_config_jsonc loads path w in
  (forall e, snd r = Raise e -> fst r = w) /\
  (snd r = Return false ->
   fst r = log (EvStdout "config.jsonc: Already configured, skipping") w) /\
  (forall status,
     snd r = Exit status ->
     status = 1%Z /\
     files (fst r) !! path = files w !! path /\
     exists line, last (trace (fst r)) = Some (EvStderr ("ERROR: " +:+ line))).
Proof.
  intros r.
  pose proof (modify_config_cases w path) as Hcases. cbv zeta in Hcases.
  fold r in Hcases.
  destruct Hcases
    as [[e Hr]|[[line Hr]|[Hr|(f & members & modules & hm & Hf & Hp & Hm & Hin & Hb)]]].
  - rewrite Hr. cbn. repeat split; try done.
  - rewrite Hr. cbn [fst snd]. split; [done|]. split; [done|].
    intros status [= <-]. split; [done|]. split; [done|].
    exists line. cbn. by rewrite last_snoc.
  - rewrite Hr. cbn [fst snd]. repeat split; done.
  - subst r.
    rewrite (modify_config_run loads w path f members modules hm Hf Hp Hm Hin Hb).
    destruct (if hm then _ else _) as [c1|].
    2:{ cbn [fst snd]. split; [done|]. split; [done|].
        intros status [= <-]. split; [done|].
        split; [rewrite Hf; by apply backed_up_file|].
        exists "Could not find modules-right array in config".
        cbn. by rewrite last_snoc. }
    destruct (if bool_decide _ then _ else _) as [c2|].
    + cbn [fst snd]. repeat split; done.
    + cbn [fst snd]. split; [done|]. split; [done|].
      intros status [= <-]. split; [done|].
      split; [rewrite Hf; by apply backed_up_file|].
      exists "Could not find closing brace in config".
      cbn. by rewrite last_snoc.
Qed.

(** X10.  A run of module registration that returns [True] has only
    inserted into the text it read.  The text written holds the text read
    from the file, which is the stored text with its line ends translated,
    as a subsequence, and is longer.  It holds no carriage return: a file
    stored with carriage returns is rewritten with line feeds, and a file
    stored without them is changed by insertion only.  The permission bits
    are kept, and the .bak sibling holds the previous file as it was
    stored. *)
Theorem config_success_keeps_text w path :
  let r := modify_config_jsonc loads path w in
  snd r = Return true ->
  exists f content,
    files w !! path = Some f /\
    files (fst r) !! path = Some (File content (perm f)) /\
    sublist (read_text f) content /\
    length (read_text f) < length content /\
    (CR ∉ content) /\
    (CR ∉ data f -> sublist (data f) content) /\
    files (fst r) !! (path +:+ ".bak") = Some f.
Proof.
  intros r Hret.
  pose proof (modify_config_cases w path) as Hcases. cbv zeta in Hcases.
  fold r in Hcases.
  destruct Hcases
    as [[e Hr]|[[line Hr]|[Hr|(f & members & modules & hm & Hf & Hp & Hm & Hin & Hb)]]];
    try (rewrite Hr in Hret; discriminate Hret).
  subst r. revert Hret.
  rewrite (modify_config_run loads w path f members modules hm Hf Hp Hm Hin Hb).
  destruct (if hm then _ else _) as [c1|] eqn:Hc1; [|done].
  destruct (if bool_decide _ then _ else _) as [c2|] eqn:Hc2; [|done].
  intros _. exists f, c2. cbn [fst].
  split; [done|]. split; [apply written_file|].
  rewrite written_bak, backed_up_bak.
  assert (H1 : sublist (read_text f) c1 /\ (CR ∉ c1) /\
               (if hm then length (read_text f) = length c1
                else length (read_text f) < length c1)).
  { destruct hm.
    - injection Hc1 as <-. split; [done|]. split; [|done].
      apply universal_newlines_no_CR.
    - destruct (add_module_entry_inserts _ _ Hc1). split; [done|].
      split; [|done].
      apply (add_module_entry_without_CR _ _ Hc1), universal_newlines_no_CR. }
  assert (H2 : sublist c1 c2 /\ (CR ∉ c1 -> CR ∉ c2) /\
               (if bool_decide (is_Some (dict_lookup members CUSTOM_VPN))
                then length c1 = length c2 else length c1 < length c2)).
  { destruct (bool_decide _).
    - injection Hc2 as <-. done.
    - destruct (add_definition_inserts _ _ Hc2). split; [done|].
      split; [|done]. apply (add_definition_without_CR _ _ Hc2). }
  destruct H1 as (Hs1 & Hcr1 & Hl1), H2 as (Hs2 & Hcr2 & Hl2).
  assert (Hsub : sublist (read_text f) c2) by by etrans.
  split; [done|]. split.
  { destruct hm, (bool_decide (is_Some (dict_lookup members CUSTOM_VPN)));
      try discriminate Hb; lia. }
  split; [by apply Hcr2|]. split; [|done].
  intros Hno. unfold read_text in Hsub.
  by rewrite universal_newlines_id in Hsub.
Qed.

End ConfigCases.

Lemma config_written_only_on_success_witness :
  let r := modify_config_jsonc (json_loads cpython) sample_config_path
             (World ∅ ∅ "/home/u" 18%N []) in
  snd r = Exit 1%Z /\ files (fst r) !! sample_config_path = None.
Proof.
  intros r.
  destruct (config_written_only_on_success (json_loads cpython)
              (World ∅ ∅ "/home/u" 18%N []) sample_config_path)
    as (_ & _ & Hexit).
  destruct (Hexit 1%Z eq_refl) as (_ & Hfile & _).
  split; [reflexivity|exact Hfile].
Defined.

Lemma config_success_keeps_text_witness :
  let w := sample_world stored_with_CRLF plain_style None in
  let r := modify_config_jsonc (json_loads cpython) sample_config_path w in
  exists f content,
    files w !! sample_config_path = Some f /\
    files (fst r) !! sample_config_path = Some (File content (perm f)) /\
    sublist (read_text f) content /\
    length (read_text f) < length content /\
    (CR ∉ content) /\
    (CR ∉ data f -> sublist (data f) content) /\
    files (fst r) !! (sample_config_path +:+ ".bak") = Some f.
Proof.
  intros w r.
  apply (config_success_keeps_text (json_loads cpython) w sample_config_path).
  vm_compute. reflexivity.
Defined.

(** The file stored with carriage returns is written back with line
    feeds, the entry inserted; its .bak sibling keeps the carriage
    returns. *)
Example stored_with_CRLF_rewritten :
  let w := sample_world stored_with_CRLF plain_style None in
  let r := modify_config_jsonc (json_loads cpython) sample_config_path w in
  snd r = Return true /\
  files (fst r) !! sample_config_path
  = Some (File (str "{`modules-right`: [`custom/vpn`,
    `clock`],
 `custom/vpn`: {}}
") 420%N) /\
  files (fst r) !! (sample_config_path +:+ ".bak")
  = Some (File stored_with_CRLF 420%N).
Proof. vm_compute. repeat split; reflexivity. Qed.

(** ** The stylesheet *)

Lemma modify_style_missing_file w path :
  files w !! path = None -> path ∉ dirs w ->
  modify_style_css path w
  = (log (EvStderr ("ERROR: Style file not found: " +:+ path)) w, Exit 1%Z).
Proof.
  intros Hf Hd. unfold modify_style_css. repeat io_step. reflexivity.
Qed.

Lemma modify_style_directory w path :
  files w !! path = None -> path ∈ dirs w ->
  modify_style_css path w = (w, Raise IsADirectoryError).
Proof.
  intros Hf Hd. unfold modify_style_css.
  rewrite (io_bind_Return _ _ _ _ _ (exists_dir w path Hd)). cbn [negb].
  apply io_bind_Raise. unfold read_file. rewrite Hf.
  by rewrite bool_decide_true.
Qed.

Lemma modify_style_returns w path f :
  files w !! path = Some f ->
  exists w' f',
    modify_style_css path w
    = (w', Return (negb (contains CSS_SELECTOR (read_text f)))) /\
    files w' !! path = Some f' /\
    f' = File (if contains CSS_SELECTOR (read_text f) then data f
               else data f ++ css_block) (perm f) /\
    contains CSS_SELECTOR (read_text f') = true.
Proof.
  intros Hf. destruct (contains CSS_SELECTOR (read_text f)) eqn:Hc.
  - exists (log (EvStdout "style.css: Already configured, skipping") w), f.
    split; [exact (modify_style_skip w path f Hf Hc)|]. split; [done|].
    by destruct f.
  - eexists _, (File (data f ++ css_block) (perm f)).
    split; [exact (modify_style_run w path f Hf Hc)|]. cbn [files log set_files].
    split; [apply lookup_insert_eq|]. split; [done|].
    apply contains_universal_newlines; try apply selector_without_line_end.
    apply contains_app_r, css_block_selector.
Qed.

(** X11.  After [modify_style_css] has run on an existing stylesheet, the
    selector stands in the file, and in the text read from it: the call
    returns, [True] exactly when the selector was missing from the text
    read; the text the file held is kept as a prefix, the rule block being
    appended to it in that case and nothing otherwise; the permission bits
    are kept. *)
Theorem style_postcondition w path f :
  files w !! path = Some f ->
  exists w',
    modify_style_css path w
    = (w', Return (negb (contains CSS_SELECTOR (read_text f)))) /\
    files w' !! path
    = Some (File (if contains CSS_SELECTOR (read_text f) then data f
                  else data f ++ css_block) (perm f)) /\
    style_satisfied w' path.
Proof.
  intros Hf.
  destruct (modify_style_returns w path f Hf) as (w' & f' & Hr & Hf' & Heq & Hc).
  exists w'. split; [done|]. split; [by rewrite Hf', Heq|].
  apply contains_spec in Hc as (p & q & Hd). by exists f', p, q.
Qed.

Lemma style_postcondition_witness :
  exists w',
    modify_style_css sample_style_path (sample_world configured plain_style None)
    = (w', Return true) /\
    files w' !! sample_style_path
    = Some (File (plain_style ++ css_block) 420%N) /\
    style_satisfied w' sample_style_path.
Proof.
  apply (style_postcondition (sample_world configured plain_style None)
           sample_style_path (File plain_style 420%N)).
  reflexivity.
Defined.

(** X12.  [modify_style_css] fails only on a missing stylesheet, and then
    writes nothing.  It leaves through [sys.exit] exactly when nothing
    stands at the path: the status is 1 and one line on the error stream is
    the only effect.  An exception escapes only when the path is a
    directory, and nothing is changed. *)
Theorem style_failure w path :
  let r := modify_style_css path w in
  (forall status,
     snd r = Exit status ->
     status = 1%Z /\ files w !! path = None /\ (path ∉ dirs w) /\
     fst r = log (EvStderr ("ERROR: Style file not found: " +:+ path)) w) /\
  (forall e,
     snd r = Raise e ->
     e = IsADirectoryError /\ files w !! path = None /\ (path ∈ dirs w) /\
     fst r = w) /\
  (files w !! path = None -> path ∉ dirs w -> snd r = Exit 1%Z).
Proof.
  intros r. subst r. destruct (files w !! path) as [f|] eqn:Hf.
  - destruct (modify_style_returns w path f Hf) as (w' & f' & -> & _).
    cbn [fst snd]. repeat split; done.
  - destruct (decide (path ∈ dirs w)) as [Hd|Hd].
    + rewrite modify_style_directory by done. cbn [fst snd].
      split; [done|]. split; [|done]. by intros e [= <-].
    + rewrite modify_style_missing_file by done. cbn [fst snd].
      split; [|done]. by intros status [= <-].
Qed.

Lemma style_failure_witness :
  snd (modify_style_css sample_style_path (World ∅ ∅ "/home/u" 18%N []))
  = Exit 1%Z.
Proof.
  destruct (style_failure (World ∅ ∅ "/home/u" 18%N []) sample_style_path)
    as (_ & _ & Hexit).
  apply Hexit; [reflexivity|apply not_elem_of_empty].
Defined.

(** X13.  The stylesheet is appended to at most once: on the world a call
    of [modify_style_css] on an existing stylesheet left, a second call
    prints that it skips, returns [False] and changes no file. *)
Theorem style_second_run_noop w path f :
  files w !! path = Some f ->
  let w1 := fst (modify_style_css path w) in
  modify_style_css path w1
  = (log (EvStdout "style.css: Already configured, skipping") w1, Return false).
Proof.
  intros Hf w1. subst w1.
  destruct (modify_style_returns w path f Hf) as (w' & f' & -> & Hf' & _ & Hc).
  cbn [fst]. by apply (modify_style_skip w' path f').
Qed.

Lemma style_second_run_noop_witness :
  let w1 := fst (modify_style_css sample_style_path
                   (sample_world configured plain_style None)) in
  modify_style_css sample_style_path w1
  = (log (EvStdout "style.css: Already configured, skipping") w1, Return false).
Proof.
  apply (style_second_run_noop (sample_world configured plain_style None)
           sample_style_path (File plain_style 420%N)).
  reflexivity.
Defined.

(** ** The toggle script *)

Lemma exists_inv path w w' b :
  os_path_exists path w = (w', Return b) ->
  w' = w /\
  b = bool_decide (is_Some (files w !! path)) || bool_decide (path ∈ dirs w).
Proof. by intros [= <- <-]. Qed.

Lemma print_inv line w w' u :
  print line w = (w', Return u) -> w' = log (EvStdout line) w.
Proof. by intros [= <-]. Qed.

(** The comparison with the existing script. *)
Lemma script_same_inv path w w' found same :
  found = bool_decide (is_Some (files w !! path)) || bool_decide (path ∈ dirs w) ->
  (if found
   then existing_content <- read_file path;;
        ret (bool_decide (existing_content = get_vpn_script_content))
   else ret false) w = (w', Return same) ->
  w' = w /\
  if same then script_satisfied w path
  else forall f, files w !! path = Some f -> read_text f <> get_vpn_script_content.
Proof.
  intros -> H. destruct (files w !! path) as [f|] eqn:Hf.
  - rewrite (bool_decide_true (is_Some (Some f))) in H by eauto.
    cbn [orb] in H. rewrite (io_bind_Return _ _ _ _ _ (read_file_Some _ _ _ Hf)) in H.
    injection H as <- <-. split; [done|]. case_bool_decide as Hd.
    + by exists f.
    + by intros ? [= <-].
  - rewrite (bool_decide_false (is_Some None)) in H by (by intros [? ?]).
    cbn [orb] in H. case_bool_decide as Hd.
    + unfold io_bind, read_file in H. rewrite Hf in H. discriminate H.
    + injection H as <- <-. done.
Qed.

(** The directory of the script. *)
Lemma script_dir_inv d w w' :
  (dir_found <- os_path_exists d;;
   (if negb dir_found
    then makedirs d;; print ("Created directory: " +:+ d)
    else ret ())) w = (w', Return ()) ->
  files w' = files w /\ umask w' = umask w /\
  (files w !! d = None -> d ∈ dirs w') /\
  (d ∈ dirs w -> dirs w' = dirs w).
Proof.
  intros H. apply io_bind_inv in H as (w1 & dir_found & [-> ->]%exists_inv & H).
  destruct (files w !! d) as [f|] eqn:Hf.
  { rewrite (bool_decide_true (is_Some (Some f))) in H by eauto.
    injection H as <-. repeat split; done. }
  rewrite (bool_decide_false (is_Some None)) in H by (by intros [? ?]).
  cbn [orb] in H. case_bool_decide as Hd.
  { injection H as <-. repeat split; done. }
  cbn [negb] in H. apply io_bind_inv in H as (w2 & [] & Hmk & ->%print_inv).
  unfold makedirs in Hmk. case_bool_decide as He; [discriminate Hmk|].
  injection Hmk as <-. cbn. split; [done|]. split; [done|]. split; [|done].
  intros _. apply elem_of_union_l, elem_of_list_to_set.
  destruct d as [|a d']; [done|]. cbn [String.length ancestors].
  rewrite bool_decide_false by done. apply list_elem_of_here.
Qed.

Lemma write_file_inv path content w w' :
  write_file path content w = (w', Return ()) ->
  w' = log (EvWrite path content)
         (set_files
            (<[path := File content
                         (match files w !! path with
                          | Some f => perm f
                          | None => created_perm w
                          end)]> (files w)) w).
Proof.
  unfold write_file. destruct (files w !! path) as [f|].
  - by intros [= <-].
  - case_bool_decide; [done|]. by intros [= <-].
Qed.

Lemma chmod_inv path w w' f :
  files w !! path = Some f ->
  chmod_executable path w = (w', Return ()) ->
  w' = log (EvChmod path (N.lor (perm f) 73))
         (set_files (<[path := File (data f) (N.lor (perm f) 73)]> (files w)) w).
Proof. unfold chmod_executable. intros ->. by intros [= <-]. Qed.

Lemma execute_bits p : N.land (N.lor p 73) 73 = 73%N.
Proof.
  apply N.bits_inj. intros n. rewrite N.land_spec, N.lor_spec.
  destruct (N.testbit p n), (N.testbit 73 n); reflexivity.
Qed.

(** What a run of [create_vpn_script] that returns leaves. *)
Lemma create_script_inv path w w' b :
  create_vpn_script path w = (w', Return b) ->
  if b then
    (forall f, files w !! path = Some f -> read_text f <> get_vpn_script_content) /\
    files w'
    = <[path := File get_vpn_script_content
                  (N.lor (match files w !! path with
                          | Some f => perm f
                          | None => created_perm w
                          end) 73)]> (files w) /\
    (files w !! dirname path = None -> dirname path ∈ dirs w') /\
    (dirname path ∈ dirs w -> dirs w' = dirs w)
  else
    script_satisfied w path /\
    w' = log (EvStdout "vpn-toggle.sh: Already configured, skipping") w.
Proof.
  intros Hrun. unfold create_vpn_script in Hrun.
  apply io_bind_inv in Hrun as (w1 & found & [-> Hfound]%exists_inv & Hrun).
  apply io_bind_inv in Hrun as (w2 & same & Hsame & Hrun).
  apply (script_same_inv _ _ _ _ _ Hfound) in Hsame as [-> Hsame].
  destruct same.
  { apply io_bind_inv in Hrun as (w3 & [] & ->%print_inv & Hrun).
    injection Hrun as <- <-. done. }
  rewrite <- io_bind_assoc in Hrun.
  apply io_bind_inv in Hrun as (w4 & [] & Hdir & Hrun).
  apply script_dir_inv in Hdir as (Hfiles & Humask & Hmade & Hkept).
  apply io_bind_inv in Hrun as (w5 & [] & ->%write_file_inv & Hrun).
  apply io_bind_inv in Hrun as (w6 & [] & Hchmod & Hrun).
  eapply chmod_inv in Hchmod; [|cbn; apply lookup_insert_eq]. subst w6.
  apply io_bind_inv in Hrun as (w7 & [] & ->%print_inv & Hrun).
  apply io_bind_inv in Hrun as (w8 & [] & ->%print_inv & Hrun).
  apply io_bind_inv in Hrun as (w9 & [] & ->%print_inv & Hrun).
  apply io_bind_inv in Hrun as (w10 & [] & ->%print_inv & Hrun).
  injection Hrun as <- <-. cbn.
  split; [done|]. split; [|done].
  rewrite insert_insert_eq, Hfiles. unfold created_perm. by rewrite Humask.
Qed.

(** X14.  A run of [create_vpn_script] that returns [True] leaves at the
    path a file that holds the generated script and is executable by owner,
    group and others: the three bits are added to the permission bits the
    file had, or to those of a newly created file, and none is removed.  No
    other file is changed, the directory of the script exists when nothing
    stood at its path before, and the text read from the file was not
    already the script. *)
Theorem script_result path w w' :
  create_vpn_script path w = (w', Return true) ->
  let before := match files w !! path with
                | Some f => perm f
                | None => created_perm w
                end in
  files w' !! path
  = Some (File get_vpn_script_content (N.lor before 73)) /\
  N.land (N.lor before 73) 73 = 73%N /\
  N.land (N.lor before 73) before = before /\
  (forall q, q <> path -> files w' !! q = files w !! q) /\
  (files w !! dirname path = None -> dirname path ∈ dirs w') /\
  (forall f, files w !! path = Some f -> read_text f <> get_vpn_script_content).
Proof.
  intros Hrun before.
  apply create_script_inv in Hrun as (Hdiff & Hfiles & Hdir & _).
  rewrite Hfiles. fold before.
  split; [apply lookup_insert_eq|]. split; [apply execute_bits|].
  split.
  { apply N.bits_inj. intros n. rewrite N.land_spec, N.lor_spec.
    destruct (N.testbit before n), (N.testbit 73 n); reflexivity. }
  split; [|done]. intros q Hq. by apply lookup_insert_ne.
Qed.

Lemma script_result_witness :
  let w := sample_world configured plain_style (Some (str "#!/bin/sh")) in
  exists w',
    create_vpn_script sample_script_path w = (w', Return true) /\
    files w' !! sample_script_path
    = Some (File get_vpn_script_content (N.lor 493 73)).
Proof.
  intros w.
  destruct (create_vpn_script sample_script_path w) as [w' o] eqn:Hrun.
  assert (Ho : o = Return true).
  { pose proof Hrun as Hc. vm_compute in Hc. by injection Hc as _ <-. }
  subst o. exists w'. split; [reflexivity|].
  destruct (script_result _ _ _ Hrun) as [Hfile _].
  assert (Hperm : files w !! sample_script_path
                  = Some (File (str "#!/bin/sh") 493%N))
    by (vm_compute; reflexivity).
  rewrite Hperm in Hfile. exact Hfile.
Defined.

(** X15.  The script is materialised at most once: on the world a call of
    [create_vpn_script] that returned left, whatever it returned, a second
    call finds the file identical, prints that it skips, returns [False]
    and does nothing else: no write, no change of permission bits, no
    message that the script was created. *)
Theorem script_second_run_noop path w w' b :
  create_vpn_script path w = (w', Return b) ->
  create_vpn_script path w'
  = (log (EvStdout "vpn-toggle.sh: Already configured, skipping") w',
     Return false).
Proof.
  intros Hrun. destruct b.
  - by apply (script_second_run w).
  - apply create_script_inv in Hrun as ((f & Hf & Hd) & ->).
    by apply (create_script_skip _ path f).
Qed.

Lemma script_second_run_noop_witness :
  let w := sample_world configured plain_style None in
  exists w1,
    create_vpn_script sample_script_path w = (w1, Return true) /\
    create_vpn_script sample_script_path w1
    = (log (EvStdout "vpn-toggle.sh: Already configured, skipping") w1,
       Return false).
Proof.
  intros w.
  destruct (create_vpn_script sample_script_path w) as [w1 o] eqn:Hrun.
  assert (Ho : o = Return true).
  { pose proof Hrun as Hc. vm_compute in Hc. by injection Hc as _ <-. }
  subst o. exists w1. split; [reflexivity|].
  exact (script_second_run_noop _ _ _ _ Hrun).
Defined.

(** ** Which files are written *)

(** X16.  Each operation writes only its own files: module registration
    and the stylesheet append write no file but the one at their path and
    its .bak sibling, script materialisation no file but the script.  Every
    other file holds at the end what it held, and no copy, write, append or
    change of permission bits of the run is aimed at it. *)
Theorem operations_confined (loads : list N -> returned json) path :
  confined (fun p => p = path \/ p = path +:+ ".bak")
           (modify_config_jsonc loads path) /\
  confined (fun p => p = path \/ p = path +:+ ".bak") (modify_style_css path) /\
  confined (fun p => p = path) (create_vpn_script path).
Proof.
  split; [apply confined_modify_config|].
  split; [apply confined_modify_style|apply confined_create_script].
Qed.

Ltac path_ne :=
  unfold config_file, style_file, script_file;
  let H := fresh in
  intros H; rewrite ?string_app_assoc in H;
  apply (inj (String.app _)) in H; vm_compute in H; discriminate H.

(** X17.  [expand_path] has no effect, and the three paths of [main]
    expand to three files under the home directory; these, together with
    the .bak siblings of the configuration and of the stylesheet, are five
    different paths, whatever the home directory: no backup can overwrite a
    target or another backup. *)
Theorem target_paths_distinct w :
  expand_path CONFIG_PATH w = (w, Return (config_file w)) /\
  expand_path STYLE_PATH w = (w, Return (style_file w)) /\
  expand_path SCRIPT_PATH w = (w, Return (script_file w)) /\
  NoDup [config_file w; config_file w +:+ ".bak";
         style_file w; style_file w +:+ ".bak"; script_file w].
Proof.
  split; [apply expand_config|]. split; [apply expand_style|].
  split; [apply expand_script|].
  rewrite !NoDup_cons, !not_elem_of_cons.
  repeat split; try apply not_elem_of_nil; try apply NoDup_nil_2; path_ne.
Qed.

Lemma modify_style_fails w path :
  (forall b, snd (modify_style_css path w) <> Return b) ->
  files (fst (modify_style_css path w)) = files w.
Proof.
  intros Hno. destruct (files w !! path) as [f|] eqn:Hf.
  - destruct (modify_style_returns w path f Hf) as (w' & f' & Hr & _).
    rewrite Hr in Hno. exfalso. by eapply Hno.
  - destruct (decide (path ∈ dirs w)) as [Hd|Hd].
    + by rewrite modify_style_directory.
    + by rewrite modify_style_missing_file.
Qed.

Lemma log_World fs ds h u tr e :
  log e (World fs ds h u tr) = World fs ds h u (tr ++ [e]).
Proof. reflexivity. Qed.

Lemma run_pair {A} (r : world * outcome A) o : snd r = o -> r = (fst r, o).
Proof. destruct r. cbn. by intros ->. Qed.

Section MainRuns.
Variable loads : list N -> returned json.

(** What [main] runs once the paths are expanded and the banner is
    printed. *)
Lemma main_unfold w :
  main loads w
  = (config_modified <- modify_config_jsonc loads (config_file w);;
     print "";;
     style_modified <- modify_style_css (style_file w);;
     print "";;
     script_modified <- create_vpn_script (script_file w);;
     print "";;
     (if config_modified || style_modified || script_modified
      then print "Done! Restart waybar to apply changes:";;
           print "  killall waybar && waybar &"
      else print "Nothing to do - all files already configured.");;
     ret (config_modified, style_modified, script_modified))
      (log (EvStdout "Fixing waybar config for VPN toggle support...
") w).
Proof.
  unfold main.
  rewrite (io_bind_Return _ _ _ _ _ (expand_config w)).
  rewrite (io_bind_Return _ _ _ _ _ (expand_style w)).
  rewrite (io_bind_Return _ _ _ _ _ (expand_script w)).
  reflexivity.
Qed.

(** X18.  A run of [main] writes no file other than the configuration,
    the stylesheet, their two .bak siblings and the toggle script: any
    other file holds at the end what it held at the start, and no effect of
    the run is aimed at it. *)
Theorem main_confined w p :
  p ∉ [config_file w; config_file w +:+ ".bak";
       style_file w; style_file w +:+ ".bak"; script_file w] ->
  untouched p w (fst (main loads w)).
Proof.
  intros Hp. rewrite main_unfold.
  apply (untouched_trans p w
           (log (EvStdout "Fixing waybar config for VPN toggle support...
") w)).
  { apply (untouched_log p (EvStdout "Fixing waybar config for VPN toggle support...
")); [simpl; tauto|done|done]. }
  apply (confined_untouched
           (fun q => q ∈ [config_file w; config_file w +:+ ".bak";
                          style_file w; style_file w +:+ ".bak";
                          script_file w])); [|done].
  apply confined_bind.
  { eapply confined_weaken; [|apply confined_modify_config].
    intros q [-> | ->]; set_solver. }
  intros cm. apply confined_bind; [apply confined_print|intros _].
  apply confined_bind.
  { eapply confined_weaken; [|apply confined_modify_style].
    intros q [-> | ->]; set_solver. }
  intros sm. apply confined_script_tail. set_solver.
Qed.

(** X19.  A fatal error ends the run at once and nothing is rolled back.
    When module registration leaves through [sys.exit] or with an
    exception, [main] ends in the same way in the world that operation
    left: the stylesheet and the script operations are not run.  When
    module registration returns and the stylesheet append fails, [main]
    ends in the same way as the append, and every file is as module
    registration left it. *)
Theorem main_stops_at_failure w :
  let r1 := modify_config_jsonc loads (config_file w)
              (log (EvStdout "Fixing waybar config for VPN toggle support...
") w) in
  let r2 := modify_style_css (style_file w) (log (EvStdout "") (fst r1)) in
  (forall status, snd r1 = Exit status -> main loads w = (fst r1, Exit status)) /\
  (forall e, snd r1 = Raise e -> main loads w = (fst r1, Raise e)) /\
  (forall config_modified status,
     snd r1 = Return config_modified -> snd r2 = Exit status ->
     main loads w = (fst r2, Exit status) /\ files (fst r2) = files (fst r1)) /\
  (forall config_modified e,
     snd r1 = Return config_modified -> snd r2 = Raise e ->
     main loads w = (fst r2, Raise e) /\ files (fst r2) = files (fst r1)).
Proof.
  intros r1 r2. rewrite main_unfold.
  split; [|split; [|split]].
  - intros status H. apply io_bind_Exit. by apply run_pair.
  - intros e H. apply io_bind_Raise. by apply run_pair.
  - intros cm status H1 H2. split.
    + rewrite (io_bind_Return _ _ _ _ _ (run_pair r1 _ H1)).
      erewrite io_bind_Return by reflexivity.
      apply io_bind_Exit. by apply run_pair.
    + apply (modify_style_fails (log (EvStdout "") (fst r1))).
      fold r2. by rewrite H2.
  - intros cm e H1 H2. split.
    + rewrite (io_bind_Return _ _ _ _ _ (run_pair r1 _ H1)).
      erewrite io_bind_Return by reflexivity.
      apply io_bind_Raise. by apply run_pair.
    + apply (modify_style_fails (log (EvStdout "") (fst r1))).
      fold r2. by rewrite H2.
Qed.

(** X20.  When the idempotency conditions of the three targets hold,
    [main] only prints: the banner, the three lines that report a skip,
    separated by empty lines, and the line that nothing is to be done.  It
    returns with the three flags false, and files, directories and
    permission bits are what they were: nothing is written and no backup is
    made. *)
Theorem main_nothing_to_do w :
  config_satisfied loads w (config_file w) ->
  style_satisfied w (style_file w) ->
  script_satisfied w (script_file w) ->
  main loads w
  = (World (files w) (dirs w) (home w) (umask w)
       (trace w ++
        [EvStdout "Fixing waybar config for VPN toggle support...
";
         EvStdout "config.jsonc: Already configured, skipping";
         EvStdout "";
         EvStdout "style.css: Already configured, skipping";
         EvStdout "";
         EvStdout "vpn-toggle.sh: Already configured, skipping";
         EvStdout "";
         EvStdout "Nothing to do - all files already configured."]),
     Return (false, false, false)).
Proof.
  intros Hconfig Hstyle Hscript. rewrite main_unfold.
  erewrite io_bind_Return by (apply config_satisfied_skip; exact Hconfig).
  erewrite io_bind_Return by reflexivity.
  erewrite io_bind_Return by (apply style_satisfied_skip; exact Hstyle).
  erewrite io_bind_Return by reflexivity.
  erewrite io_bind_Return by (apply script_satisfied_skip; exact Hscript).
  erewrite io_bind_Return by reflexivity.
  cbn [orb]. erewrite io_bind_Return by reflexivity.
  unfold ret. f_equal. destruct w as [fs ds h u tr].
  rewrite !log_World. cbn [files dirs home umask trace].
  by rewrite <- !app_assoc.
Qed.

End MainRuns.

Lemma main_confined_witness :
  let w := sample_world tray_in_right plain_style None in
  untouched "/etc/passwd" w (fst (main (json_loads cpython) w)).
Proof.
  intros w. apply (main_confined (json_loads cpython) w "/etc/passwd").
  intros H. vm_compute in H.
  repeat (apply elem_of_cons in H as [H|H]; [discriminate H|]).
  by apply elem_of_nil in H.
Defined.

Lemma main_stops_at_failure_witness :
  let w := World ∅ ∅ "/home/u" 18%N [] in
  main (json_loads cpython) w
  = (log (EvStderr ("ERROR: Config file not found: " +:+ sample_config_path))
       (log (EvStdout "Fixing waybar config for VPN toggle support...
") w),
     Exit 1%Z).
Proof.
  intros w.
  destruct (main_stops_at_failure (json_loads cpython) w) as [Hexit _].
  apply (Hexit 1%Z). reflexivity.
Defined.

Lemma main_nothing_to_do_witness :
  snd (main (json_loads cpython)
         (sample_world configured css_block (Some get_vpn_script_content)))
  = Return (false, false, false).
Proof.
  rewrite (main_nothing_to_do (json_loads cpython)
             (sample_world configured css_block (Some get_vpn_script_content))).
  - reflexivity.
  - exists (File configured 420%N),
           [(MODULES_RIGHT, JArr [JStr CUSTOM_VPN]); (CUSTOM_VPN, JObj [])],
           [JStr CUSTOM_VPN].
    split; [reflexivity|]. split; [reflexivity|]. split; [reflexivity|].
    split; [apply list_elem_of_here|]. by eexists.
  - exists (File css_block 420%N), [NEWLINE], (str " {
  min-width: 12px;
  margin-left: 7.5px;
  margin-right: 17px;
}
").
    split; reflexivity.
  - exists (File get_vpn_script_content 493%N). split; reflexivity.
Defined.

(** ** Documents that are not an object, paths without a directory *)

Section NotObject.
Variable loads : list N -> returned json.

(** X21.  A configuration that does not decode to an object is never
    patched.  For a list, the key test is a test of membership among the
    elements: a list that does not hold the string modules-right itself,
    such as a list of bar objects, ends the run with exit status 1 and the
    message that modules-right was not found; a list that holds it passes
    the test and [AttributeError] escapes from [config.get].  A string is
    tested for the substring, with the same two outcomes.  A number, a
    boolean or null makes the key test raise [TypeError].  No file is
    written in any of these cases. *)
Theorem top_level_not_object w path f config :
  files w !! path = Some f ->
  parse_jsonc loads (read_text f) = Return config ->
  let r := modify_config_jsonc loads path w in
  let missing :=
    (log (EvStderr "ERROR: 'modules-right' not found in config") w,
     Exit 1%Z) in
  match config with
  | JObj _ => True
  | JArr items =>
      (JStr MODULES_RIGHT ∈ items -> r = (w, Raise AttributeError)) /\
      (JStr MODULES_RIGHT ∉ items -> r = missing)
  | JStr s =>
      r = if contains MODULES_RIGHT s then (w, Raise AttributeError)
          else missing
  | JNull | JBool _ | JNum _ => r = (w, Raise TypeError)
  end.
Proof.
  intros Hf Hp r missing. subst r missing.
  destruct config as [|b|lexeme|s|items|members]; try done;
    rewrite (modify_config_not_object loads w path f _ Hf Hp) by done;
    try reflexivity.
  pose proof (py_in_list MODULES_RIGHT items) as Hin.
  destruct (py_in MODULES_RIGHT (JArr items)) as [[]|] eqn:E;
    try discriminate E.
  - split; [done|]. intros Hno. destruct Hno. by apply Hin.
  - split; [|done]. intros Hyes. apply Hin in Hyes. discriminate Hyes.
Qed.

End NotObject.

Lemma top_level_not_object_witness :
  let w := sample_world list_of_bars plain_style None in
  modify_config_jsonc (json_loads cpython) sample_config_path w
  = (log (EvStderr "ERROR: 'modules-right' not found in config") w, Exit 1%Z).
Proof.
  intros w.
  destruct (top_level_not_object (json_loads cpython) w sample_config_path
              (File list_of_bars 420%N)
              (JArr [JObj [(MODULES_RIGHT, JArr [JStr (str "clock")])]])
              eq_refl eq_refl) as [_ Hmissing].
  apply Hmissing. intros H.
  apply elem_of_cons in H as [H|H]; [discriminate H|].
  by apply elem_of_nil in H.
Defined.

(** X22.  [create_vpn_script] on a path without a directory part: the
    directory name is the empty string, which does not exist, and
    [os.makedirs] refuses it.  Unless the text read from the file, its line
    ends translated, is already the script, [FileNotFoundError] escapes
    before anything is written. *)
Theorem script_bare_filename path w :
  dirname path = "" ->
  files w !! "" = None -> "" ∉ dirs w ->
  path ∉ dirs w ->
  (forall f, files w !! path = Some f -> read_text f <> get_vpn_script_content) ->
  create_vpn_script path w = (w, Raise FileNotFoundError).
Proof.
  intros Hdir Hempty Hnodir Hpath Hdiff. unfold create_vpn_script.
  rewrite Hdir.
  assert (Hsame :
    (found <- os_path_exists path;;
     (if found
      then existing_content <- read_file path;;
           ret (bool_decide (existing_content = get_vpn_script_content))
      else ret false)) w = (w, Return false)).
  { destruct (files w !! path) as [f|] eqn:Hf.
    - rewrite (io_bind_Return _ _ _ _ _ (exists_file w path f Hf)).
      rewrite (io_bind_Return _ _ _ _ _ (read_file_Some w path f Hf)).
      unfold ret. by rewrite bool_decide_false by by apply Hdiff.
    - by rewrite (io_bind_Return _ _ _ _ _ (exists_none w path Hf Hpath)). }
  rewrite <- io_bind_assoc.
  rewrite (io_bind_Return _ _ _ _ _ Hsame).
  rewrite (io_bind_Return _ _ _ _ _ (exists_none w "" Hempty Hnodir)).
  cbn [negb]. reflexivity.
Qed.

Lemma script_bare_filename_witness :
  create_vpn_script "vpn-toggle.sh" (World ∅ ∅ "/home/u" 18%N [])
  = (World ∅ ∅ "/home/u" 18%N [], Raise FileNotFoundError).
Proof.
  apply script_bare_filename.
  - reflexivity.
  - reflexivity.
  - apply not_elem_of_empty.
  - apply not_elem_of_empty.
  - intros f Hf. discriminate Hf.
Defined.

(** A copy of the script stored with carriage returns differs from the
    script and reads as the script: it is found identical and skipped. *)
Example script_with_CRLF_skipped :
  let w := sample_world configured plain_style
             (Some (with_CRLF get_vpn_script_content)) in
  length (with_CRLF get_vpn_script_content)
  = length get_vpn_script_content + 16 /\
  create_vpn_script sample_script_path w
  = (log (EvStdout "vpn-toggle.sh: Already configured, skipping") w,
     Return false).
Proof. vm_compute. split; reflexivity. Qed.
